(** * Structured invoice recognition: [procesador_facturas.py]

    A shallow embedding of [normalizar_monto], [reconocer_factura] and
    [procesar_lote_facturas], with the properties of the recognition
    pipeline and of the batch proved over it.

    Conventions of the embedding.
    - A Python [str] is a [string] holding its UTF-8 bytes.  Substring tests
      on bytes agree with substring tests on code points because UTF-8 is
      self-synchronising.
    - [str.lower] is modelled on ASCII and on the Latin-1 letters (the
      two-byte sequences starting with 0xC3); other characters are left
      unchanged.  [str.strip] removes every character that Python counts
      as whitespace, the ASCII ones and U+0085, U+00A0, U+1680,
      U+2000..U+200A, U+2028, U+2029, U+202F, U+205F and U+3000 in their
      UTF-8 form; the strings are taken to be well-formed UTF-8.
    - [decimal.Decimal] is modelled by its sign, coefficient and exponent,
      with the default context (28 significant digits, half-even rounding,
      exponents in [-999999, 999999], traps on InvalidOperation and
      Overflow) applied by the arithmetic exactly where Python applies it.
      The parsers read ASCII digits: the decimal digits of other scripts,
      which [Decimal] and [float] take as well, and the bound that the
      decimal library puts on the size of an exponent
      are outside the model.
    - The output of [pytesseract.image_to_data] is a list of rows, one per
      index of its parallel lists; [conf] is the value of [int(conf)].
    - What the program asks of other libraries is a parameter of the
      model: [leer] for the image read by OpenCV and recognised by
      Tesseract, an [impresor] for the lines that show a result, whose
      table is built by pandas. *)

From Stdlib Require Import ZArith NArith List Bool Ascii String Lia.
From Stdlib Require Import Sorting.Permutation Sorting.Sorted.
Import ListNotations.

Local Open Scope string_scope.
Local Open Scope Z_scope.

(** ** Exceptions *)

(** The exceptions of the builtins and of [decimal] that the code meets,
    and [Otra] for one of any other class, none of the caught ones, named
    by its class. *)
Inductive excepcion : Type :=
| ValueError
| IndexError
| OverflowError
| InvalidOperation
| DecimalOverflow
| Otra (clase : string).

Inductive resultado (A : Type) : Type :=
| Ok (a : A)
| Raise (e : excepcion).
Arguments Ok {A} a.
Arguments Raise {A} e.

Definition bind {A B : Type} (r : resultado A) (k : A -> resultado B)
  : resultado B :=
  match r with
  | Ok a => k a
  | Raise e => Raise e
  end.

Notation "x <- r ;; k" := (bind r (fun x => k))
  (at level 61, r at next level, right associativity).

Definition excepcion_eqb (a b : excepcion) : bool :=
  match a, b with
  | ValueError, ValueError | IndexError, IndexError
  | OverflowError, OverflowError | InvalidOperation, InvalidOperation
  | DecimalOverflow, DecimalOverflow => true
  | Otra a, Otra b => String.eqb a b
  | _, _ => false
  end.

(** ** Strings *)

Module Str.

Definition code (c : ascii) : N := N_of_ascii c.

Definition is_digit (c : ascii) : bool :=
  ((48 <=? code c) && (code c <=? 57))%N.

Definition digit_val (c : ascii) : N := (code c - 48)%N.

(** ASCII whitespace of [str.isspace]: TAB..CR, FS..US and the space. *)
Definition is_space (c : ascii) : bool :=
  (((9 <=? code c) && (code c <=? 13))
   || ((28 <=? code c) && (code c <=? 32)))%N.

(** Whitespace of the C locale, which [float] drops at both ends: TAB..CR
    and the space, not FS..US. *)
Definition is_space_c (c : ascii) : bool :=
  (((9 <=? code c) && (code c <=? 13)) || (code c =? 32))%N.

Definition lower_ascii (c : ascii) : ascii :=
  if ((65 <=? code c) && (code c <=? 90))%N
  then ascii_of_N (code c + 32) else c.

(** Second byte of a two-byte sequence that starts with 0xC3: the capital
    letters U+00C0..U+00DE except the multiplication sign U+00D7. *)
Definition lower_latin1 (d : ascii) : ascii :=
  if ((128 <=? code d) && (code d <=? 158) && negb (code d =? 151))%N
  then ascii_of_N (code d + 32) else d.

Fixpoint lower (s : string) : string :=
  match s with
  | EmptyString => EmptyString
  | String c s1 =>
      if (code c =? 195)%N then
        match s1 with
        | EmptyString => String c EmptyString
        | String d s2 => String c (String (lower_latin1 d) (lower s2))
        end
      else String (lower_ascii c) (lower s1)
  end.

(** The whitespace characters of two bytes: U+0085 and U+00A0. *)
Definition is_space2 (a b : ascii) : bool :=
  ((code a =? 194) && ((code b =? 133) || (code b =? 160)))%N.

(** Those of three bytes: U+1680, U+2000..U+200A, U+2028, U+2029, U+202F,
    U+205F and U+3000. *)
Definition is_space3 (a b c : ascii) : bool :=
  (((code a =? 225) && (code b =? 154) && (code c =? 128))
   || ((code a =? 226) && (code b =? 128)
       && (((128 <=? code c) && (code c <=? 138))
           || (code c =? 168) || (code c =? 169) || (code c =? 175)))
   || ((code a =? 226) && (code b =? 129) && (code c =? 159))
   || ((code a =? 227) && (code b =? 128) && (code c =? 128)))%N.

(** Dropping the leading whitespace characters, of one, two or three
    bytes; [esp] tells which characters of one byte count. *)
Fixpoint lstrip_con (esp : ascii -> bool) (s : string) : string :=
  match s with
  | EmptyString => EmptyString
  | String a s1 =>
      if esp a then lstrip_con esp s1
      else
        match s1 with
        | EmptyString => s
        | String b s2 =>
            if is_space2 a b then lstrip_con esp s2
            else
              match s2 with
              | EmptyString => s
              | String c s3 =>
                  if is_space3 a b c then lstrip_con esp s3 else s
              end
        end
  end.

(** Dropping the trailing run of whitespace: the text is cut where all
    that follows is whitespace.  A position inside a character of several
    bytes starts with a continuation byte, which starts no whitespace
    character. *)
Fixpoint rstrip_con (esp : ascii -> bool) (s : string) : string :=
  match s with
  | EmptyString => EmptyString
  | String a s1 =>
      match lstrip_con esp s with
      | EmptyString => EmptyString
      | String _ _ => String a (rstrip_con esp s1)
      end
  end.

Definition lstrip : string -> string := lstrip_con is_space.

Definition rstrip : string -> string := rstrip_con is_space.

(** [str.strip()]. *)
Definition strip (s : string) : string := rstrip (lstrip s).

(** What [float] drops at both ends of its argument. *)
Definition strip_c (s : string) : string :=
  rstrip_con is_space_c (lstrip_con is_space_c s).

(** [s.replace(c, '')] for a one-character [c]. *)
Fixpoint remove_char (c : ascii) (s : string) : string :=
  match s with
  | EmptyString => EmptyString
  | String d s1 =>
      if Ascii.eqb d c then remove_char c s1 else String d (remove_char c s1)
  end.

(** [s.replace(c, d)] for one-character [c] and [d]. *)
Fixpoint replace_char (c d : ascii) (s : string) : string :=
  match s with
  | EmptyString => EmptyString
  | String x s1 =>
      String (if Ascii.eqb x c then d else x) (replace_char c d s1)
  end.

(** [s.split(c)]: never empty, one more piece than occurrences of [c]. *)
Fixpoint split (c : ascii) (s : string) : list string :=
  match s with
  | EmptyString => [EmptyString]
  | String d s1 =>
      if Ascii.eqb d c then EmptyString :: split c s1
      else match split c s1 with
           | [] => [String d EmptyString]
           | p :: ps => String d p :: ps
           end
  end.

(** [sep.join(l)]. *)
Fixpoint join (sep : string) (l : list string) : string :=
  match l with
  | [] => EmptyString
  | [x] => x
  | x :: rest => x ++ sep ++ join sep rest
  end.

Fixpoint starts_with (p s : string) : bool :=
  match p, s with
  | EmptyString, _ => true
  | String a p1, String b s1 => Ascii.eqb a b && starts_with p1 s1
  | String _ _, EmptyString => false
  end.

(** [needle in hay]. *)
Fixpoint contains (needle hay : string) : bool :=
  starts_with needle hay ||
  match hay with
  | EmptyString => false
  | String _ h1 => contains needle h1
  end.

(** Truthiness of a [str]. *)
Definition nonempty (s : string) : bool :=
  match s with EmptyString => false | String _ _ => true end.

(** Longest prefix of digits, and the rest. *)
Fixpoint span_digits (s : string) : string * string :=
  match s with
  | EmptyString => (EmptyString, EmptyString)
  | String c s1 =>
      if is_digit c
      then let (d, r) := span_digits s1 in (String c d, r)
      else (EmptyString, s)
  end.

(** Value of a string of digits, most significant first. *)
Fixpoint digits_value_acc (acc : N) (s : string) : N :=
  match s with
  | EmptyString => acc
  | String c s1 => digits_value_acc (10 * acc + digit_val c)%N s1
  end.

Definition digits_value (s : string) : N := digits_value_acc 0 s.

End Str.

(** ** [decimal.Decimal] *)

Module Dec.

(** [DFin s c e] is [(-1)^s * c * 10^e]. *)
Inductive Decimal : Type :=
| DFin (sign : bool) (coef : N) (exp : Z)
| DInf (sign : bool)
| DNaN (sign : bool) (signaling : bool) (diag : N).

Definition prec : Z := 28.
Definition Emax : Z := 999999.
Definition Emin : Z := -999999.
Definition Etiny : Z := Emin - prec + 1.

(** *** The constructor [Decimal(str)]

    The text is stripped, underscores are removed, and the rest must match
    [[-+]? ( digits* (. digits* )? (E [-+]? digits+)? | Inf(inity)? |
    s? NaN digits* )] to its end, letters in either case, the number
    having at least one digit.  The conversion is exact. *)

Definition parse_sign (s : string) : bool * string :=
  match s with
  | String "-" s1 => (true, s1)
  | String "+" s1 => (false, s1)
  | _ => (false, s)
  end.

Definition parse_exponent (s : string) : option Z :=
  match s with
  | EmptyString => Some 0
  | String c s1 =>
      if Ascii.eqb (Str.lower_ascii c) "e" then
        let (neg, s2) := parse_sign s1 in
        let (ds, rest) := Str.span_digits s2 in
        if Str.nonempty ds && negb (Str.nonempty rest)
        then Some (if neg then - Z.of_N (Str.digits_value ds)
                   else Z.of_N (Str.digits_value ds))
        else None
      else None
  end.

Definition parse_number (neg : bool) (s : string) : option Decimal :=
  let (ip, r1) := Str.span_digits s in
  let (fp, r2) :=
    match r1 with
    | String "." r => Str.span_digits r
    | _ => (EmptyString, r1)
    end in
  if Str.nonempty ip || Str.nonempty fp then
    match parse_exponent r2 with
    | Some e =>
        Some (DFin neg (Str.digits_value (ip ++ fp))
                (e - Z.of_nat (String.length fp)))
    | None => None
    end
  else None.

Definition parse_nan (neg signaling : bool) (s : string) : option Decimal :=
  let (ds, rest) := Str.span_digits s in
  if Str.nonempty rest then None
  else Some (DNaN neg signaling (Str.digits_value ds)).

Definition parse_special (neg : bool) (s : string) : option Decimal :=
  let l := Str.lower s in
  if String.eqb l "inf" || String.eqb l "infinity" then Some (DInf neg)
  else if Str.starts_with "nan" l
  then parse_nan neg false (substring 3 (String.length l) l)
  else if Str.starts_with "snan" l
  then parse_nan neg true (substring 4 (String.length l) l)
  else None.

(** [Decimal(s)]: [None] stands for the [InvalidOperation] of a text that
    is no number.  Whitespace is dropped at both ends as [str.strip] does,
    underscores are dropped everywhere.  The digits read are the ASCII
    ones, and an exponent is read whatever its size. *)
Definition of_string (s : string) : option Decimal :=
  let t := Str.remove_char "_" (Str.strip s) in
  let (neg, body) := parse_sign t in
  match parse_number neg body with
  | Some d => Some d
  | None => parse_special neg body
  end.

(** *** Arithmetic in the default context *)

Definition zero : Decimal := DFin false 0 0.

Fixpoint ndigits_fuel (fuel : nat) (c : N) : Z :=
  match fuel with
  | O => 0
  | S f => if (c =? 0)%N then 0 else 1 + ndigits_fuel f (c / 10)%N
  end.

(** Number of decimal digits of [c]; 0 for 0. *)
Definition ndigits (c : N) : Z := ndigits_fuel (N.size_nat c) c.

(** Half-even division of [c] by [10^k]. *)
Definition round_half_even (c : Z) (k : Z) : Z :=
  let p := 10 ^ k in
  let q := c / p in
  let r := c mod p in
  if 2 * r <? p then q
  else if p <? 2 * r then q + 1
  else if Z.even q then q else q + 1.

(** [Decimal._fix] on a finite number: round to [prec] digits, keep the
    exponent above [Etiny], signal [Overflow] (trapped) above [Emax]. *)
Definition fix_fin (s : bool) (c : N) (e : Z) : resultado Decimal :=
  if (c =? 0)%N then Ok (DFin s 0 (Z.min (Z.max e Etiny) Emax))
  else
    let Etop := Emax - prec + 1 in
    let exp_min0 := ndigits c + e - prec in
    if Etop <? exp_min0 then Raise DecimalOverflow
    else
      let exp_min := Z.max exp_min0 Etiny in
      if e <? exp_min then
        let q := round_half_even (Z.of_N c) (exp_min - e) in
        let '(q1, e1) :=
          if prec <? ndigits (Z.to_N q) then (q / 10, exp_min + 1)
          else (q, exp_min) in
        if Etop <? e1 then Raise DecimalOverflow
        else Ok (DFin s (Z.to_N q1) e1)
      else Ok (DFin s c e).

Definition signed (s : bool) (c : N) : Z :=
  if s then - Z.of_N c else Z.of_N c.

(** [Decimal._fix_nan]: a payload keeps its last [prec] digits. *)
Definition fix_nan (s : bool) (d : N) : Decimal :=
  DNaN s false (d mod Z.to_N (10 ^ prec))%N.

(** [Decimal.__add__] in the default context. *)
Definition add (a b : Decimal) : resultado Decimal :=
  match a, b with
  | DNaN _ true _, _ => Raise InvalidOperation
  | _, DNaN _ true _ => Raise InvalidOperation
  | DNaN s false d, _ => Ok (fix_nan s d)
  | _, DNaN s false d => Ok (fix_nan s d)
  | DInf sa, DInf sb =>
      if Bool.eqb sa sb then Ok (DInf sa) else Raise InvalidOperation
  | DInf sa, DFin _ _ _ => Ok (DInf sa)
  | DFin _ _ _, DInf sb => Ok (DInf sb)
  | DFin sa ca ea, DFin sb cb eb =>
      let e := Z.min ea eb in
      if ((ca =? 0) && (cb =? 0))%N then fix_fin (sa && sb) 0 e
      else if (ca =? 0)%N then
        let e1 := Z.max e (eb - prec - 1) in
        fix_fin sb (cb * Z.to_N (10 ^ (eb - e1)))%N e1
      else if (cb =? 0)%N then
        let e1 := Z.max e (ea - prec - 1) in
        fix_fin sa (ca * Z.to_N (10 ^ (ea - e1)))%N e1
      else
        let v := signed sa ca * 10 ^ (ea - e) + signed sb cb * 10 ^ (eb - e) in
        if v =? 0 then fix_fin false 0 e
        else fix_fin (v <? 0) (Z.abs_N v) e
  end.

(** [sum(l)]: the start value is the integer 0, so the first step is
    [l[0].__radd__(0)]; the later ones are [acc.__add__(l[i])]. *)
Fixpoint sum_from (acc : Decimal) (l : list Decimal) : resultado Decimal :=
  match l with
  | [] => Ok acc
  | d :: rest => acc1 <- add acc d ;; sum_from acc1 rest
  end.

Definition sum (l : list Decimal) : resultado Decimal :=
  match l with
  | [] => Ok zero
  | d :: rest => acc <- add d zero ;; sum_from acc rest
  end.

(** [a == b]: numeric, false on a quiet NaN, [InvalidOperation] on a
    signaling one. *)
Definition eq (a b : Decimal) : resultado bool :=
  match a, b with
  | DNaN _ true _, _ => Raise InvalidOperation
  | _, DNaN _ true _ => Raise InvalidOperation
  | DNaN _ false _, _ => Ok false
  | _, DNaN _ false _ => Ok false
  | DInf sa, DInf sb => Ok (Bool.eqb sa sb)
  | DInf _, DFin _ _ _ => Ok false
  | DFin _ _ _, DInf _ => Ok false
  | DFin sa ca ea, DFin sb cb eb =>
      let e := Z.min ea eb in
      Ok (signed sa ca * 10 ^ (ea - e) =? signed sb cb * 10 ^ (eb - e))
  end.

(** The exact value of a finite number, scaled by [10^(-e)] for an
    exponent [e] not above its own. *)
Definition scaled (e : Z) (d : Decimal) : Z :=
  match d with
  | DFin s c x => signed s c * 10 ^ (x - e)
  | _ => 0
  end.

Definition is_finite (d : Decimal) : bool :=
  match d with DFin _ _ _ => true | _ => false end.

Definition exponent (d : Decimal) : Z :=
  match d with DFin _ _ e => e | _ => 0 end.

End Dec.

(** ** [int(float(s))] *)

Module PyFloat.

(** Underscores must stand between two digits. *)
Fixpoint underscores_ok (prev : ascii) (s : string) : bool :=
  match s with
  | EmptyString => negb (Ascii.eqb prev "_")
  | String c s1 =>
      (if Ascii.eqb c "_" then Str.is_digit prev
       else negb (Ascii.eqb prev "_") || Str.is_digit c)
      && underscores_ok c s1
  end.

Inductive literal : Type :=
| LNum (neg : bool) (m : N) (e : Z)
| LInf
| LNaN.

(** The text of [float(s)]: [None] stands for its [ValueError].  [float]
    turns the whitespace outside ASCII into spaces and drops the
    whitespace of the C locale at both ends, so that FS..US there are an
    error.  The digits read are the ASCII ones. *)
Definition parse (s : string) : option literal :=
  let t := Str.strip_c s in
  if negb (underscores_ok "000" t) then None
  else
    let (neg, body) := Dec.parse_sign (Str.remove_char "_" t) in
    match Dec.parse_number neg body with
    | Some (Dec.DFin sg m e) => Some (LNum sg m e)
    | _ =>
        let l := Str.lower body in
        if String.eqb l "inf" || String.eqb l "infinity" then Some LInf
        else if String.eqb l "nan" then Some LNaN
        else None
    end.

(** Whether [n / d >= 2^e]. *)
Definition ge_pow2 (n d e : Z) : bool :=
  if 0 <=? e then d * 2 ^ e <=? n else d <=? n * 2 ^ (- e).

(** Nearest binary64 to [n / d] (ties to even) as [(q, k)] for [q * 2^k];
    [None] when the value rounds beyond the largest finite double. *)
Definition round_b64 (n d : Z) : option (Z * Z) :=
  let e0 := Z.log2 n - Z.log2 d in
  let e := if ge_pow2 n d e0 then e0 else e0 - 1 in
  let k := Z.max (e - 52) (-1074) in
  let (num, den) := if 0 <=? k then (n, d * 2 ^ k) else (n * 2 ^ (- k), d) in
  let q := num / den in
  let r := num mod den in
  let q1 := if 2 * r <? den then q
            else if den <? 2 * r then q + 1
            else if Z.even q then q else q + 1 in
  if (971 <? k) || ((k =? 971) && (2 ^ 53 <=? q1)) then None
  else Some (q1, k).

(** [int(x)] of the double [q * 2^k], truncating toward zero. *)
Definition trunc (neg : bool) (q k : Z) : Z :=
  let a := if 0 <=? k then q * 2 ^ k else q / 2 ^ (- k) in
  if neg then - a else a.

Definition int_of_float_str (s : string) : resultado Z :=
  match parse s with
  | None => Raise ValueError
  | Some LNaN => Raise ValueError
  | Some LInf => Raise OverflowError
  | Some (LNum neg m e) =>
      if (m =? 0)%N then Ok 0
      else
        let (n, d) := if 0 <=? e then (Z.of_N m * 10 ^ e, 1)
                      else (Z.of_N m, 10 ^ (- e)) in
        match round_b64 n d with
        | None => Raise OverflowError
        | Some (q, k) => Ok (trunc neg q k)
        end
  end.

End PyFloat.

(** ** [normalizar_monto] *)

Definition normalizar_texto (monto_str : string) : string :=
  let monto_str_normalizado :=
    Str.replace_char "," "." (Str.remove_char "." monto_str) in
  let partes := Str.split "." monto_str_normalizado in
  if (2 <? List.length partes)%nat
  then Str.join EmptyString (removelast partes)
       ++ "." ++ last partes EmptyString
  else monto_str_normalizado.

(** [None] is Python's [None]: the [InvalidOperation] of the constructor is
    caught. *)
Definition normalizar_monto (monto_str : string) : option Dec.Decimal :=
  Dec.of_string (normalizar_texto monto_str).

(** ** Dictionaries in insertion order *)

Section Dict.
Context {K V : Type} (eqb : K -> K -> bool).

Fixpoint dict_get (d : list (K * V)) (k : K) : option V :=
  match d with
  | [] => None
  | (k1, v1) :: r => if eqb k k1 then Some v1 else dict_get r k
  end.

(** [d[k] = v]: a present key keeps its place, a new one goes last. *)
Fixpoint dict_set (d : list (K * V)) (k : K) (v : V) : list (K * V) :=
  match d with
  | [] => [(k, v)]
  | (k1, v1) :: r =>
      if eqb k k1 then (k, v) :: r else (k1, v1) :: dict_set r k v
  end.

Definition dict_keys (d : list (K * V)) : list K := map fst d.
End Dict.

(** ** The recognised words *)

(** One index of the parallel lists of [image_to_data]. *)
Record fila : Type := mk_fila {
  f_text : string;
  f_conf : Z;
  f_left : Z;
  f_top : Z;
  f_width : Z;
  f_height : Z
}.

Record palabra : Type := mk_palabra {
  p_text : string;
  p_left : Z;
  p_top : Z;
  p_width : Z;
  p_height : Z
}.

Definition aceptada (f : fila) : bool :=
  Str.nonempty (Str.strip (f_text f)) && (60 <? f_conf f).

Definition palabra_de (f : fila) : palabra :=
  mk_palabra (Str.strip (f_text f)) (f_left f) (f_top f) (f_width f)
    (f_height f).

(** The loop that fills [palabras]. *)
Fixpoint filtrar (data : list fila) : list palabra :=
  match data with
  | [] => []
  | f :: rest =>
      if aceptada f then palabra_de f :: filtrar rest else filtrar rest
  end.

(** ** Stable sorting, as [list.sort] and [sorted] with a key *)

Section Orden.
Context {A : Type} (leb : A -> A -> bool).

Fixpoint insertar (x : A) (l : list A) : list A :=
  match l with
  | [] => [x]
  | y :: r => if leb x y then x :: l else y :: insertar x r
  end.

(** Each element is put before the elements that follow it in the input
    and are not smaller: equal keys keep their order. *)
Fixpoint ordenar (l : list A) : list A :=
  match l with
  | [] => []
  | x :: r => insertar x (ordenar r)
  end.
End Orden.

(** [key=lambda x: (x['top'], x['left'])], tuples compared in order. *)
Definition leb_top_left (a b : palabra) : bool :=
  (p_top a <? p_top b) || ((p_top a =? p_top b) && (p_left a <=? p_left b)).

(** [key=lambda p: p['left']]. *)
Definition leb_left (a b : palabra) : bool := p_left a <=? p_left b.

(** ** Grouping into lines *)

Definition agrupar_paso (st : list (list palabra) * list palabra)
    (palabra_actual : palabra) : list (list palabra) * list palabra :=
  let '(lineas, linea_actual) := st in
  (* linea_actual is never empty: the default of [last] is not used *)
  let palabra_anterior := last linea_actual palabra_actual in
  if Z.abs (p_top palabra_actual - p_top palabra_anterior) <? 20
  then (lineas, (linea_actual ++ [palabra_actual])%list)
  else ((lineas ++ [ordenar leb_left linea_actual])%list, [palabra_actual]).

(** [palabras] is the list already sorted by (top, left). *)
Definition agrupar (palabras : list palabra) : list (list palabra) :=
  match palabras with
  | [] => []
  | p0 :: resto =>
      let '(lineas, linea_actual) := fold_left agrupar_paso resto ([], [p0]) in
      (lineas ++ [ordenar leb_left linea_actual])%list
  end.

Definition lineas_de (data : list fila) : list (list palabra) :=
  agrupar (ordenar leb_top_left (filtrar data)).

(** ** Columns *)

Inductive Columna : Type := Cant | Descripcion | PUnit | Importe.

Definition orden (c : Columna) : Z :=
  match c with Cant => 0 | Descripcion => 1 | PUnit => 2 | Importe => 3 end.

Definition columna_eqb (a b : Columna) : bool := orden a =? orden b.

Definition MAPEO_COLUMNAS : list (Columna * list string) :=
  [ (Cant, ["cant"; "cantidad"; "qty"]);
    (Descripcion,
      ["descripción"; "descripcion"; "producto"; "servicio"; "concepto"]);
    (PUnit, ["p.unit"; "unitario"; "precio"; "p/u"]);
    (Importe, ["importe"; "total"; "subtotal"; "valor"]) ].

Inductive Estado : Type :=
| buscando_columnas
| extrayendo_detalles
| buscando_total.

Definition estado_eqb (a b : Estado) : bool :=
  match a, b with
  | buscando_columnas, buscando_columnas
  | extrayendo_detalles, extrayendo_detalles
  | buscando_total, buscando_total => true
  | _, _ => false
  end.

(** One entry of [detalles]; [None] in [d_PUnit] is Python's [None]. *)
Record Detalle : Type := mk_detalle {
  d_Cant : Z;
  d_Descripcion : string;
  d_PUnit : option Dec.Decimal;
  d_Importe : Dec.Decimal
}.

(** The local variables of [reconocer_factura] that live across lines. *)
Record Vars : Type := mk_vars {
  detalles : list Detalle;
  total_factura : option Dec.Decimal;
  columnas : list (Columna * Z);
  estado : Estado
}.

Definition vars_iniciales : Vars := mk_vars [] None [] buscando_columnas.

Definition texto_de (linea : list palabra) : string :=
  Str.lower (Str.join " " (map p_text linea)).

(** *** Column detection *)

Definition palabra_con (alias : string) (linea : list palabra)
  : option palabra :=
  find (fun p => Str.contains alias (Str.lower (p_text p))) linea.

(** Body of [for alias in alias_list]; the state is [columnas, found_cols]. *)
Definition detectar_alias (linea_texto : string) (linea : list palabra)
    (nombre_col : Columna) (st : list (Columna * Z) * bool) (alias : string)
  : list (Columna * Z) * bool :=
  if Str.contains alias linea_texto then
    match palabra_con alias linea with
    | Some p => (dict_set columna_eqb (fst st) nombre_col (p_left p), true)
    | None => st
    end
  else st.

Definition detectar_columna (linea_texto : string) (linea : list palabra)
    (st : list (Columna * Z) * bool) (entrada : Columna * list string)
  : list (Columna * Z) * bool :=
  fold_left (detectar_alias linea_texto linea (fst entrada)) (snd entrada) st.

Definition detectar_columnas (linea_texto : string) (linea : list palabra)
    (cols : list (Columna * Z)) : list (Columna * Z) * bool :=
  fold_left (detectar_columna linea_texto linea) MAPEO_COLUMNAS (cols, false).

(** *** The total line *)

(** [[normalizar_monto(p['text']) for p in linea if ... is not None]]. *)
Fixpoint montos_en_linea (linea : list palabra) : list Dec.Decimal :=
  match linea with
  | [] => []
  | p :: r =>
      match normalizar_monto (p_text p) with
      | Some m => m :: montos_en_linea r
      | None => montos_en_linea r
      end
  end.

(** [l[-1]] of a list that may be empty. *)
Definition ultimo {A : Type} (l : list A) : option A :=
  match l with
  | [] => None
  | x :: r => Some (last r x)
  end.

(** *** Detail lines *)

Definition algun_alias (linea_texto : string) : bool :=
  existsb (fun entrada =>
             existsb (fun alias => Str.contains alias linea_texto)
               (snd entrada))
          MAPEO_COLUMNAS.

(** [min(distancias, key=distancias.get)]: the first key, in the order of
    the dictionary, whose distance is the least. *)
Fixpoint min_desde (mejor : Columna) (dmejor : Z) (d : list (Columna * Z))
  : Columna :=
  match d with
  | [] => mejor
  | (c, v) :: r =>
      if v <? dmejor then min_desde c v r else min_desde mejor dmejor r
  end.

Definition distancias (cols : list (Columna * Z)) (p : palabra)
  : list (Columna * Z) :=
  map (fun '(nombre_col, pos_col) => (nombre_col, Z.abs (p_left p - pos_col)))
      cols.

(** [ValueError] is what [min] raises on an empty dictionary; the caller
    has checked that [columnas] is not empty. *)
Definition columna_cercana (cols : list (Columna * Z)) (p : palabra)
  : resultado Columna :=
  match distancias cols p with
  | [] => Raise ValueError
  | (c, v) :: r => Ok (min_desde c v r)
  end.

(** [detalle_linea[c].append(t)]. *)
Fixpoint dict_append (dl : list (Columna * list string)) (c : Columna)
    (t : string) : list (Columna * list string) :=
  match dl with
  | [] => []
  | (c1, l) :: r =>
      if columna_eqb c c1 then (c1, (l ++ [t])%list) :: r
      else (c1, l) :: dict_append r c t
  end.

Fixpoint asignar_desde (cols : list (Columna * Z))
    (dl : list (Columna * list string)) (linea : list palabra)
  : resultado (list (Columna * list string)) :=
  match linea with
  | [] => Ok dl
  | p :: r =>
      c <- columna_cercana cols p ;;
      asignar_desde cols (dict_append dl c (p_text p)) r
  end.

Definition asignar (cols : list (Columna * Z)) (linea : list palabra)
  : resultado (list (Columna * list string)) :=
  asignar_desde cols (map (fun '(c, _) => (c, [])) cols) linea.

(** [detalle_linea.get(c, [None])[0]]. *)
Definition primero (dl : list (Columna * list string)) (c : Columna)
  : resultado (option string) :=
  match dict_get columna_eqb dl c with
  | None => Ok None
  | Some [] => Raise IndexError
  | Some (t :: _) => Ok (Some t)
  end.

(** Truthiness of a value that is [None] or a [str]. *)
Definition verdadero (o : option string) : bool :=
  match o with
  | Some t => Str.nonempty t
  | None => false
  end.

Definition texto_o_vacio (o : option string) : string :=
  match o with Some t => t | None => EmptyString end.

(** The body of the [try]: [Ok None] when nothing is appended. *)
Definition consolidar (dl : list (Columna * list string))
  : resultado (option Detalle) :=
  let desc :=
    Str.join " " (match dict_get columna_eqb dl Descripcion with
                  | Some l => l
                  | None => []
                  end) in
  cant_str <- primero dl Cant ;;
  punit_str <- primero dl PUnit ;;
  importe_str <- primero dl Importe ;;
  if verdadero importe_str && Str.nonempty desc then
    match normalizar_monto (texto_o_vacio importe_str) with
    | Some importe =>
        cant <- (if verdadero cant_str
                 then PyFloat.int_of_float_str
                        (Str.replace_char "," "." (texto_o_vacio cant_str))
                 else Ok 1) ;;
        Ok (Some (mk_detalle cant desc
                    (if verdadero punit_str
                     then normalizar_monto (texto_o_vacio punit_str)
                     else Some importe)
                    importe))
    | None => Ok None
    end
  else Ok None.

(** [except (ValueError, InvalidOperation, IndexError): pass]. *)
Definition atrapada (e : excepcion) : bool :=
  match e with
  | ValueError | InvalidOperation | IndexError => true
  | _ => false
  end.

Definition extraer_detalle (v : Vars) (linea : list palabra)
  : resultado Vars :=
  dl <- asignar (columnas v) linea ;;
  match consolidar dl with
  | Ok (Some d) =>
      Ok (mk_vars (detalles v ++ [d])%list (total_factura v) (columnas v)
            (estado v))
  | Ok None => Ok v
  | Raise e => if atrapada e then Ok v else Raise e
  end.

(** *** One iteration of [for linea in lineas] *)

Definition no_vacio {A : Type} (l : list A) : bool :=
  match l with [] => false | _ :: _ => true end.

Definition paso_detalles (v : Vars) (linea : list palabra)
  : resultado Vars :=
  if estado_eqb (estado v) extrayendo_detalles && no_vacio (columnas v) then
    if algun_alias (texto_de linea) then Ok v
    else extraer_detalle v linea
  else Ok v.

Definition paso_total (v : Vars) (linea : list palabra) : resultado Vars :=
  if Str.contains "total" (texto_de linea)
     && negb (estado_eqb (estado v) buscando_columnas)
  then
    match ultimo (montos_en_linea linea) with
    | Some m => Ok (mk_vars (detalles v) (Some m) (columnas v) buscando_total)
    | None => paso_detalles v linea
    end
  else paso_detalles v linea.

Definition paso (v : Vars) (linea : list palabra) : resultado Vars :=
  if estado_eqb (estado v) buscando_columnas then
    let '(cols, found_cols) :=
      detectar_columnas (texto_de linea) linea (columnas v) in
    let v1 := mk_vars (detalles v) (total_factura v) cols (estado v) in
    if found_cols
    then Ok (mk_vars (detalles v) (total_factura v) cols extrayendo_detalles)
    else paso_total v1 linea
  else paso_total v linea.

Fixpoint recorrer (v : Vars) (lineas : list (list palabra))
  : resultado Vars :=
  match lineas with
  | [] => Ok v
  | linea :: resto => v1 <- paso v linea ;; recorrer v1 resto
  end.

(** ** [reconocer_factura] and the coherence check *)

Definition total_de_detalles (ds : list Detalle) : resultado Dec.Decimal :=
  match ds with
  | [] => Ok Dec.zero
  | _ :: _ => Dec.sum (map d_Importe ds)
  end.

(** From the output of the OCR engine on. *)
Definition reconocer_factura (data : list fila)
  : resultado (list Detalle * option Dec.Decimal * Dec.Decimal) :=
  v <- recorrer vars_iniciales (lineas_de data) ;;
  total_calculado <- total_de_detalles (detalles v) ;;
  Ok (detalles v, total_factura v, total_calculado).

(** One entry of [resultados]; the amounts are kept as numbers, [None]
    standing for ['N/A'], and [Coherente] as a boolean for 'Sí' / 'No'. *)
Record Registro : Type := mk_registro {
  Total_Calculado : option Dec.Decimal;
  Total_Factura : option Dec.Decimal;
  Coherente : bool;
  Error : string
}.

(** The guard of line 228, the comparison of line 237 and the entry of
    lines 249 to 255, which is appended once the lines in between have
    shown the result: [validar] is the loop body of
    [procesar_lote_facturas] after the recognition without what it prints,
    [cuerpo_documento] below is the body with it. *)
Definition validar (r : list Detalle * option Dec.Decimal * Dec.Decimal)
  : resultado Registro :=
  let '(ds, total, total_calculado) := r in
  match ds, total with
  | _ :: _, Some t =>
      es_coherente <- Dec.eq total_calculado t ;;
      Ok (mk_registro (Some total_calculado) (Some t) es_coherente EmptyString)
  | _, _ =>
      Ok (mk_registro None None false "No se extrajeron detalles o total")
  end.

(** The recognition followed by the comparison. *)
Definition procesar_factura (data : list fila) : resultado Registro :=
  r <- reconocer_factura data ;; validar r.

(** Lines 239 to 247 show the details as the table that
    [pd.DataFrame(detalles).to_string(index=False)] builds, the two totals
    formatted with [:.2f] and the verdict.  The table is the work of
    pandas, which is no part of this development: an [impresor] stands for
    these lines, given the details, the computed total, the total read and
    the verdict, and it raises when they do. *)
Definition impresor : Type :=
  list Detalle -> Dec.Decimal -> Dec.Decimal -> bool -> resultado unit.

(** The loop body of [procesar_lote_facturas] from the rows of the OCR
    engine on: the entry it appends, or the exception that leaves it. *)
Definition cuerpo_documento (mostrar : impresor) (data : list fila)
  : resultado Registro :=
  r <- reconocer_factura data ;;
  let '(ds, total, total_calculado) := r in
  match ds, total with
  | _ :: _, Some t =>
      es_coherente <- Dec.eq total_calculado t ;;
      hecho <- mostrar ds total_calculado t es_coherente ;;
      Ok (mk_registro (Some total_calculado) (Some t) es_coherente EmptyString)
  | _, _ =>
      Ok (mk_registro None None false "No se extrajeron detalles o total")
  end.

(** ** [procesar_lote_facturas] *)

(** [s.endswith(sufijo)]. *)
Definition termina_en (sufijo s : string) : bool :=
  let n := String.length s in
  let m := String.length sufijo in
  (m <=? n)%nat && String.eqb (substring (n - m) m s) sufijo.

(** The test of the comprehension that builds [archivos_imagen]. *)
Definition es_imagen (f : string) : bool :=
  let l := Str.lower f in
  termina_en ".png" l || termina_en ".jpg" l || termina_en ".jpeg" l
  || termina_en ".tiff" l.

(** The entry appended when the image cannot be read. *)
Definition no_leida : Registro :=
  mk_registro None None false "No se pudo leer la imagen".

(** The loop over [archivos_imagen].  [leer nombre] stands for
    [preprocesar_imagen] followed by [pytesseract.image_to_data]: [None]
    when [cv2.imread] gives [None], otherwise the rows of the OCR engine;
    the calls to the imaging libraries and to the file system, and the
    prints of fixed messages and file names, are taken to return.  An
    entry of [resultados] is paired with its 'Archivo'.  Nothing in the
    loop catches an exception. *)
Fixpoint procesar_archivos (leer : string -> option (list fila))
    (mostrar : impresor) (archivos_imagen : list string)
    (resultados : list (string * Registro))
  : resultado (list (string * Registro)) :=
  match archivos_imagen with
  | [] => Ok resultados
  | nombre_archivo :: resto =>
      match leer nombre_archivo with
      | None =>
          procesar_archivos leer mostrar resto
            (resultados ++ [(nombre_archivo, no_leida)])%list
      | Some data =>
          r <- cuerpo_documento mostrar data ;;
          procesar_archivos leer mostrar resto
            (resultados ++ [(nombre_archivo, r)])%list
      end
  end.

(** [existe] is [os.path.exists(RUTA_IMAGENES)] and [listado] is
    [os.listdir(RUTA_IMAGENES)].  The value is the list of entries written
    to the report, [None] when no report is written. *)
Definition procesar_lote_facturas (leer : string -> option (list fila))
    (mostrar : impresor) (existe : bool) (listado : list string)
  : resultado (option (list (string * Registro))) :=
  if negb existe then Ok None
  else
    resultados <-
      procesar_archivos leer mostrar (filter es_imagen listado) [] ;;
    Ok (if no_vacio resultados then Some resultados else None).

(** * Statements

    The notions the properties are stated with, and the sample documents
    they are tried on. *)

(** The walk as section 4.3 words it: [abierta] is the open line and
    [anterior] the word appended last. *)
Fixpoint cortar_desde (abierta : list palabra) (anterior : palabra)
    (ws : list palabra) : list (list palabra) :=
  match ws with
  | [] => [abierta]
  | x :: r =>
      if Z.abs (p_top x - p_top anterior) <? 20
      then cortar_desde (abierta ++ [x])%list x r
      else abierta :: cortar_desde [x] x r
  end.

Definition cortar (ws : list palabra) : list (list palabra) :=
  match ws with
  | [] => []
  | x :: r => cortar_desde [x] x r
  end.

(** Consecutive words of a line are less than 20 pixels apart. *)
Fixpoint cercanas (l : list palabra) : Prop :=
  match l with
  | [] => True
  | a :: r =>
      match r with
      | [] => True
      | b :: _ => Z.abs (p_top b - p_top a) < 20 /\ cercanas r
      end
  end.

(** A line ends where the next word is 20 pixels or more away. *)
Fixpoint separadas (ls : list (list palabra)) : Prop :=
  match ls with
  | [] => True
  | l1 :: rest =>
      match rest with
      | [] => True
      | l2 :: _ =>
          (forall a b, ultimo l1 = Some a -> head l2 = Some b ->
                       20 <= Z.abs (p_top b - p_top a))
          /\ separadas rest
      end
  end.

(** While the header is sought nothing has been recorded yet. *)
Definition sin_encabezado (v : Vars) : Prop :=
  estado v = buscando_columnas -> v = vars_iniciales.

(** What one alias finds on a line: the left of the first word that
    contains it. *)
Definition alias_hallado (texto : string) (linea : list palabra)
    (alias : string) : option Z :=
  if Str.contains alias texto
  then option_map p_left (palabra_con alias linea)
  else None.

(** The last alias of the list that finds a word decides. *)
Fixpoint ultima_ancla (texto : string) (linea : list palabra)
    (aliases : list string) : option Z :=
  match aliases with
  | [] => None
  | a :: r =>
      match ultima_ancla texto linea r with
      | Some z => Some z
      | None => alias_hallado texto linea a
      end
  end.

Definition aliases_de (c : Columna) : list string :=
  match dict_get columna_eqb MAPEO_COLUMNAS c with
  | Some l => l
  | None => []
  end.

Definition encabezado_producto : list palabra :=
  [ mk_palabra "Cant" 10 100 40 12;
    mk_palabra "Descripción" 100 100 90 12;
    mk_palabra "del" 195 100 25 12;
    mk_palabra "producto" 225 100 70 12;
    mk_palabra "Importe" 400 100 60 12 ].

Definition linea_tornillo : list palabra :=
  [ mk_palabra "2" 12 130 10 12;
    mk_palabra "Tornillo" 230 130 60 12;
    mk_palabra "21,00" 401 130 40 12 ].

Definition linea_total_21 : list palabra :=
  [ mk_palabra "Total" 300 200 40 12; mk_palabra "21,00" 400 200 40 12 ].

Definition linea_gracias : list palabra :=
  [ mk_palabra "Gracias" 10 260 60 12; mk_palabra "por" 80 260 30 12;
    mk_palabra "su" 115 260 20 12; mk_palabra "compra" 140 260 60 12 ].

(** The keys of [columnas] follow the order of the column table and are
    below [n]. *)
Definition ordenadas (n : Z) (cols : list (Columna * Z)) : Prop :=
  StronglySorted (fun a b => orden (fst a) < orden (fst b)) cols
  /\ Forall (fun a => orden (fst a) < n) cols.

Definition distancia (p : palabra) (pos_col : Z) : Z :=
  Z.abs (p_left p - pos_col).

(** The texts of the words of [linea] whose nearest anchor is [c], from
    left to right. *)
Definition es_cercana (cols : list (Columna * Z)) (c : Columna)
    (p : palabra) : bool :=
  match columna_cercana cols p with
  | Ok c1 => columna_eqb c c1
  | Raise _ => false
  end.

Definition textos_cercanos (cols : list (Columna * Z)) (c : Columna)
    (linea : list palabra) : list string :=
  map p_text (filter (es_cercana cols c) linea).

Definition descripcion_de (dl : list (Columna * list string)) : string :=
  Str.join " " (match dict_get columna_eqb dl Descripcion with
                | Some l => l
                | None => []
                end).

Definition encabezado_completo : list palabra :=
  [ mk_palabra "Cant" 10 100 40 12;
    mk_palabra "Descripción" 100 100 90 12;
    mk_palabra "P.Unit" 300 100 50 12;
    mk_palabra "Importe" 400 100 60 12 ].

Definition con_encabezado : Vars :=
  mk_vars [] None
    [(Cant, 10); (Descripcion, 100); (PUnit, 300); (Importe, 400)]
    extrayendo_detalles.

Definition fila_detalle (cant : option string) (desc : string)
    (punit : option string) (importe : string) : list palabra :=
  ((match cant with Some t => [mk_palabra t 12 130 10 12] | None => [] end)
   ++ [mk_palabra desc 105 130 60 12]
   ++ (match punit with Some t => [mk_palabra t 298 130 40 12] | None => [] end)
   ++ [mk_palabra importe 401 130 40 12])%list.

(** The exact sum of section 4.7: a coefficient [V] at an exponent [e],
    for the number [V * 10^e]; the exponent is the least one met. *)
Fixpoint exacta_desde (V e : Z) (l : list Dec.Decimal) : Z * Z :=
  match l with
  | [] => (V, e)
  | d :: r =>
      let e1 := Z.min e (Dec.exponent d) in
      exacta_desde (V * 10 ^ (e - e1) + Dec.scaled e1 d) e1 r
  end.

Definition suma_exacta (l : list Dec.Decimal) : Z * Z := exacta_desde 0 0 l.

(** Every amount is a finite number and every partial sum is within the
    28 digits and the exponent range of the default context. *)
Fixpoint cabe_desde (V e : Z) (l : list Dec.Decimal) : Prop :=
  match l with
  | [] => True
  | d :: r =>
      let e1 := Z.min e (Dec.exponent d) in
      let V1 := V * 10 ^ (e - e1) + Dec.scaled e1 d in
      Dec.is_finite d = true
      /\ Dec.exponent d <= Dec.Emax - 27
      /\ Dec.Etiny <= e1
      /\ Z.abs V1 < 10 ^ 28
      /\ cabe_desde V1 e1 r
  end.

Definition cabe (l : list Dec.Decimal) : Prop := cabe_desde 0 0 l.

Definition no_resuelto : Registro :=
  mk_registro None None false "No se extrajeron detalles o total".

Definition ocr (t : string) (l tp : Z) : fila := mk_fila t 90 l tp 40 12.

Definition factura_29_digitos : list fila :=
  [ ocr "Descripción" 100 100; ocr "Importe" 400 100;
    ocr "Tornillo" 105 130; ocr "10000000000000000000000000001" 401 130;
    ocr "Total" 300 200; ocr "10000000000000000000000000001" 400 200 ].

Definition factura_sin_detalles : list fila :=
  [ ocr "Descripción" 100 100; ocr "Importe" 400 100;
    ocr "Total" 300 200; ocr "0,00" 400 200 ].

Definition factura_tornillo (total : string) : list fila :=
  [ ocr "Cant" 10 100; ocr "Descripción" 100 100; ocr "P.Unit" 300 100;
    ocr "Importe" 400 100;
    ocr "2" 12 130; ocr "Tornillo" 105 131; ocr "10,50" 298 130;
    ocr "21,00" 401 130;
    mk_fila "ruido" 55 200 130 40 12;
    ocr "Total" 300 200; ocr total 400 200 ].

(** The states in the order in which they are entered. *)
Definition rango (e : Estado) : Z :=
  match e with
  | buscando_columnas => 0
  | extrayendo_detalles => 1
  | buscando_total => 2
  end.

(** A total has been recorded exactly in the state that follows a total
    line. *)
Definition total_hallado (v : Vars) : Prop :=
  total_factura v <> None <-> estado v = buscando_total.

(** The texts of all the words of the lines. *)
Definition textos_de (lineas : list (list palabra)) : list string :=
  map p_text (List.concat lineas).

(** Every character of [s] passes the test [P]. *)
Fixpoint todos (P : ascii -> bool) (s : string) : bool :=
  match s with
  | EmptyString => true
  | String c r => P c && todos P r
  end.

Definition distinto (c : ascii) (x : ascii) : bool := negb (Ascii.eqb x c).

Definition digito_o_punto (c : ascii) : bool :=
  Str.is_digit c || Ascii.eqb c ".".

(** The number of places where two consecutive words are 20 pixels or
    more apart. *)
Fixpoint saltos (ws : list palabra) : nat :=
  match ws with
  | [] => O
  | a :: r =>
      match r with
      | [] => O
      | b :: _ =>
          if Z.abs (p_top b - p_top a) <? 20 then saltos r
          else S (saltos r)
      end
  end.

(** The least exponent of the amounts of [l], and of [e]. *)
Definition minimo (e : Z) (l : list Dec.Decimal) : Z :=
  fold_right (fun d m => Z.min (Dec.exponent d) m) e l.

(** The sum of the amounts of [l] as a multiple of [10^m]. *)
Definition suma_escalada (m : Z) (l : list Dec.Decimal) : Z :=
  fold_right (fun d a => Dec.scaled m d + a) 0 l.

(** The entry that the loop of the batch appends for a file. *)
Definition entrada_de (leer : string -> option (list fila))
    (mostrar : impresor) (nombre : string) (fr : string * Registro)
  : Prop :=
  fst fr = nombre
  /\ match leer nombre with
     | None => snd fr = no_leida
     | Some data => cuerpo_documento mostrar data = Ok (snd fr)
     end.

Definition leer_ejemplo (nombre : string) : option (list fila) :=
  if String.eqb nombre "a.PNG" then Some (factura_tornillo "21,00")
  else if String.eqb nombre "b.jpg"
  then Some [ ocr "Cant" 10 100; ocr "Descripción" 100 100;
              ocr "Importe" 400 100;
              ocr "inf" 12 130; ocr "Tornillo" 105 130; ocr "21,00" 401 130 ]
  else None.

(** Two sample printers: one that shows every result, and one that fails
    on a unit price that is a signalling NaN. *)
Definition mostrar_todo : impresor := fun _ _ _ _ => Ok tt.

Definition precio_senalizado (d : Detalle) : bool :=
  match d_PUnit d with
  | Some (Dec.DNaN _ true _) => true
  | _ => false
  end.

Definition mostrar_estricto : impresor :=
  fun ds _ _ _ =>
    if existsb precio_senalizado ds then Raise InvalidOperation else Ok tt.

(** A document whose only detail line has [sNaN] in the unit price
    column. *)
Definition factura_precio_snan : list fila :=
  [ ocr "Descripción" 100 100; ocr "P.Unit" 300 100; ocr "Importe" 400 100;
    ocr "Tornillo" 105 130; ocr "sNaN" 301 130; ocr "21,00" 401 130;
    ocr "Total" 100 160; ocr "21,00" 401 160 ].

(** A word that is a no-break space, U+00A0. *)
Definition nbsp : string :=
  String (ascii_of_N 194) (String (ascii_of_N 160) EmptyString).

(** What a line that is read without an exception can have done. *)
Inductive efecto (v : Vars) (linea : list palabra) (v' : Vars) : Prop :=
| ef_nada : v' = v -> efecto v linea v'
| ef_encabezado :
    estado v = buscando_columnas ->
    snd (detectar_columnas (texto_de linea) linea (columnas v)) = true ->
    v' = mk_vars (detalles v) (total_factura v)
           (fst (detectar_columnas (texto_de linea) linea (columnas v)))
           extrayendo_detalles ->
    efecto v linea v'
| ef_total (m : Dec.Decimal) :
    estado v <> buscando_columnas ->
    Str.contains "total" (texto_de linea) = true ->
    ultimo (montos_en_linea linea) = Some m ->
    v' = mk_vars (detalles v) (Some m) (columnas v) buscando_total ->
    efecto v linea v'
| ef_detalle (dl : list (Columna * list string)) (d : Detalle) :
    estado v = extrayendo_detalles ->
    columnas v <> [] ->
    algun_alias (texto_de linea) = false ->
    asignar (columnas v) linea = Ok dl ->
    consolidar dl = Ok (Some d) ->
    v' = mk_vars (detalles v ++ [d])%list (total_factura v) (columnas v)
           (estado v) ->
    efecto v linea v'.

Definition hallada (o : option Z) : bool :=
  match o with Some _ => true | None => false end.

(** A character of one byte that is not whitespace. *)
Definition sin_espacio (c : ascii) : bool :=
  negb (Str.is_space c) && (Str.code c <? 128)%N.

(** * Properties *)

(** ** The sorts *)

Section OrdenCorrecto.
Context {A : Type} (leb : A -> A -> bool).
Hypothesis leb_total : forall a b, leb a b = false -> leb b a = true.
Hypothesis leb_trans :
  forall a b c, leb a b = true -> leb b c = true -> leb a c = true.

Let R (a b : A) : Prop := leb a b = true.

Lemma insertar_perm (x : A) (l : list A) :
  Permutation (insertar leb x l) (x :: l).
Proof.
  induction l as [|y r IH]; simpl; [reflexivity|].
  destruct (leb x y); [reflexivity|].
  rewrite IH. apply perm_swap.
Qed.

Lemma ordenar_perm (l : list A) : Permutation (ordenar leb l) l.
Proof.
  induction l as [|x r IH]; simpl; [reflexivity|].
  rewrite insertar_perm. now constructor.
Qed.

Lemma insertar_sorted (x : A) (l : list A) :
  StronglySorted R l -> StronglySorted R (insertar leb x l).
Proof.
  induction 1 as [|y r Hr IH Hy]; simpl.
  - repeat constructor.
  - destruct (leb x y) eqn:E.
    + constructor; [now constructor|].
      constructor; [exact E|].
      eapply Forall_impl; [|exact Hy].
      intros z Hz. unfold R in *. eauto.
    + constructor; [exact IH|].
      eapply Permutation_Forall; [symmetry; apply insertar_perm|].
      constructor; [now apply leb_total | exact Hy].
Qed.

Lemma ordenar_sorted (l : list A) : StronglySorted R (ordenar leb l).
Proof.
  induction l as [|x r IH]; simpl; [constructor|].
  now apply insertar_sorted.
Qed.

(** A list that is already in order is left as it is: equal keys keep
    their places. *)
Lemma ordenar_ordenada (l : list A) :
  StronglySorted R l -> ordenar leb l = l.
Proof.
  induction 1 as [|x r Hr IH Hx]; simpl; [reflexivity|].
  rewrite IH. destruct r as [|y r']; [reflexivity|].
  simpl. apply Forall_inv in Hx. unfold R in Hx. now rewrite Hx.
Qed.

Lemma ordenar_In (l : list A) (x : A) : In x (ordenar leb l) <-> In x l.
Proof.
  split; apply Permutation_in;
    [apply ordenar_perm | symmetry; apply ordenar_perm].
Qed.
End OrdenCorrecto.

Lemma leb_top_left_total a b :
  leb_top_left a b = false -> leb_top_left b a = true.
Proof. unfold leb_top_left. lia. Qed.

Lemma leb_top_left_trans a b c :
  leb_top_left a b = true -> leb_top_left b c = true ->
  leb_top_left a c = true.
Proof. unfold leb_top_left. lia. Qed.

Lemma leb_left_total a b : leb_left a b = false -> leb_left b a = true.
Proof. unfold leb_left. lia. Qed.

Lemma leb_left_trans a b c :
  leb_left a b = true -> leb_left b c = true -> leb_left a c = true.
Proof. unfold leb_left. lia. Qed.

Lemma leb_top_left_top a b : leb_top_left a b = true -> p_top a <= p_top b.
Proof. unfold leb_top_left. lia. Qed.

(** ** The line grouper *)

Lemma last_app_1 {A : Type} (l : list A) (x d : A) :
  last (l ++ [x])%list d = x.
Proof. apply last_last. Qed.

Lemma last_default {A : Type} (l : list A) (d1 d2 : A) :
  l <> [] -> last l d1 = last l d2.
Proof.
  induction l as [|a r IH]; [congruence|]. intros _.
  destruct r as [|b r']; [reflexivity|].
  change (last (b :: r') d1 = last (b :: r') d2). apply IH. discriminate.
Qed.

Lemma agrupar_fold (ws : list palabra) :
  forall lineas abierta d,
    abierta <> [] ->
    (let '(ls, la) := fold_left agrupar_paso ws (lineas, abierta) in
     (ls ++ [ordenar leb_left la])%list)
    = (lineas ++ map (ordenar leb_left)
                   (cortar_desde abierta (last abierta d) ws))%list.
Proof.
  induction ws as [|x r IH]; intros lineas abierta d Hne; simpl.
  - reflexivity.
  - rewrite (last_default abierta x d Hne).
    destruct (Z.abs (p_top x - p_top (last abierta d)) <? 20).
    + rewrite (IH lineas (abierta ++ [x])%list d).
      * now rewrite last_app_1.
      * now destruct abierta.
    + rewrite (IH (lineas ++ [ordenar leb_left abierta])%list [x] x)
        by discriminate.
      simpl. now rewrite <- app_assoc.
Qed.

(** The loop of the source computes the walk of section 4.3. *)
Lemma agrupar_cortar (ws : list palabra) :
  agrupar ws = map (ordenar leb_left) (cortar ws).
Proof.
  destruct ws as [|x r]; [reflexivity|].
  unfold agrupar, cortar.
  exact (agrupar_fold r [] [x] x ltac:(discriminate)).
Qed.

Lemma concat_cortar_desde (ws abierta : list palabra) (anterior : palabra) :
  List.concat (cortar_desde abierta anterior ws) = (abierta ++ ws)%list.
Proof.
  revert abierta anterior.
  induction ws as [|x r IH]; intros abierta anterior; simpl.
  - now rewrite app_nil_r.
  - destruct (Z.abs (p_top x - p_top anterior) <? 20); simpl.
    + rewrite IH. now rewrite <- app_assoc.
    + now rewrite IH.
Qed.

Lemma concat_cortar (ws : list palabra) : List.concat (cortar ws) = ws.
Proof.
  destruct ws as [|x r]; [reflexivity|].
  unfold cortar. now rewrite concat_cortar_desde.
Qed.

Lemma cercanas_app (l : list palabra) (x : palabra) (d : palabra) :
  l <> [] -> cercanas l -> Z.abs (p_top x - p_top (last l d)) < 20 ->
  cercanas (l ++ [x])%list.
Proof.
  induction l as [|a r IH]; [congruence|]. intros _ Hc Hx.
  destruct r as [|b r'].
  - simpl in *. auto.
  - change (cercanas (a :: (b :: r') ++ [x])%list).
    destruct Hc as [Hab Hc].
    change (Z.abs (p_top b - p_top a) < 20 /\ cercanas ((b :: r') ++ [x])%list).
    split; [exact Hab|]. apply IH; [discriminate|exact Hc|exact Hx].
Qed.

Lemma cortar_desde_props (ws : list palabra) :
  forall abierta anterior,
    abierta <> [] -> last abierta anterior = anterior -> cercanas abierta ->
    Forall (fun l => l <> [] /\ cercanas l) (cortar_desde abierta anterior ws)
    /\ separadas (cortar_desde abierta anterior ws)
    /\ exists l0 rest, cortar_desde abierta anterior ws = l0 :: rest
                       /\ head l0 = head abierta.
Proof.
  induction ws as [|x r IH]; intros abierta anterior Hne Hlast Hc; simpl.
  - repeat split; [repeat constructor; assumption|].
    now exists abierta, [].
  - destruct (Z.abs (p_top x - p_top anterior) <? 20) eqn:E.
    + destruct (IH (abierta ++ [x])%list x) as (H1 & H2 & l0 & rest & E0 & Hh).
      * now destruct abierta.
      * apply last_app_1.
      * apply (cercanas_app abierta x anterior Hne Hc).
        rewrite Hlast. lia.
      * repeat split; try assumption.
        exists l0, rest. split; [exact E0|].
        rewrite Hh. now destruct abierta.
    + destruct (IH [x] x) as (H1 & H2 & l0 & rest & E0 & Hh);
        [discriminate|reflexivity|exact I|].
      repeat split.
      * constructor; [now split|exact H1].
      * rewrite E0 in *. split; [|exact H2].
        intros a b Ha Hb. simpl in Hh. rewrite Hh in Hb.
        injection Hb as <-.
        destruct abierta as [|a0 r0]; [congruence|].
        simpl in Ha. injection Ha as <-.
        change (last (a0 :: r0) anterior = anterior) in Hlast.
        assert (last r0 a0 = anterior) as ->.
        { rewrite <- Hlast. clear. revert a0.
          induction r0 as [|b r1 IH1]; intros a0; [reflexivity|].
          change (last (b :: r1) a0 = last (b :: r1) anterior).
          apply last_default. discriminate. }
        lia.
      * now exists abierta, (cortar_desde [x] x r).
Qed.

Lemma StronglySorted_app_inv {A : Type} (R : A -> A -> Prop) (l m : list A) :
  StronglySorted R (l ++ m)%list ->
  (forall a b, In a l -> In b m -> R a b) /\ StronglySorted R m.
Proof.
  induction l as [|x r IH]; simpl; intros H.
  - split; [contradiction|exact H].
  - apply StronglySorted_inv in H. destruct H as [Hs Hx].
    destruct (IH Hs) as [H1 H2]. split; [|exact H2].
    intros a b [<-|Ha] Hb.
    + rewrite Forall_forall in Hx. apply Hx, in_or_app. now right.
    + now apply H1.
Qed.

Lemma sorted_concat_pairs {A : Type} (R : A -> A -> Prop)
    (ls : list (list A)) :
  StronglySorted R (List.concat ls) ->
  ForallOrdPairs (fun l1 l2 => forall a b, In a l1 -> In b l2 -> R a b) ls.
Proof.
  induction ls as [|l rest IH]; simpl; intros H; [constructor|].
  apply StronglySorted_app_inv in H. destruct H as [H1 H2].
  constructor; [|now apply IH].
  rewrite Forall_forall. intros l2 Hl2 a b Ha Hb.
  apply H1; [exact Ha|]. apply in_concat. now exists l2.
Qed.

Lemma ForallOrdPairs_map {A B : Type} (f : A -> B) (P : B -> B -> Prop)
    (l : list A) :
  ForallOrdPairs (fun a b => P (f a) (f b)) l -> ForallOrdPairs P (map f l).
Proof.
  induction 1 as [|a r Ha Hr IH]; simpl; constructor; [|exact IH].
  now rewrite Forall_map.
Qed.

Lemma lineas_de_In (data : list fila) (linea : list palabra) (p : palabra) :
  In linea (lineas_de data) -> In p linea -> In p (filtrar data).
Proof.
  unfold lineas_de. rewrite agrupar_cortar. intros Hl Hp.
  apply in_map_iff in Hl. destruct Hl as (chunk & <- & Hc).
  rewrite (ordenar_In leb_left) in Hp.
  rewrite <- (ordenar_In leb_top_left).
  rewrite <- (concat_cortar (ordenar leb_top_left (filtrar data))).
  apply in_concat. exists chunk. now split.
Qed.

Lemma cortar_props (ws : list palabra) :
  Forall (fun l => l <> [] /\ cercanas l) (cortar ws) /\ separadas (cortar ws).
Proof.
  destruct ws as [|x r]; [split; constructor|].
  destruct (cortar_desde_props r [x] x) as (H1 & H2 & _);
    [discriminate|reflexivity|exact I|].
  now split.
Qed.

(** C7: the line grouper sorts the filtered words by (top, left), cuts the
    sorted sequence wherever a word is 20 pixels or more from the word
    appended before it, sorts each line by left, and so emits the lines
    from top to bottom with their words from left to right. *)
Theorem C7_line_grouper (data : list fila) :
  let palabras := ordenar leb_top_left (filtrar data) in
  Permutation palabras (filtrar data)
  /\ StronglySorted
       (fun a b => p_top a < p_top b
                   \/ (p_top a = p_top b /\ p_left a <= p_left b)) palabras
  /\ lineas_de data = map (ordenar leb_left) (cortar palabras)
  /\ List.concat (cortar palabras) = palabras
  /\ Forall (fun l => l <> [] /\ cercanas l) (cortar palabras)
  /\ separadas (cortar palabras)
  /\ Forall (fun linea =>
               StronglySorted (fun a b => p_left a <= p_left b) linea)
            (lineas_de data)
  /\ ForallOrdPairs
       (fun l1 l2 => forall a b, In a l1 -> In b l2 -> p_top a <= p_top b)
       (lineas_de data).
Proof.
  intros palabras.
  assert (Hs : StronglySorted (fun a b => leb_top_left a b = true) palabras)
    by (apply ordenar_sorted;
        [apply leb_top_left_total | apply leb_top_left_trans]).
  split; [apply ordenar_perm|].
  split.
  { eapply StronglySorted_ind with (P := StronglySorted _);
      [constructor| |exact Hs].
    intros a l _ IH Ha. constructor; [exact IH|].
    eapply Forall_impl; [|exact Ha].
    intros b Hb. unfold leb_top_left in Hb. lia. }
  split; [apply agrupar_cortar|].
  split; [apply concat_cortar|].
  destruct (cortar_props palabras) as [Hc Hsep].
  split; [exact Hc|]. split; [exact Hsep|].
  unfold lineas_de. fold palabras. rewrite agrupar_cortar.
  split.
  - rewrite Forall_map, Forall_forall. intros chunk _.
    pose proof (ordenar_sorted leb_left leb_left_total leb_left_trans chunk)
      as Hl.
    eapply StronglySorted_ind with (P := StronglySorted _);
      [constructor| |exact Hl].
    intros a l _ IH Ha. constructor; [exact IH|].
    eapply Forall_impl; [|exact Ha].
    intros b Hb. unfold leb_left in Hb. lia.
  - apply ForallOrdPairs_map.
    assert (Ht : StronglySorted (fun a b => p_top a <= p_top b)
                   (List.concat (cortar palabras))).
    { rewrite concat_cortar.
      eapply StronglySorted_ind with (P := StronglySorted _);
        [constructor| |exact Hs].
      intros a l _ IH Ha. constructor; [exact IH|].
      eapply Forall_impl; [|exact Ha].
      intros b Hb. now apply leb_top_left_top. }
    apply sorted_concat_pairs in Ht.
    eapply ForallOrdPairs_ind with (P := ForallOrdPairs _);
      [constructor| |exact Ht].
    intros c l Hc1 _ IH. constructor; [|exact IH].
    eapply Forall_impl; [|exact Hc1].
    intros c2 H a b Ha Hb.
    apply H; now apply (ordenar_In leb_left).
Qed.

(** ** The amount normaliser *)

Lemma remove_char_idem (c : ascii) (s : string) :
  Str.remove_char c (Str.remove_char c s) = Str.remove_char c s.
Proof.
  induction s as [|d s IH]; simpl; [reflexivity|].
  destruct (Ascii.eqb d c) eqn:E; [exact IH|].
  simpl. now rewrite E, IH.
Qed.

(** The recovery from a token with several commas: all segments but the
    last are joined. *)
Example normalizar_texto_ej : normalizar_texto "1,234,56" = "1234.56".
Proof. reflexivity. Qed.

(** C1: the literal tokens of the specification.  [DFin false 123456 (-2)]
    is 1234.56, and so on; the token "78.90" loses its point and becomes
    7890, because the points of a token never reach the parser. *)
Theorem C1_literal_amounts :
  normalizar_monto "1.234,56" = Some (Dec.DFin false 123456 (-2))
  /\ normalizar_monto "78,90" = Some (Dec.DFin false 7890 (-2))
  /\ normalizar_monto "1.234.567,89" = Some (Dec.DFin false 123456789 (-2))
  /\ normalizar_monto "78.90" = Some (Dec.DFin false 7890 0)
  /\ (forall s, normalizar_monto s = normalizar_monto (Str.remove_char "." s)).
Proof.
  repeat split; try reflexivity.
  intros s. unfold normalizar_monto, normalizar_texto.
  now rewrite remove_char_idem.
Qed.

(** ** The word filter *)

Lemma nonempty_true (s : string) : Str.nonempty s = true <-> s <> EmptyString.
Proof. destruct s; simpl; split; congruence. Qed.

Lemma filtrar_In (data : list fila) (p : palabra) :
  In p (filtrar data) <->
  exists f, In f data /\ aceptada f = true /\ p = palabra_de f.
Proof.
  induction data as [|f r IH]; simpl.
  - split; [contradiction|]. now intros (f & [] & _).
  - destruct (aceptada f) eqn:E; simpl; rewrite IH; split.
    + intros [<-|(g & Hg & Ha & ->)]; [now exists f; auto|].
      exists g; auto.
    + intros (g & [<-|Hg] & Ha & ->); [now left|].
      right. now exists g.
    + intros (g & Hg & Ha & ->). exists g; auto.
    + intros (g & [<-|Hg] & Ha & ->); [congruence|]. now exists g.
Qed.

Lemma filtrar_filter (data : list fila) :
  filtrar (filter aceptada data) = filtrar data.
Proof.
  induction data as [|f r IH]; simpl; [reflexivity|].
  destruct (aceptada f) eqn:E; simpl; [|exact IH].
  now rewrite E, IH.
Qed.

(** C9: a recognised word reaches the lines, and with them the anchors and
    the assignments, exactly when its stripped text is not empty and its
    confidence is above 60; the rows that fail the test have no effect on
    the result, and a confidence of 55 or of 60 fails it. *)
Theorem C9_word_filter (data : list fila) :
  (forall p, In p (filtrar data) <->
             exists f, In f data /\ Str.strip (f_text f) <> EmptyString
                       /\ 60 < f_conf f /\ p = palabra_de f)
  /\ (forall p, (exists linea, In linea (lineas_de data) /\ In p linea)
                <-> In p (filtrar data))
  /\ reconocer_factura data = reconocer_factura (filter aceptada data)
  /\ (forall f, f_conf f <= 60 -> aceptada f = false)
  /\ (forall f, Str.strip (f_text f) = EmptyString -> aceptada f = false).
Proof.
  split; [|split; [|split; [|split]]].
  - intros p. rewrite filtrar_In. unfold aceptada.
    split; intros (f & Hf & H); exists f; (split; [exact Hf|]).
    + destruct H as [H ->]. apply andb_true_iff in H.
      destruct H as [H1 H2]. apply nonempty_true in H1.
      repeat split; [exact H1|lia].
    + destruct H as (H1 & H2 & ->). split; [|reflexivity].
      apply andb_true_iff. split; [now apply nonempty_true|lia].
  - intros p. split.
    + intros (linea & Hl & Hp). eapply lineas_de_In; eassumption.
    + intros Hp. unfold lineas_de. rewrite agrupar_cortar.
      rewrite <- (ordenar_In leb_top_left) in Hp.
      rewrite <- (concat_cortar (ordenar leb_top_left (filtrar data))) in Hp.
      apply in_concat in Hp. destruct Hp as (chunk & Hc & Hp).
      exists (ordenar leb_left chunk). split.
      * now apply in_map.
      * now rewrite (ordenar_In leb_left).
  - unfold reconocer_factura, lineas_de. now rewrite filtrar_filter.
  - intros f Hf. unfold aceptada. apply andb_false_iff. right. lia.
  - intros f Hf. unfold aceptada. now rewrite Hf.
Qed.

(** [str.strip] on whitespace outside ASCII: a word that is a no-break
    space is empty once stripped, so it is rejected whatever its
    confidence, and a no-break space or an ideographic space around an
    amount is removed. *)
Example espacios_unicode :
  Str.strip nbsp = EmptyString
  /\ aceptada (mk_fila nbsp 90 10 10 5 5) = false
  /\ Str.strip ("21,00" ++ nbsp) = "21,00"
  /\ Str.strip (nbsp ++ " 21,00 "
                ++ String (ascii_of_N 227)
                     (String (ascii_of_N 128)
                        (String (ascii_of_N 128) EmptyString)))
     = "21,00"
  /\ Str.strip ("a" ++ nbsp ++ "b") = "a" ++ nbsp ++ "b"
  /\ filtrar [mk_fila ("21,00" ++ nbsp) 90 400 130 40 12]
     = [mk_palabra "21,00" 400 130 40 12].
Proof. vm_compute. repeat split. Qed.

(** ** The row classifier *)

Lemma columna_eqb_eq (a b : Columna) : columna_eqb a b = true <-> a = b.
Proof. destruct a, b; simpl; split; (discriminate || reflexivity). Qed.

Lemma columna_eqb_refl (a : Columna) : columna_eqb a a = true.
Proof. now apply columna_eqb_eq. Qed.

Lemma estado_eqb_eq (a b : Estado) : estado_eqb a b = true <-> a = b.
Proof. destruct a, b; simpl; split; (discriminate || reflexivity). Qed.

Lemma dict_get_set {V : Type} (d : list (Columna * V)) (k k' : Columna)
    (v : V) :
  dict_get columna_eqb (dict_set columna_eqb d k v) k'
  = if columna_eqb k' k then Some v else dict_get columna_eqb d k'.
Proof.
  induction d as [|[k1 v1] r IH]; simpl.
  - reflexivity.
  - destruct (columna_eqb k k1) eqn:E; simpl.
    + apply columna_eqb_eq in E. subst k1.
      now destruct (columna_eqb k' k).
    + destruct (columna_eqb k' k1) eqn:E1.
      * apply columna_eqb_eq in E1. subst k1.
        destruct (columna_eqb k' k) eqn:E2; [|reflexivity].
        apply columna_eqb_eq in E2. subst k'.
        now rewrite columna_eqb_refl in E.
      * exact IH.
Qed.

(** *** Detection writes [columnas] exactly when it sets [found_cols] *)

Lemma detectar_alias_found texto linea c st alias :
  snd st = true -> snd (detectar_alias texto linea c st alias) = true.
Proof.
  intros H. unfold detectar_alias.
  destruct (Str.contains alias texto); [|exact H].
  now destruct (palabra_con alias linea).
Qed.

Lemma detectar_alias_same texto linea c st alias :
  snd (detectar_alias texto linea c st alias) = false ->
  detectar_alias texto linea c st alias = st.
Proof.
  unfold detectar_alias.
  destruct (Str.contains alias texto); [|reflexivity].
  destruct (palabra_con alias linea); [discriminate|reflexivity].
Qed.

Lemma detectar_columna_found texto linea st entrada :
  snd st = true -> snd (detectar_columna texto linea st entrada) = true.
Proof.
  unfold detectar_columna. revert st.
  induction (snd entrada) as [|a r IH]; intros st H; simpl; [exact H|].
  apply IH. now apply detectar_alias_found.
Qed.

Lemma detectar_columna_same texto linea st entrada :
  snd (detectar_columna texto linea st entrada) = false ->
  detectar_columna texto linea st entrada = st.
Proof.
  unfold detectar_columna. revert st.
  induction (snd entrada) as [|a r IH]; intros st H; simpl in *;
    [reflexivity|].
  destruct (snd (detectar_alias texto linea (fst entrada) st a)) eqn:E.
  - pose proof (IH _ H) as H1. rewrite H1 in H. congruence.
  - rewrite (detectar_alias_same _ _ _ _ _ E) in *. now apply IH.
Qed.

Lemma fold_columnas_same texto linea (m : list (Columna * list string)) :
  forall st,
    snd (fold_left (detectar_columna texto linea) m st) = false ->
    fold_left (detectar_columna texto linea) m st = st.
Proof.
  induction m as [|e r IH]; intros st H; simpl in *; [reflexivity|].
  destruct (snd (detectar_columna texto linea st e)) eqn:E.
  - assert (snd (fold_left (detectar_columna texto linea) r
                   (detectar_columna texto linea st e)) = true) as H1.
    { clear H IH. revert E.
      generalize (detectar_columna texto linea st e) as st1.
      induction r as [|e1 r1 IH1]; intros st1 E; simpl; [exact E|].
      apply IH1. now apply detectar_columna_found. }
    congruence.
  - rewrite (detectar_columna_same _ _ _ _ E) in *. now apply IH.
Qed.

Lemma detectar_columnas_same texto linea cols :
  snd (detectar_columnas texto linea cols) = false ->
  fst (detectar_columnas texto linea cols) = cols.
Proof.
  unfold detectar_columnas. intros H.
  now rewrite (fold_columnas_same _ _ _ _ H).
Qed.

(** *** What one line does in each state *)

Lemma paso_detalles_no_extrayendo (v : Vars) (linea : list palabra) :
  estado v <> extrayendo_detalles -> paso_detalles v linea = Ok v.
Proof.
  intros H. unfold paso_detalles.
  destruct (estado_eqb (estado v) extrayendo_detalles) eqn:E;
    [|reflexivity].
  now apply estado_eqb_eq in E.
Qed.

Lemma paso_buscando (v : Vars) (linea : list palabra) :
  estado v = buscando_columnas ->
  paso v linea = Ok v
  \/ (snd (detectar_columnas (texto_de linea) linea (columnas v)) = true
      /\ paso v linea
         = Ok (mk_vars (detalles v) (total_factura v)
                 (fst (detectar_columnas (texto_de linea) linea (columnas v)))
                 extrayendo_detalles)).
Proof.
  intros Hs. unfold paso. rewrite Hs. simpl.
  destruct (detectar_columnas (texto_de linea) linea (columnas v))
    as [cols found] eqn:E.
  destruct found; [right; now split|left].
  assert (cols = columnas v) as ->.
  { change cols with (fst (cols, false)). rewrite <- E.
    apply detectar_columnas_same. now rewrite E. }
  unfold paso_total. simpl. rewrite andb_false_r.
  rewrite paso_detalles_no_extrayendo by (simpl; congruence).
  destruct v; simpl in *; now subst.
Qed.

Lemma paso_resto (v : Vars) (linea : list palabra) :
  estado v <> buscando_columnas -> paso v linea = paso_total v linea.
Proof.
  intros H. unfold paso.
  destruct (estado_eqb (estado v) buscando_columnas) eqn:E; [|reflexivity].
  now apply estado_eqb_eq in E.
Qed.

Lemma extraer_detalle_inv (v v' : Vars) (linea : list palabra) :
  extraer_detalle v linea = Ok v' ->
  total_factura v' = total_factura v /\ columnas v' = columnas v
  /\ estado v' = estado v
  /\ (detalles v' = detalles v
      \/ exists d, detalles v' = (detalles v ++ [d])%list).
Proof.
  unfold extraer_detalle.
  destruct (asignar (columnas v) linea) as [dl|e]; simpl; [|discriminate].
  destruct (consolidar dl) as [[d|]|e].
  - intros [= <-]. simpl. repeat split; eauto.
  - intros [= <-]. auto.
  - destruct (atrapada e); [|discriminate]. intros [= <-]. auto.
Qed.

Lemma paso_detalles_inv (v v' : Vars) (linea : list palabra) :
  paso_detalles v linea = Ok v' ->
  total_factura v' = total_factura v /\ columnas v' = columnas v
  /\ estado v' = estado v
  /\ (detalles v' = detalles v
      \/ exists d, detalles v' = (detalles v ++ [d])%list).
Proof.
  unfold paso_detalles.
  destruct (estado_eqb (estado v) extrayendo_detalles && no_vacio (columnas v)).
  - destruct (algun_alias (texto_de linea)).
    + intros [= <-]. auto.
    + apply extraer_detalle_inv.
  - intros [= <-]. auto.
Qed.

Lemma paso_total_inv (v v' : Vars) (linea : list palabra) :
  estado v <> buscando_columnas ->
  paso_total v linea = Ok v' ->
  columnas v' = columnas v /\ estado v' <> buscando_columnas.
Proof.
  intros Hs. unfold paso_total.
  destruct (Str.contains "total" (texto_de linea)
            && negb (estado_eqb (estado v) buscando_columnas)).
  - destruct (ultimo (montos_en_linea linea)).
    + intros [= <-]. simpl. split; [reflexivity|discriminate].
    + intros H. apply paso_detalles_inv in H.
      destruct H as (_ & H1 & H2 & _). rewrite H1, H2. now split.
  - intros H. apply paso_detalles_inv in H.
    destruct H as (_ & H1 & H2 & _). rewrite H1, H2. now split.
Qed.

Lemma recorrer_app (v : Vars) (l1 l2 : list (list palabra)) :
  recorrer v (l1 ++ l2)%list = (v1 <- recorrer v l1 ;; recorrer v1 l2).
Proof.
  revert v. induction l1 as [|x r IH]; intros v; simpl; [reflexivity|].
  destruct (paso v x); simpl; [apply IH|reflexivity].
Qed.

(** After the header line the anchors are never written again. *)
Lemma recorrer_columnas (lineas : list (list palabra)) :
  forall v v',
    estado v <> buscando_columnas -> recorrer v lineas = Ok v' ->
    columnas v' = columnas v /\ estado v' <> buscando_columnas.
Proof.
  induction lineas as [|x r IH]; intros v v' Hs; simpl.
  - intros [= <-]. now split.
  - destruct (paso v x) as [v1|e] eqn:E; simpl; [|discriminate].
    rewrite paso_resto in E by exact Hs.
    apply paso_total_inv in E; [|exact Hs]. destruct E as [E1 E2].
    intros H. apply IH in H; [|exact E2]. destruct H as [H1 H2].
    split; [congruence|exact H2].
Qed.

Lemma paso_sin_encabezado (v v' : Vars) (linea : list palabra) :
  sin_encabezado v -> paso v linea = Ok v' -> sin_encabezado v'.
Proof.
  intros Hi H Hs'.
  destruct (estado v) eqn:Hs.
  - destruct (paso_buscando v linea Hs) as [E|[_ E]]; rewrite E in H.
    + injection H as <-. now apply Hi.
    + injection H as <-. discriminate.
  - rewrite paso_resto in H by congruence.
    apply paso_total_inv in H; [|congruence]. now destruct H.
  - rewrite paso_resto in H by congruence.
    apply paso_total_inv in H; [|congruence]. now destruct H.
Qed.

Lemma recorrer_sin_encabezado (lineas : list (list palabra)) :
  forall v v',
    sin_encabezado v -> recorrer v lineas = Ok v' -> sin_encabezado v'.
Proof.
  induction lineas as [|x r IH]; intros v v' Hi; simpl.
  - now intros [= <-].
  - destruct (paso v x) as [v1|e] eqn:E; simpl; [|discriminate].
    apply IH. eapply paso_sin_encabezado; eassumption.
Qed.

(** *** Once a total has been found *)

Lemma paso_buscando_total (v : Vars) (linea : list palabra) :
  estado v = buscando_total ->
  paso v linea
  = Ok (if Str.contains "total" (texto_de linea)
        then match ultimo (montos_en_linea linea) with
             | Some m =>
                 mk_vars (detalles v) (Some m) (columnas v) buscando_total
             | None => v
             end
        else v).
Proof.
  intros Hs. rewrite paso_resto by congruence.
  unfold paso_total. rewrite Hs. simpl. rewrite andb_true_r.
  rewrite paso_detalles_no_extrayendo by congruence.
  destruct (Str.contains "total" (texto_de linea)); [|reflexivity].
  now destruct (ultimo (montos_en_linea linea)).
Qed.

Lemma recorrer_buscando_total (lineas : list (list palabra)) :
  forall v,
    estado v = buscando_total ->
    exists v', recorrer v lineas = Ok v'
               /\ detalles v' = detalles v /\ columnas v' = columnas v
               /\ estado v' = buscando_total.
Proof.
  induction lineas as [|x r IH]; intros v Hs; simpl.
  - now exists v.
  - rewrite (paso_buscando_total v x Hs). simpl.
    destruct (Str.contains "total" (texto_de x)); [|now apply IH].
    destruct (ultimo (montos_en_linea x)) as [m|]; [|now apply IH].
    destruct (IH (mk_vars (detalles v) (Some m) (columnas v) buscando_total)
                eq_refl) as (v' & H1 & H2 & H3 & H4).
    now exists v'.
Qed.

Lemma recorrer_sin_mas_totales (lineas : list (list palabra)) :
  forall v,
    estado v = buscando_total ->
    (forall l, In l lineas -> Str.contains "total" (texto_de l) = true ->
               montos_en_linea l = []) ->
    recorrer v lineas = Ok v.
Proof.
  induction lineas as [|x r IH]; intros v Hs Hn; simpl; [reflexivity|].
  rewrite (paso_buscando_total v x Hs). simpl.
  destruct (Str.contains "total" (texto_de x)) eqn:E.
  - rewrite (Hn x (or_introl eq_refl) E). simpl.
    apply IH; [exact Hs|]. intros l Hl. apply Hn. now right.
  - apply IH; [exact Hs|]. intros l Hl. apply Hn. now right.
Qed.

Lemma montos_en_linea_app (l1 l2 : list palabra) :
  montos_en_linea (l1 ++ l2)%list
  = (montos_en_linea l1 ++ montos_en_linea l2)%list.
Proof.
  induction l1 as [|p r IH]; simpl; [reflexivity|].
  destruct (normalizar_monto (p_text p)); simpl; now rewrite IH.
Qed.

Lemma montos_en_linea_nil (l : list palabra) :
  Forall (fun q => normalizar_monto (p_text q) = None) l ->
  montos_en_linea l = [].
Proof.
  induction 1 as [|q r Hq _ IH]; simpl; [reflexivity|]. now rewrite Hq.
Qed.

Lemma ultimo_app_1 {A : Type} (l : list A) (x : A) :
  ultimo (l ++ [x])%list = Some x.
Proof.
  destruct l as [|a r]; [reflexivity|].
  simpl. f_equal. apply last_last.
Qed.

(** The last amount of a line is the amount of its last word that parses. *)
Lemma ultimo_monto (l1 l2 : list palabra) (p : palabra) (m : Dec.Decimal) :
  normalizar_monto (p_text p) = Some m ->
  Forall (fun q => normalizar_monto (p_text q) = None) l2 ->
  ultimo (montos_en_linea (l1 ++ p :: l2)%list) = Some m.
Proof.
  intros Hp Hl2. rewrite montos_en_linea_app. simpl. rewrite Hp.
  rewrite (montos_en_linea_nil l2 Hl2). apply ultimo_app_1.
Qed.

(** C4: once the header has been consumed, a line whose lower-cased text
    contains "total" and that has a word the normaliser parses sets the
    total to the amount of its last such word, whatever the total was, and
    is consumed; when no later line is such a line, that amount is the
    total of the document. *)
Theorem C4_total_line (pre post : list (list palabra))
    (l1 l2 : list palabra) (p : palabra) (v1 : Vars) (m : Dec.Decimal) :
  recorrer vars_iniciales pre = Ok v1 ->
  estado v1 <> buscando_columnas ->
  Str.contains "total" (texto_de (l1 ++ p :: l2)%list) = true ->
  normalizar_monto (p_text p) = Some m ->
  Forall (fun q => normalizar_monto (p_text q) = None) l2 ->
  (forall l, In l post -> Str.contains "total" (texto_de l) = true ->
             Forall (fun q => normalizar_monto (p_text q) = None) l) ->
  paso v1 (l1 ++ p :: l2)%list
  = Ok (mk_vars (detalles v1) (Some m) (columnas v1) buscando_total)
  /\ recorrer vars_iniciales (pre ++ (l1 ++ p :: l2)%list :: post)%list
     = Ok (mk_vars (detalles v1) (Some m) (columnas v1) buscando_total).
Proof.
  intros Hpre Hs Ht Hp Hl2 Hpost.
  assert (Hpaso : paso v1 (l1 ++ p :: l2)%list
                  = Ok (mk_vars (detalles v1) (Some m) (columnas v1)
                          buscando_total)).
  { rewrite paso_resto by exact Hs. unfold paso_total. rewrite Ht.
    destruct (estado_eqb (estado v1) buscando_columnas) eqn:E.
    - now apply estado_eqb_eq in E.
    - simpl. now rewrite (ultimo_monto l1 l2 p m Hp Hl2). }
  split; [exact Hpaso|].
  rewrite recorrer_app, Hpre. simpl. rewrite Hpaso. simpl.
  apply recorrer_sin_mas_totales; [reflexivity|].
  intros l Hl Hc. apply montos_en_linea_nil. now apply Hpost.
Qed.

(** C5, as the code has it: once a total line has been consumed, no line
    yields a line item any more; a line without the total sentinel leaves
    the variables as they are, and the rest of the document is read
    without adding a detail or touching an anchor. *)
Theorem C5_no_detail_after_total (v : Vars) (lineas : list (list palabra)) :
  estado v = buscando_total ->
  (forall linea, Str.contains "total" (texto_de linea) = false ->
                 paso v linea = Ok v)
  /\ exists v', recorrer v lineas = Ok v'
                /\ detalles v' = detalles v /\ columnas v' = columnas v
                /\ estado v' = buscando_total.
Proof.
  intros Hs. split.
  - intros linea Hl. rewrite (paso_buscando_total v linea Hs). now rewrite Hl.
  - now apply recorrer_buscando_total.
Qed.

(** ** The column detector *)

Lemma detectar_alias_get texto linea c st alias c' :
  dict_get columna_eqb (fst (detectar_alias texto linea c st alias)) c'
  = if columna_eqb c' c
    then match alias_hallado texto linea alias with
         | Some z => Some z
         | None => dict_get columna_eqb (fst st) c'
         end
    else dict_get columna_eqb (fst st) c'.
Proof.
  unfold detectar_alias, alias_hallado.
  destruct (Str.contains alias texto);
    [|now destruct (columna_eqb c' c)].
  destruct (palabra_con alias linea) as [p|]; simpl;
    [|now destruct (columna_eqb c' c)].
  apply dict_get_set.
Qed.

Lemma detectar_columna_get texto linea c aliases c' :
  forall st,
    dict_get columna_eqb
      (fst (detectar_columna texto linea st (c, aliases))) c'
    = if columna_eqb c' c
      then match ultima_ancla texto linea aliases with
           | Some z => Some z
           | None => dict_get columna_eqb (fst st) c'
           end
      else dict_get columna_eqb (fst st) c'.
Proof.
  unfold detectar_columna. simpl.
  induction aliases as [|a r IH]; intros st; simpl.
  - now destruct (columna_eqb c' c).
  - rewrite IH, detectar_alias_get.
    destruct (columna_eqb c' c); [|reflexivity].
    destruct (ultima_ancla texto linea r); [reflexivity|].
    now destruct (alias_hallado texto linea a).
Qed.

(** On the header line the anchor of a column is the one its last
    matching alias gives. *)
Lemma detectar_columnas_get texto linea (c : Columna) :
  dict_get columna_eqb (fst (detectar_columnas texto linea [])) c
  = ultima_ancla texto linea (aliases_de c).
Proof.
  unfold detectar_columnas, MAPEO_COLUMNAS.
  cbn [fold_left].
  repeat rewrite detectar_columna_get.
  destruct c;
    cbv [columna_eqb orden Z.eqb Pos.eqb aliases_de dict_get fst snd
         MAPEO_COLUMNAS];
    match goal with
    | |- context [ultima_ancla ?t ?l ?a] =>
        destruct (ultima_ancla t l a); reflexivity
    end.
Qed.

(** C2 fails inside the header line: the alias "descripción" anchors the
    column at 100, and the later alias "producto" of the same column
    overwrites the anchor with 225. *)
Lemma C2_anchor_overwritten :
  let texto := texto_de encabezado_producto in
  let st1 := detectar_alias texto encabezado_producto Descripcion ([], false)
               "descripción" in
  let st2 := detectar_alias texto encabezado_producto Descripcion st1
               "descripcion" in
  let st3 := detectar_alias texto encabezado_producto Descripcion st2
               "producto" in
  dict_get columna_eqb (fst st1) Descripcion = Some 100
  /\ dict_get columna_eqb (fst st3) Descripcion = Some 225
  /\ paso vars_iniciales encabezado_producto
     = Ok (mk_vars [] None [(Cant, 10); (Descripcion, 225); (Importe, 400)]
             extrayendo_detalles).
Proof. vm_compute. repeat split. Qed.

(** C2, as the code has it: the anchors are written while one line, the
    header, is processed, and no later line changes them; on the header
    line every alias of a column that finds a word writes the anchor, so
    that the last of them, in the order of the alias table, decides. *)
Theorem C2_anchors_fixed_by_header (pre post : list (list palabra))
    (v2 : Vars) :
  recorrer vars_iniciales (pre ++ post)%list = Ok v2 ->
  (exists v1, recorrer vars_iniciales pre = Ok v1
              /\ (columnas v1 = [] \/ columnas v1 = columnas v2))
  /\ (forall linea c,
        dict_get columna_eqb
          (fst (detectar_columnas (texto_de linea) linea [])) c
        = ultima_ancla (texto_de linea) linea (aliases_de c)).
Proof.
  intros H. split; [|intros; apply detectar_columnas_get].
  rewrite recorrer_app in H.
  destruct (recorrer vars_iniciales pre) as [v1|e] eqn:E; simpl in H;
    [|discriminate].
  exists v1. split; [reflexivity|].
  destruct (estado v1) eqn:Hs.
  - left.
    assert (Hi : sin_encabezado v1).
    { eapply recorrer_sin_encabezado; [|exact E]. now intros _. }
    now rewrite (Hi Hs).
  - right. symmetry. eapply recorrer_columnas; [|exact H]. congruence.
  - right. symmetry. eapply recorrer_columnas; [|exact H]. congruence.
Qed.

Lemma C2_anchors_fixed_witness :
  recorrer vars_iniciales
    ([encabezado_producto] ++ [linea_tornillo; linea_total_21])%list
  = Ok (mk_vars
          [mk_detalle 2 "Tornillo" (Some (Dec.DFin false 2100 (-2)))
             (Dec.DFin false 2100 (-2))]
          (Some (Dec.DFin false 2100 (-2)))
          [(Cant, 10); (Descripcion, 225); (Importe, 400)] buscando_total)
  /\ (exists v1, recorrer vars_iniciales [encabezado_producto] = Ok v1
                 /\ (columnas v1 = []
                     \/ columnas v1
                        = [(Cant, 10); (Descripcion, 225); (Importe, 400)])).
Proof.
  assert (H : recorrer vars_iniciales
                ([encabezado_producto] ++ [linea_tornillo; linea_total_21])%list
              = Ok (mk_vars
                      [mk_detalle 2 "Tornillo" (Some (Dec.DFin false 2100 (-2)))
                         (Dec.DFin false 2100 (-2))]
                      (Some (Dec.DFin false 2100 (-2)))
                      [(Cant, 10); (Descripcion, 225); (Importe, 400)]
                      buscando_total))
    by (vm_compute; reflexivity).
  split; [exact H|].
  exact (proj1 (C2_anchors_fixed_by_header _ _ _ H)).
Defined.

Lemma C4_total_line_witness :
  paso (mk_vars
          [mk_detalle 2 "Tornillo" (Some (Dec.DFin false 2100 (-2)))
             (Dec.DFin false 2100 (-2))]
          None [(Cant, 10); (Descripcion, 225); (Importe, 400)]
          extrayendo_detalles)
       linea_total_21
  = Ok (mk_vars
          [mk_detalle 2 "Tornillo" (Some (Dec.DFin false 2100 (-2)))
             (Dec.DFin false 2100 (-2))]
          (Some (Dec.DFin false 2100 (-2)))
          [(Cant, 10); (Descripcion, 225); (Importe, 400)] buscando_total)
  /\ recorrer vars_iniciales
       [encabezado_producto; linea_tornillo; linea_total_21; linea_gracias]
     = Ok (mk_vars
             [mk_detalle 2 "Tornillo" (Some (Dec.DFin false 2100 (-2)))
                (Dec.DFin false 2100 (-2))]
             (Some (Dec.DFin false 2100 (-2)))
             [(Cant, 10); (Descripcion, 225); (Importe, 400)] buscando_total).
Proof.
  apply (C4_total_line [encabezado_producto; linea_tornillo] [linea_gracias]
           [mk_palabra "Total" 300 200 40 12] []
           (mk_palabra "21,00" 400 200 40 12)
           (mk_vars
              [mk_detalle 2 "Tornillo" (Some (Dec.DFin false 2100 (-2)))
                 (Dec.DFin false 2100 (-2))]
              None [(Cant, 10); (Descripcion, 225); (Importe, 400)]
              extrayendo_detalles)
           (Dec.DFin false 2100 (-2))).
  - vm_compute. reflexivity.
  - discriminate.
  - vm_compute. reflexivity.
  - vm_compute. reflexivity.
  - constructor.
  - intros l [<-|[]] H. vm_compute in H. discriminate.
Defined.

(** C5 fails: with the anchors known and the total found, a line that
    matches no alias and has no total sentinel is not handed to the detail
    assigner, which would have made a line item of it. *)
Lemma C5_detail_after_total_dropped :
  let v := mk_vars [] (Some (Dec.DFin false 2100 (-2)))
             [(Cant, 10); (Descripcion, 225); (Importe, 400)]
             buscando_total in
  recorrer vars_iniciales [encabezado_producto; linea_total_21] = Ok v
  /\ algun_alias (texto_de linea_tornillo) = false
  /\ Str.contains "total" (texto_de linea_tornillo) = false
  /\ paso v linea_tornillo = Ok v
  /\ extraer_detalle v linea_tornillo
     = Ok (mk_vars
             [mk_detalle 2 "Tornillo" (Some (Dec.DFin false 2100 (-2)))
                (Dec.DFin false 2100 (-2))]
             (Some (Dec.DFin false 2100 (-2)))
             [(Cant, 10); (Descripcion, 225); (Importe, 400)]
             buscando_total).
Proof. vm_compute. repeat split. Qed.

Lemma C5_no_detail_after_total_witness :
  exists v',
    recorrer
      (mk_vars [] (Some (Dec.DFin false 2100 (-2)))
         [(Cant, 10); (Descripcion, 225); (Importe, 400)] buscando_total)
      [linea_tornillo; linea_gracias] = Ok v'
    /\ detalles v' = []
    /\ columnas v' = [(Cant, 10); (Descripcion, 225); (Importe, 400)]
    /\ estado v' = buscando_total.
Proof.
  exact (proj2 (C5_no_detail_after_total
                  (mk_vars [] (Some (Dec.DFin false 2100 (-2)))
                     [(Cant, 10); (Descripcion, 225); (Importe, 400)]
                     buscando_total)
                  [linea_tornillo; linea_gracias] eq_refl)).
Defined.

(** ** The detail assigner *)

Lemma orden_inj (a b : Columna) : orden a = orden b -> a = b.
Proof. destruct a, b; simpl; congruence. Qed.

Lemma ordenadas_set (cols : list (Columna * Z)) (c : Columna) (z : Z) :
  ordenadas (orden c + 1) cols ->
  ordenadas (orden c + 1) (dict_set columna_eqb cols c z).
Proof.
  induction cols as [|[k v] r IH]; intros [Hs Hb]; simpl.
  - split; repeat constructor. simpl. lia.
  - apply StronglySorted_inv in Hs. destruct Hs as [Hs Hk].
    apply Forall_cons_iff in Hb. destruct Hb as [Hb0 Hb].
    destruct (columna_eqb c k) eqn:E.
    + apply columna_eqb_eq in E. subst k.
      split; constructor; assumption.
    + destruct (IH (conj Hs Hb)) as [IH1 IH2].
      assert (Hlt : orden k < orden c).
      { simpl in Hb0.
        assert (orden k <> orden c);
          [intros Hc; apply orden_inj in Hc; subst;
           now rewrite columna_eqb_refl in E | lia]. }
      split; constructor; try assumption.
      clear - Hk Hlt. simpl in *.
      induction r as [|[k1 v1] r1 IHr]; simpl.
      * constructor; [exact Hlt|constructor].
      * apply Forall_cons_iff in Hk. destruct Hk as [Hk0 Hk].
        destruct (columna_eqb c k1); constructor; auto.
Qed.

Lemma ordenadas_columna texto linea (c : Columna) (aliases : list string) :
  forall st,
    ordenadas (orden c + 1) (fst st) ->
    ordenadas (orden c + 1)
      (fst (detectar_columna texto linea st (c, aliases))).
Proof.
  unfold detectar_columna. simpl.
  induction aliases as [|a r IH]; intros st H; simpl; [exact H|].
  apply IH. unfold detectar_alias.
  destruct (Str.contains a texto); [|exact H].
  destruct (palabra_con a linea); [|exact H].
  simpl. now apply ordenadas_set.
Qed.

Lemma ordenadas_mono (n m : Z) (cols : list (Columna * Z)) :
  n <= m -> ordenadas n cols -> ordenadas m cols.
Proof.
  intros Hnm [H1 H2]. split; [exact H1|].
  eapply Forall_impl; [|exact H2]. simpl. intros; lia.
Qed.

Lemma ordenadas_detectar texto linea :
  ordenadas 4 (fst (detectar_columnas texto linea [])).
Proof.
  unfold detectar_columnas, MAPEO_COLUMNAS. cbn [fold_left].
  apply (ordenadas_columna texto linea Importe).
  apply (ordenadas_mono 3); [simpl; lia|].
  apply (ordenadas_columna texto linea PUnit).
  apply (ordenadas_mono 2); [simpl; lia|].
  apply (ordenadas_columna texto linea Descripcion).
  apply (ordenadas_mono 1); [simpl; lia|].
  apply (ordenadas_columna texto linea Cant).
  split; constructor.
Qed.

(** Whatever has been read, the anchors are listed in table order. *)
Lemma recorrer_ordenadas (lineas : list (list palabra)) (v : Vars) :
  recorrer vars_iniciales lineas = Ok v -> ordenadas 4 (columnas v).
Proof.
  assert (G : forall ls v0 v1,
             sin_encabezado v0 -> ordenadas 4 (columnas v0) ->
             recorrer v0 ls = Ok v1 -> ordenadas 4 (columnas v1)).
  { induction ls as [|x r IH]; intros v0 v1 Hi Ho; simpl.
    - now intros [= <-].
    - destruct (paso v0 x) as [v0'|e] eqn:E; simpl; [|discriminate].
      apply IH.
      + eapply paso_sin_encabezado; eassumption.
      + destruct (estado v0) eqn:Hs.
        * destruct (paso_buscando v0 x Hs) as [E1|[_ E1]];
            rewrite E1 in E; injection E as <-; [exact Ho|].
          simpl. rewrite (Hi Hs). apply ordenadas_detectar.
        * rewrite paso_resto in E by congruence.
          apply paso_total_inv in E; [|congruence].
          destruct E as [-> _]. exact Ho.
        * rewrite paso_resto in E by congruence.
          apply paso_total_inv in E; [|congruence].
          destruct E as [-> _]. exact Ho. }
  apply G; [now intros _|split; constructor].
Qed.

(** [min] returns the first entry, in the order of the dictionary, whose
    value is the least. *)
Lemma min_desde_split (d : list (Columna * Z)) :
  forall c0 v0,
  exists l1 v l2,
    (c0, v0) :: d = (l1 ++ (min_desde c0 v0 d, v) :: l2)%list
    /\ Forall (fun e => v < snd e) l1
    /\ Forall (fun e => v <= snd e) l2.
Proof.
  induction d as [|[c1 v1] r IH]; intros c0 v0; simpl.
  - exists [], v0, []. repeat split; constructor.
  - destruct (Z.ltb_spec v1 v0) as [Hlt|Hge].
    + destruct (IH c1 v1) as (l1 & v & l2 & E & H1 & H2).
      exists ((c0, v0) :: l1), v, l2. rewrite E.
      split; [reflexivity|]. split; [|exact H2].
      constructor; [|exact H1]. simpl.
      destruct l1 as [|e l1'].
      * simpl in E. injection E as _ <-. exact Hlt.
      * simpl in E. injection E as <- _.
        apply Forall_inv in H1. simpl in H1. lia.
    + destruct (IH c0 v0) as (l1 & v & l2 & E & H1 & H2).
      destruct l1 as [|e l1'].
      * simpl in E. injection E as Ec <- <-.
        exists [], v0, ((c1, v1) :: r). rewrite <- Ec.
        split; [reflexivity|]. split; [constructor|].
        constructor; [exact Hge|exact H2].
      * simpl in E. injection E as <- Er.
        exists ((c0, v0) :: (c1, v1) :: l1'), v, l2.
        split; [simpl; now rewrite <- Er|]. split; [|exact H2].
        pose proof (Forall_inv H1) as H0. simpl in H0.
        constructor; [exact H0|].
        constructor; [simpl; lia|]. now apply Forall_inv_tail in H1.
Qed.

Lemma distancias_map (cols : list (Columna * Z)) (p : palabra) :
  distancias cols p = map (fun a => (fst a, distancia p (snd a))) cols.
Proof. unfold distancias. apply map_ext. now intros [c z]. Qed.

(** The nearest anchor, ties going to the column that comes first in the
    table. *)
Lemma columna_cercana_spec (cols : list (Columna * Z)) (p : palabra) :
  cols <> [] ->
  StronglySorted (fun a b => orden (fst a) < orden (fst b)) cols ->
  exists c pos,
    columna_cercana cols p = Ok c /\ In (c, pos) cols
    /\ forall c' pos',
         In (c', pos') cols ->
         distancia p pos <= distancia p pos'
         /\ (distancia p pos = distancia p pos' -> orden c <= orden c').
Proof.
  intros Hne Hs. unfold columna_cercana.
  rewrite distancias_map.
  destruct cols as [|[c0 z0] r]; [congruence|]. clear Hne.
  cbn [map fst snd].
  destruct (min_desde_split (map (fun a => (fst a, distancia p (snd a))) r)
              c0 (distancia p z0)) as (l1 & v & l2 & E & H1 & H2).
  set (c := min_desde c0 (distancia p z0)
              (map (fun a => (fst a, distancia p (snd a))) r)) in *.
  change ((c0, distancia p z0)
          :: map (fun a => (fst a, distancia p (snd a))) r)
    with (map (fun a => (fst a, distancia p (snd a))) ((c0, z0) :: r)) in E.
  apply map_eq_app in E. destruct E as (k1 & k2 & Ek & E1 & E2).
  destruct k2 as [|[cx zx] k2']; [discriminate|].
  simpl in E2. injection E2 as Ec Ev E2.
  rewrite Ek in Hs. exists c, zx. split; [reflexivity|].
  split; [rewrite Ek, <- Ec; apply in_or_app; right; now left|].
  apply StronglySorted_app_inv in Hs. destruct Hs as [Hs1 Hs2].
  apply StronglySorted_inv in Hs2. destruct Hs2 as [_ Hs2].
  rewrite Forall_forall in Hs2.
  intros c' pos' Hin. rewrite Ek in Hin.
  apply in_app_or in Hin. destruct Hin as [Hin|[Hin|Hin]].
  - rewrite Forall_forall in H1.
    assert (v < distancia p pos').
    { apply (H1 (c', distancia p pos')). rewrite <- E1.
      apply (in_map (fun a => (fst a, distancia p (snd a))) _ _ Hin). }
    unfold distancia in *. rewrite Ev. split; [lia|intros Heq; lia].
  - injection Hin as <- <-. rewrite <- Ec. lia.
  - rewrite Forall_forall in H2.
    assert (v <= distancia p pos').
    { apply (H2 (c', distancia p pos')). rewrite <- E2.
      apply (in_map (fun a => (fst a, distancia p (snd a))) _ _ Hin). }
    specialize (Hs2 _ Hin). simpl in Hs2. rewrite <- Ec.
    unfold distancia in *. split; lia.
Qed.

Lemma dict_get_append (dl : list (Columna * list string)) (c c' : Columna)
    (t : string) :
  dict_get columna_eqb (dict_append dl c t) c'
  = if columna_eqb c' c
    then option_map (fun l => (l ++ [t])%list) (dict_get columna_eqb dl c')
    else dict_get columna_eqb dl c'.
Proof.
  induction dl as [|[k l] r IH]; simpl.
  - now destruct (columna_eqb c' c).
  - destruct (columna_eqb c k) eqn:E; simpl.
    + apply columna_eqb_eq in E. subst k.
      now destruct (columna_eqb c' c).
    + destruct (columna_eqb c' k) eqn:E1; [|exact IH].
      apply columna_eqb_eq in E1. subst k.
      destruct (columna_eqb c' c) eqn:E2; [|reflexivity].
      apply columna_eqb_eq in E2. subst c'.
      now rewrite columna_eqb_refl in E.
Qed.

Lemma asignar_desde_spec (cols : list (Columna * Z)) :
  cols <> [] ->
  forall linea dl,
  exists dl',
    asignar_desde cols dl linea = Ok dl'
    /\ forall c,
         dict_get columna_eqb dl' c
         = option_map (fun l => (l ++ textos_cercanos cols c linea)%list)
             (dict_get columna_eqb dl c).
Proof.
  intros Hne. induction linea as [|p r IH]; intros dl; simpl.
  - exists dl. split; [reflexivity|]. intros c.
    destruct (dict_get columna_eqb dl c); simpl; [|reflexivity].
    unfold textos_cercanos. simpl. now rewrite app_nil_r.
  - assert (exists c1, columna_cercana cols p = Ok c1) as [c1 Hc1].
    { unfold columna_cercana. rewrite distancias_map.
      destruct cols as [|[c0 z0] r0]; [congruence|]. simpl. eauto. }
    rewrite Hc1. simpl.
    destruct (IH (dict_append dl c1 (p_text p))) as (dl' & E & H).
    exists dl'. split; [exact E|]. intros c. rewrite H, dict_get_append.
    unfold textos_cercanos. simpl. unfold es_cercana at 2. rewrite Hc1.
    destruct (columna_eqb c c1); [|reflexivity].
    destruct (dict_get columna_eqb dl c); simpl; [|reflexivity].
    now rewrite <- app_assoc.
Qed.

Lemma dict_get_vacias (cols : list (Columna * Z)) (c : Columna) :
  dict_get columna_eqb (map (fun '(c0, _) => (c0, @nil string)) cols) c
  = option_map (fun _ => []) (dict_get columna_eqb cols c).
Proof.
  induction cols as [|[k z] r IH]; simpl; [reflexivity|].
  now destruct (columna_eqb c k).
Qed.

(** Every word goes to the list of its nearest anchor, and only there. *)
Lemma asignar_spec (cols : list (Columna * Z)) (linea : list palabra) :
  cols <> [] ->
  exists dl,
    asignar cols linea = Ok dl
    /\ forall c,
         dict_get columna_eqb dl c
         = option_map (fun _ => textos_cercanos cols c linea)
             (dict_get columna_eqb cols c).
Proof.
  intros Hne. unfold asignar.
  destruct (asignar_desde_spec cols Hne linea
              (map (fun '(c0, _) => (c0, [])) cols)) as (dl & E & H).
  exists dl. split; [exact E|]. intros c.
  rewrite H, dict_get_vacias. now destruct (dict_get columna_eqb cols c).
Qed.

(** C8: in a detail line every word is assigned to the anchor at the
    least absolute distance from its left coordinate, and among anchors at
    that same distance to the one that comes first in the order Cant,
    Descripción, P.Unit, Importe. *)
Theorem C8_nearest_anchor (lineas : list (list palabra)) (v : Vars)
    (linea : list palabra) :
  recorrer vars_iniciales lineas = Ok v ->
  columnas v <> [] ->
  (forall p,
     exists c pos,
       columna_cercana (columnas v) p = Ok c /\ In (c, pos) (columnas v)
       /\ forall c' pos',
            In (c', pos') (columnas v) ->
            Z.abs (p_left p - pos) <= Z.abs (p_left p - pos')
            /\ (Z.abs (p_left p - pos) = Z.abs (p_left p - pos') ->
                orden c <= orden c'))
  /\ exists dl,
       asignar (columnas v) linea = Ok dl
       /\ forall c,
            dict_get columna_eqb dl c
            = option_map (fun _ => textos_cercanos (columnas v) c linea)
                (dict_get columna_eqb (columnas v) c).
Proof.
  intros H Hne. split.
  - intros p. apply columna_cercana_spec; [exact Hne|].
    now destruct (recorrer_ordenadas lineas v H).
  - now apply asignar_spec.
Qed.

(** *** Consolidation of a detail line *)

Lemma consolidar_Some (dl : list (Columna * list string)) (d : Detalle) :
  consolidar dl = Ok (Some d) ->
  exists cant_str punit_str it,
    primero dl Cant = Ok cant_str
    /\ primero dl PUnit = Ok punit_str
    /\ primero dl Importe = Ok (Some it)
    /\ Str.nonempty it = true
    /\ Str.nonempty (descripcion_de dl) = true
    /\ d_Descripcion d = descripcion_de dl
    /\ normalizar_monto it = Some (d_Importe d)
    /\ (if verdadero cant_str
        then PyFloat.int_of_float_str
               (Str.replace_char "," "." (texto_o_vacio cant_str))
        else Ok 1) = Ok (d_Cant d)
    /\ d_PUnit d = (if verdadero punit_str
                    then normalizar_monto (texto_o_vacio punit_str)
                    else Some (d_Importe d)).
Proof.
  unfold consolidar. fold (descripcion_de dl).
  destruct (primero dl Cant) as [cant_str|e]; simpl; [|discriminate].
  destruct (primero dl PUnit) as [punit_str|e]; simpl; [|discriminate].
  destruct (primero dl Importe) as [importe_str|e]; simpl; [|discriminate].
  destruct (verdadero importe_str) eqn:Ei; simpl; [|discriminate].
  destruct (Str.nonempty (descripcion_de dl)) eqn:Ed; [|discriminate].
  destruct importe_str as [it|]; [|discriminate]. simpl in *.
  destruct (normalizar_monto it) as [importe|] eqn:En; [|discriminate].
  destruct (if verdadero cant_str
            then PyFloat.int_of_float_str
                   (Str.replace_char "," "." (texto_o_vacio cant_str))
            else Ok 1) as [q|e] eqn:Eq; simpl; [|discriminate].
  intros [= <-]. simpl.
  exists cant_str, punit_str, it. repeat split; auto.
Qed.

Lemma extraer_detalle_emite (v : Vars) (linea : list palabra)
    (dl : list (Columna * list string)) (d : Detalle) :
  asignar (columnas v) linea = Ok dl ->
  extraer_detalle v linea
  = Ok (mk_vars (detalles v ++ [d])%list (total_factura v) (columnas v)
          (estado v)) ->
  consolidar dl = Ok (Some d).
Proof.
  intros Ha. unfold extraer_detalle. rewrite Ha. simpl.
  assert (Hno : forall v0 : Vars,
             Ok v0 = Ok (mk_vars (detalles v0 ++ [d])%list (total_factura v0)
                           (columnas v0) (estado v0)) -> False).
  { intros v0 [= H]. apply (f_equal detalles) in H. simpl in H.
    apply (f_equal (@List.length Detalle)) in H.
    rewrite length_app in H. simpl in H. lia. }
  destruct (consolidar dl) as [[d0|]|e].
  - intros [= H]. apply app_inv_head in H. congruence.
  - intros H. now apply Hno in H.
  - destruct (atrapada e); [|discriminate]. intros H. now apply Hno in H.
Qed.

Lemma primero_raise (dl : list (Columna * list string)) (c : Columna)
    (e : excepcion) :
  primero dl c = Raise e -> e = IndexError.
Proof.
  unfold primero.
  destruct (dict_get columna_eqb dl c) as [[|t r]|]; congruence.
Qed.

Lemma primero_textos (cols : list (Columna * Z)) (linea : list palabra)
    (dl : list (Columna * list string)) (c : Columna) :
  (forall c0, dict_get columna_eqb dl c0
              = option_map (fun _ => textos_cercanos cols c0 linea)
                  (dict_get columna_eqb cols c0)) ->
  primero dl c
  = match dict_get columna_eqb cols c with
    | None => Ok None
    | Some _ =>
        match textos_cercanos cols c linea with
        | [] => Raise IndexError
        | t :: _ => Ok (Some t)
        end
    end.
Proof.
  intros H. unfold primero. rewrite H.
  now destruct (dict_get columna_eqb cols c).
Qed.

(** C3 fails: a Cant text that [float] rejects drops the line instead of
    giving quantity 1; so does an anchored Cant column that received no
    word; and a quantity can be 0 or negative. *)
Lemma C3_quantity_not_defaulted :
  paso vars_iniciales encabezado_completo = Ok con_encabezado
  /\ paso con_encabezado
       (fila_detalle (Some "x") "Tornillo" (Some "10,50") "21,00")
     = Ok con_encabezado
  /\ paso con_encabezado
       (fila_detalle None "Tornillo" (Some "10,50") "21,00")
     = Ok con_encabezado
  /\ paso con_encabezado
       (fila_detalle (Some "0") "Tornillo" (Some "10,50") "21,00")
     = Ok (mk_vars
             [mk_detalle 0 "Tornillo" (Some (Dec.DFin false 1050 (-2)))
                (Dec.DFin false 2100 (-2))]
             None (columnas con_encabezado) extrayendo_detalles)
  /\ paso con_encabezado
       (fila_detalle (Some "-3,9") "Tornillo" (Some "10,50") "21,00")
     = Ok (mk_vars
             [mk_detalle (-3) "Tornillo" (Some (Dec.DFin false 1050 (-2)))
                (Dec.DFin false 2100 (-2))]
             None (columnas con_encabezado) extrayendo_detalles).
Proof. vm_compute. repeat split. Qed.

(** C3, as the code has it: the quantity of an emitted line item is 1 when
    the Cant column has no anchor; otherwise it is the first text assigned
    to Cant, its commas turned into points, converted by [float] and
    truncated by [int].  A line whose anchored Cant column received no
    word, or whose Cant text [float] rejects, emits nothing. *)
Theorem C3_quantity (v : Vars) (linea : list palabra) :
  columnas v <> [] ->
  (forall d,
     extraer_detalle v linea
     = Ok (mk_vars (detalles v ++ [d])%list (total_factura v) (columnas v)
             (estado v)) ->
     match dict_get columna_eqb (columnas v) Cant,
           textos_cercanos (columnas v) Cant linea with
     | None, _ => d_Cant d = 1
     | Some _, [] => False
     | Some _, t :: _ =>
         if Str.nonempty t
         then PyFloat.int_of_float_str (Str.replace_char "," "." t)
              = Ok (d_Cant d)
         else d_Cant d = 1
     end)
  /\ (forall pos,
        dict_get columna_eqb (columnas v) Cant = Some pos ->
        textos_cercanos (columnas v) Cant linea = [] ->
        extraer_detalle v linea = Ok v)
  /\ (forall pos t rest,
        dict_get columna_eqb (columnas v) Cant = Some pos ->
        textos_cercanos (columnas v) Cant linea = t :: rest ->
        Str.nonempty t = true ->
        PyFloat.int_of_float_str (Str.replace_char "," "." t)
        = Raise ValueError ->
        extraer_detalle v linea = Ok v).
Proof.
  intros Hne.
  destruct (asignar_spec (columnas v) linea Hne) as (dl & Ha & Hdl).
  pose proof (primero_textos _ _ _ Cant Hdl) as Hc.
  split; [|split].
  - intros d Hd.
    apply (extraer_detalle_emite v linea dl d Ha) in Hd.
    apply consolidar_Some in Hd.
    destruct Hd as (cs & ps & it & H1 & _ & _ & _ & _ & _ & _ & H8 & _).
    rewrite Hc in H1.
    destruct (dict_get columna_eqb (columnas v) Cant).
    + destruct (textos_cercanos (columnas v) Cant linea) as [|t r];
        [discriminate|].
      injection H1 as <-. simpl in H8.
      destruct (Str.nonempty t); [exact H8|congruence].
    + injection H1 as <-. simpl in H8. congruence.
  - intros pos Hp Ht. unfold extraer_detalle. rewrite Ha. simpl.
    unfold consolidar. rewrite Hc, Hp, Ht. reflexivity.
  - intros pos t rest Hp Ht Hn Hf. unfold extraer_detalle. rewrite Ha. simpl.
    unfold consolidar. rewrite Hc, Hp, Ht. simpl.
    destruct (primero dl PUnit) as [ps|e] eqn:E1; simpl;
      [|now rewrite (primero_raise _ _ _ E1)].
    destruct (primero dl Importe) as [imp|e] eqn:E2; simpl;
      [|now rewrite (primero_raise _ _ _ E2)].
    destruct (verdadero imp && _); [|reflexivity].
    destruct (normalizar_monto (texto_o_vacio imp)); [|reflexivity].
    rewrite Hn, Hf. reflexivity.
Qed.

Lemma C3_quantity_witness :
  columnas con_encabezado <> []
  /\ PyFloat.int_of_float_str (Str.replace_char "," "." "2,9") = Ok 2.
Proof.
  split; [discriminate|].
  assert (H : extraer_detalle con_encabezado
                (fila_detalle (Some "2,9") "Tornillo" (Some "10,50") "21,00")
              = Ok (mk_vars
                      (detalles con_encabezado
                       ++ [mk_detalle 2 "Tornillo"
                             (Some (Dec.DFin false 1050 (-2)))
                             (Dec.DFin false 2100 (-2))])%list
                      (total_factura con_encabezado)
                      (columnas con_encabezado) (estado con_encabezado)))
    by (vm_compute; reflexivity).
  exact (proj1 (C3_quantity con_encabezado
                  (fila_detalle (Some "2,9") "Tornillo" (Some "10,50")
                     "21,00")
                  ltac:(discriminate)) _ H).
Defined.

(** C10 fails as worded: a valid amount and a description are not enough
    for the line to be emitted; with an unparsable P.Unit token and a Cant
    text that [float] rejects nothing is emitted.  With a quantity that
    converts the item is emitted and its unit price is [None]. *)
Lemma C10_unit_price_line_dropped :
  paso con_encabezado
    (fila_detalle (Some "x") "Tornillo" (Some "abc") "21,00")
  = Ok con_encabezado
  /\ normalizar_monto "abc" = None
  /\ normalizar_monto "21,00" = Some (Dec.DFin false 2100 (-2))
  /\ paso con_encabezado
       (fila_detalle (Some "2") "Tornillo" (Some "abc") "21,00")
     = Ok (mk_vars
             [mk_detalle 2 "Tornillo" None (Dec.DFin false 2100 (-2))]
             None (columnas con_encabezado) extrayendo_detalles).
Proof. vm_compute. repeat split. Qed.

(** C10, as the code has it: a line whose first P.Unit text does not
    parse is emitted with unit price [None] when its amount parses, its
    description is not empty and its quantity converts (no Cant anchor, or
    a first Cant text that [int(float())] accepts); the unit price is the
    amount only when no P.Unit text reached the consolidation, which for
    an emitted line means that the P.Unit column has no anchor. *)
Theorem C10_unit_price (v : Vars) (linea : list palabra) :
  columnas v <> [] ->
  (forall posu pu restu posi it resti posd importe q,
     dict_get columna_eqb (columnas v) PUnit = Some posu ->
     textos_cercanos (columnas v) PUnit linea = pu :: restu ->
     Str.nonempty pu = true ->
     normalizar_monto pu = None ->
     dict_get columna_eqb (columnas v) Importe = Some posi ->
     textos_cercanos (columnas v) Importe linea = it :: resti ->
     normalizar_monto it = Some importe ->
     dict_get columna_eqb (columnas v) Descripcion = Some posd ->
     Str.nonempty
       (Str.join " " (textos_cercanos (columnas v) Descripcion linea))
     = true ->
     match dict_get columna_eqb (columnas v) Cant,
           textos_cercanos (columnas v) Cant linea with
     | None, _ => q = 1
     | Some _, [] => False
     | Some _, t :: _ =>
         if Str.nonempty t
         then PyFloat.int_of_float_str (Str.replace_char "," "." t) = Ok q
         else q = 1
     end ->
     extraer_detalle v linea
     = Ok (mk_vars
             (detalles v
              ++ [mk_detalle q
                    (Str.join " "
                       (textos_cercanos (columnas v) Descripcion linea))
                    None importe])%list
             (total_factura v) (columnas v) (estado v)))
  /\ (forall d,
        extraer_detalle v linea
        = Ok (mk_vars (detalles v ++ [d])%list (total_factura v)
                (columnas v) (estado v)) ->
        match dict_get columna_eqb (columnas v) PUnit,
              textos_cercanos (columnas v) PUnit linea with
        | None, _ => d_PUnit d = Some (d_Importe d)
        | Some _, [] => False
        | Some _, t :: _ =>
            if Str.nonempty t then d_PUnit d = normalizar_monto t
            else d_PUnit d = Some (d_Importe d)
        end).
Proof.
  intros Hne.
  destruct (asignar_spec (columnas v) linea Hne) as (dl & Ha & Hdl).
  split.
  - intros posu pu restu posi it resti posd importe q
      Hu1 Hu2 Hu3 Hu4 Hi1 Hi2 Hi3 Hd1 Hd2 Hq.
    unfold extraer_detalle. rewrite Ha. simpl.
    unfold consolidar.
    rewrite (primero_textos _ _ _ Cant Hdl),
            (primero_textos _ _ _ PUnit Hdl),
            (primero_textos _ _ _ Importe Hdl).
    rewrite Hu1, Hu2, Hi1, Hi2, (Hdl Descripcion), Hd1. simpl.
    rewrite Hd2.
    assert (Hit : Str.nonempty it = true).
    { destruct it; [|reflexivity]. vm_compute in Hi3. discriminate. }
    destruct (dict_get columna_eqb (columnas v) Cant).
    + destruct (textos_cercanos (columnas v) Cant linea) as [|t r];
        [contradiction|].
      simpl. rewrite Hit, Hi3. simpl.
      destruct (Str.nonempty t); [rewrite Hq|subst q]; simpl;
        now rewrite Hu3, Hu4.
    + subst q. simpl. rewrite Hit, Hi3. simpl. now rewrite Hu3, Hu4.
  - intros d Hd.
    apply (extraer_detalle_emite v linea dl d Ha) in Hd.
    apply consolidar_Some in Hd.
    destruct Hd as (cs & ps & it & _ & H2 & _ & _ & _ & _ & _ & _ & H9).
    rewrite (primero_textos _ _ _ PUnit Hdl) in H2.
    destruct (dict_get columna_eqb (columnas v) PUnit).
    + destruct (textos_cercanos (columnas v) PUnit linea) as [|t r];
        [discriminate|].
      injection H2 as <-. simpl in H9. now destruct (Str.nonempty t).
    + injection H2 as <-. exact H9.
Qed.

Lemma C10_unit_price_witness :
  extraer_detalle con_encabezado
    (fila_detalle (Some "2") "Tornillo" (Some "abc") "21,00")
  = Ok (mk_vars
          [mk_detalle 2 "Tornillo" None (Dec.DFin false 2100 (-2))]
          None (columnas con_encabezado) extrayendo_detalles).
Proof.
  refine (proj1 (C10_unit_price con_encabezado
                   (fila_detalle (Some "2") "Tornillo" (Some "abc") "21,00")
                   ltac:(discriminate))
            300 "abc" [] 400 "21,00" [] 100 (Dec.DFin false 2100 (-2)) 2
            _ _ _ _ _ _ _ _ _ _);
    vm_compute; reflexivity.
Defined.

(** ** The consistency check *)

Lemma ndigits_fuel_le (fuel : nat) :
  forall c k, 0 <= k -> Z.of_N c < 10 ^ k -> Dec.ndigits_fuel fuel c <= k.
Proof.
  induction fuel as [|f IH]; intros c k Hk Hc; cbn [Dec.ndigits_fuel];
    [exact Hk|].
  destruct (N.eqb_spec c 0) as [->|Hnz]; [exact Hk|].
  assert (Hk1 : 1 <= k).
  { destruct (Z.eq_dec k 0) as [->|]; [|lia].
    change (10 ^ 0) with 1 in Hc. lia. }
  specialize (IH (c / 10)%N (k - 1)).
  assert (Dec.ndigits_fuel f (c / 10)%N <= k - 1); [|lia].
  apply IH; [lia|].
  rewrite N2Z.inj_div. change (Z.of_N 10) with 10.
  apply Z.div_lt_upper_bound; [lia|].
  replace (10 * 10 ^ (k - 1)) with (10 ^ k); [exact Hc|].
  replace k with (1 + (k - 1)) at 1 by lia.
  rewrite Z.pow_add_r by lia. reflexivity.
Qed.

Lemma fix_fin_exact (s : bool) (c : N) (e : Z) :
  Z.of_N c < 10 ^ 28 -> Dec.Etiny <= e -> e <= Dec.Emax - 27 ->
  Dec.fix_fin s c e = Ok (Dec.DFin s c e).
Proof.
  intros Hc He1 He2. unfold Dec.fix_fin.
  destruct (N.eqb_spec c 0) as [->|Hnz].
  - f_equal. f_equal. unfold Dec.Etiny, Dec.Emin, Dec.Emax, Dec.prec in *.
    lia.
  - pose proof (ndigits_fuel_le (N.size_nat c) c 28 ltac:(lia) Hc) as Hn.
    fold (Dec.ndigits c) in Hn.
    unfold Dec.Etiny, Dec.Emin, Dec.Emax, Dec.prec in *.
    destruct (Z.ltb_spec (999999 - 28 + 1) (Dec.ndigits c + e - 28));
      [lia|].
    destruct (Z.ltb_spec e
                (Z.max (Dec.ndigits c + e - 28) (-999999 - 28 + 1)));
      [lia|reflexivity].
Qed.

Lemma signed_abs (v : Z) : Dec.signed (v <? 0) (Z.abs_N v) = v.
Proof.
  unfold Dec.signed. rewrite N2Z.inj_abs_N.
  destruct (Z.ltb_spec v 0); lia.
Qed.

Lemma pow10_pos (k : Z) : 0 <= k -> 0 < 10 ^ k.
Proof. intros. apply Z.pow_pos_nonneg; lia. Qed.

(** An addition whose exact result fits is exact. *)
Lemma add_exact (sa sb : bool) (ca cb : N) (ea eb : Z) :
  let e := Z.min ea eb in
  let V := Dec.signed sa ca * 10 ^ (ea - e) + Dec.signed sb cb * 10 ^ (eb - e) in
  Z.abs V < 10 ^ 28 -> Dec.Etiny <= e ->
  ea <= Dec.Emax - 27 -> eb <= Dec.Emax - 27 ->
  exists s c,
    Dec.add (Dec.DFin sa ca ea) (Dec.DFin sb cb eb) = Ok (Dec.DFin s c e)
    /\ Dec.signed s c = V.
Proof.
  intros e V HV He Ha Hb.
  assert (Hemax : e <= Dec.Emax - 27) by (unfold e; lia).
  unfold Dec.add. fold e.
  destruct (N.eqb_spec ca 0) as [Hca|Hca];
    destruct (N.eqb_spec cb 0) as [Hcb|Hcb]; simpl.
  - exists (sa && sb), 0%N. split.
    + apply fix_fin_exact; [reflexivity|exact He|exact Hemax].
    + subst ca cb. unfold V, Dec.signed. destruct sa, sb; simpl; lia.
  - assert (HVb : V = Dec.signed sb cb * 10 ^ (eb - e)).
    { unfold V. subst ca. unfold Dec.signed at 1. now destruct sa. }
    assert (Hp : 0 < 10 ^ (eb - e)) by (apply pow10_pos; unfold e; lia).
    assert (Hlt : eb - e < 28).
    { apply (Z.pow_lt_mono_r_iff 10); [lia|lia|].
      rewrite HVb in HV. unfold Dec.signed in HV.
      destruct sb; nia. }
    replace (Z.max e (eb - Dec.prec - 1)) with e
      by (unfold Dec.prec; lia).
    exists sb, (cb * Z.to_N (10 ^ (eb - e)))%N. split.
    + apply fix_fin_exact; [|exact He|exact Hemax].
      rewrite N2Z.inj_mul, Z2N.id by lia.
      rewrite HVb in HV. unfold Dec.signed in HV. destruct sb; nia.
    + rewrite HVb. unfold Dec.signed.
      rewrite N2Z.inj_mul, Z2N.id by lia. destruct sb; lia.
  - assert (HVa : V = Dec.signed sa ca * 10 ^ (ea - e)).
    { unfold V. subst cb. unfold Dec.signed at 2. destruct sb; lia. }
    assert (Hp : 0 < 10 ^ (ea - e)) by (apply pow10_pos; unfold e; lia).
    assert (Hlt : ea - e < 28).
    { apply (Z.pow_lt_mono_r_iff 10); [lia|lia|].
      rewrite HVa in HV. unfold Dec.signed in HV.
      destruct sa; nia. }
    replace (Z.max e (ea - Dec.prec - 1)) with e
      by (unfold Dec.prec; lia).
    exists sa, (ca * Z.to_N (10 ^ (ea - e)))%N. split.
    + apply fix_fin_exact; [|exact He|exact Hemax].
      rewrite N2Z.inj_mul, Z2N.id by lia.
      rewrite HVa in HV. unfold Dec.signed in HV. destruct sa; nia.
    + rewrite HVa. unfold Dec.signed.
      rewrite N2Z.inj_mul, Z2N.id by lia. destruct sa; lia.
  - fold V. destruct (Z.eqb_spec V 0) as [H0|H0].
    + exists false, 0%N. split.
      * apply fix_fin_exact; [reflexivity|exact He|exact Hemax].
      * now rewrite H0.
    + exists (V <? 0), (Z.abs_N V). split.
      * apply fix_fin_exact; [|exact He|exact Hemax].
        now rewrite N2Z.inj_abs_N.
      * apply signed_abs.
Qed.

Lemma sum_from_exact (l : list Dec.Decimal) :
  forall sa ca ea,
    ea <= Dec.Emax - 27 ->
    cabe_desde (Dec.signed sa ca) ea l ->
    exists s c,
      Dec.sum_from (Dec.DFin sa ca ea) l
      = Ok (Dec.DFin s c (snd (exacta_desde (Dec.signed sa ca) ea l)))
      /\ Dec.signed s c = fst (exacta_desde (Dec.signed sa ca) ea l).
Proof.
  induction l as [|d r IH]; intros sa ca ea Hea Hc.
  - exists sa, ca. now split.
  - destruct Hc as (Hf & Hd & He & HV & Hr).
    destruct d as [sb cb eb| |]; try discriminate.
    cbn [Dec.sum_from exacta_desde Dec.exponent Dec.scaled] in *.
    destruct (add_exact sa sb ca cb ea eb HV He Hea Hd)
      as (s & c & Eadd & Es).
    rewrite Eadd. cbn [bind]. rewrite <- Es in Hr |- *.
    apply IH; [lia|exact Hr].
Qed.

(** When every partial sum fits, [sum] returns the exact sum. *)
Lemma sum_exact (l : list Dec.Decimal) :
  l <> [] -> cabe l ->
  exists s c,
    Dec.sum l = Ok (Dec.DFin s c (snd (suma_exacta l)))
    /\ Dec.signed s c = fst (suma_exacta l).
Proof.
  destruct l as [|d r]; [congruence|]. intros _ Hc.
  destruct Hc as (Hf & Hd & He & HV & Hr).
  destruct d as [sb cb eb| |]; try discriminate.
  unfold suma_exacta.
  cbn [Dec.sum exacta_desde Dec.exponent Dec.scaled] in *.
  assert (HV0 : Dec.signed sb cb * 10 ^ (eb - Z.min eb 0)
                + Dec.signed false 0 * 10 ^ (0 - Z.min eb 0)
                = 0 * 10 ^ (0 - Z.min 0 eb)
                  + Dec.signed sb cb * 10 ^ (eb - Z.min 0 eb)).
  { rewrite (Z.min_comm eb 0). unfold Dec.signed at 2. simpl. lia. }
  destruct (add_exact sb false cb 0 eb 0) as (s & c & Eadd & Es).
  - rewrite HV0. exact HV.
  - rewrite Z.min_comm. exact He.
  - exact Hd.
  - unfold Dec.Emax. lia.
  - unfold Dec.zero. rewrite Eadd. cbn [bind].
    rewrite HV0 in Es. rewrite (Z.min_comm eb 0).
    rewrite <- Es in Hr |- *.
    apply sum_from_exact; [lia|exact Hr].
Qed.

(** C6 fails on two counts.  The computed sum is not the exact sum: one
    item of 10000000000000000000000000001 against a total of the same
    amount is reported incoherent, because [sum] rounds to 28 digits.  And
    with no item the verdict is not the comparison of 0 with the total: a
    total of 0,00 is reported incoherent. *)
Lemma C6_sum_rounded_or_not_compared :
  reconocer_factura factura_29_digitos
  = Ok ([mk_detalle 1 "Tornillo"
           (Some (Dec.DFin false 10000000000000000000000000001 0))
           (Dec.DFin false 10000000000000000000000000001 0)],
        Some (Dec.DFin false 10000000000000000000000000001 0),
        Dec.DFin false 1000000000000000000000000000 1)
  /\ suma_exacta [Dec.DFin false 10000000000000000000000000001 0]
     = (10000000000000000000000000001, 0)
  /\ procesar_factura factura_29_digitos
     = Ok (mk_registro (Some (Dec.DFin false 1000000000000000000000000000 1))
             (Some (Dec.DFin false 10000000000000000000000000001 0))
             false EmptyString)
  /\ reconocer_factura factura_sin_detalles
     = Ok ([], Some (Dec.DFin false 0 (-2)), Dec.DFin false 0 0)
  /\ Dec.eq (Dec.DFin false 0 0) (Dec.DFin false 0 (-2)) = Ok true
  /\ procesar_factura factura_sin_detalles = Ok no_resuelto.
Proof. vm_compute. repeat split. Qed.

(** C6, as the code has it: the verdict is evaluated only when there is a
    line item and a total; it is then the numeric equality of the computed
    sum and the total, with no tolerance, the computed sum being the sum of
    the amounts in the default decimal context.  When every partial sum
    fits in that context the computed sum is the exact sum, and the
    verdict says whether the exact sum equals the total. *)
Theorem C6_coherence (ds : list Detalle) (st : bool) (ct : N) (et : Z) :
  ds <> [] -> cabe (map d_Importe ds) ->
  let V := fst (suma_exacta (map d_Importe ds)) in
  let e := snd (suma_exacta (map d_Importe ds)) in
  let m := Z.min e et in
  (exists calc,
     total_de_detalles ds = Ok calc
     /\ Dec.is_finite calc = true /\ Dec.exponent calc = e
     /\ Dec.scaled e calc = V
     /\ validar (ds, Some (Dec.DFin st ct et), calc)
        = Ok (mk_registro (Some calc) (Some (Dec.DFin st ct et))
                (V * 10 ^ (e - m) =? Dec.signed st ct * 10 ^ (et - m)) EmptyString))
  /\ (forall ds' t calc,
        ds' <> [] ->
        validar (ds', Some t, calc)
        = (es_coherente <- Dec.eq calc t ;;
           Ok (mk_registro (Some calc) (Some t) es_coherente EmptyString)))
  /\ (forall total calc, validar ([], total, calc) = Ok no_resuelto)
  /\ (forall ds' calc, validar (ds', None, calc) = Ok no_resuelto).
Proof.
  intros Hne Hc V e m.
  split; [|split; [|split]].
  - destruct (sum_exact (map d_Importe ds)) as (s & c & Es & Ev).
    + now destruct ds.
    + exact Hc.
    + exists (Dec.DFin s c e). fold V in Ev. fold e in Es.
      assert (Ht : total_de_detalles ds = Ok (Dec.DFin s c e)).
      { destruct ds; [congruence|exact Es]. }
      repeat split; try assumption.
      * simpl. rewrite Z.sub_diag, Ev. change (10 ^ 0) with 1. lia.
      * destruct ds as [|d0 r0]; [congruence|].
        unfold validar, Dec.eq. simpl. fold m. now rewrite Ev.
  - intros ds' t calc Hne'. destruct ds'; [congruence|reflexivity].
  - reflexivity.
  - intros ds' calc. now destruct ds'.
Qed.

Lemma C6_coherence_witness :
  exists calc,
    total_de_detalles
      [mk_detalle 2 "Tornillo" (Some (Dec.DFin false 1050 (-2)))
         (Dec.DFin false 2100 (-2));
       mk_detalle 1 "Tuerca" None (Dec.DFin false 5 (-1))]
    = Ok calc
    /\ Dec.is_finite calc = true /\ Dec.exponent calc = -2
    /\ Dec.scaled (-2) calc = 2150
    /\ validar
         ([mk_detalle 2 "Tornillo" (Some (Dec.DFin false 1050 (-2)))
             (Dec.DFin false 2100 (-2));
           mk_detalle 1 "Tuerca" None (Dec.DFin false 5 (-1))],
          Some (Dec.DFin false 215 (-1)), calc)
       = Ok (mk_registro (Some calc) (Some (Dec.DFin false 215 (-1)))
               true EmptyString).
Proof.
  refine (proj1 (C6_coherence
                   [mk_detalle 2 "Tornillo" (Some (Dec.DFin false 1050 (-2)))
                      (Dec.DFin false 2100 (-2));
                    mk_detalle 1 "Tuerca" None (Dec.DFin false 5 (-1))]
                   false 215 (-1) _ _)).
  - discriminate.
  - vm_compute. repeat split; discriminate.
Defined.

Lemma C8_nearest_anchor_witness :
  exists c pos,
    columna_cercana (columnas con_encabezado) (mk_palabra "x" 200 130 10 12)
    = Ok c
    /\ In (c, pos) (columnas con_encabezado)
    /\ forall c' pos',
         In (c', pos') (columnas con_encabezado) ->
         Z.abs (200 - pos) <= Z.abs (200 - pos')
         /\ (Z.abs (200 - pos) = Z.abs (200 - pos') -> orden c <= orden c').
Proof.
  assert (H : recorrer vars_iniciales [encabezado_completo]
              = Ok con_encabezado) by (vm_compute; reflexivity).
  exact (proj1 (C8_nearest_anchor [encabezado_completo] con_encabezado []
                  H ltac:(discriminate))
           (mk_palabra "x" 200 130 10 12)).
Defined.

(** ** The scenarios of section 8 *)

Example escenario_A :
  paso vars_iniciales encabezado_completo = Ok con_encabezado.
Proof. vm_compute. reflexivity. Qed.

Example escenario_B_C :
  procesar_factura (factura_tornillo "21,00")
  = Ok (mk_registro (Some (Dec.DFin false 2100 (-2)))
          (Some (Dec.DFin false 2100 (-2))) true EmptyString).
Proof. vm_compute. reflexivity. Qed.

Example escenario_D :
  procesar_factura (factura_tornillo "25,00")
  = Ok (mk_registro (Some (Dec.DFin false 2100 (-2)))
          (Some (Dec.DFin false 2500 (-2))) false EmptyString).
Proof. vm_compute. reflexivity. Qed.

Example escenario_E :
  procesar_factura
    [ ocr "2" 12 130; ocr "Tornillo" 105 131; ocr "21,00" 401 130;
      ocr "Total" 300 200; ocr "21,00" 400 200 ]
  = Ok no_resuelto.
Proof. vm_compute. reflexivity. Qed.

Example empate_va_a_la_primera_columna :
  columna_cercana (columnas con_encabezado) (mk_palabra "x" 200 130 10 12)
  = Ok Descripcion.
Proof. vm_compute. reflexivity. Qed.

(** A Cant text that [float] reads as an infinity is not caught by the
    [except] clause: the [OverflowError] of [int] leaves the function. *)
Example cantidad_infinita :
  paso con_encabezado
    (fila_detalle (Some "inf") "Tornillo" (Some "10,50") "21,00")
  = Raise OverflowError
  /\ reconocer_factura
       [ ocr "Cant" 10 100; ocr "Descripción" 100 100; ocr "Importe" 400 100;
         ocr "inf" 12 130; ocr "Tornillo" 105 130; ocr "21,00" 401 130 ]
     = Raise OverflowError.
Proof. vm_compute. split; reflexivity. Qed.

(** X1: without a header nothing is extracted, not even a total: while no
    line makes the detection find a word, the variables keep their initial
    values. *)
Theorem sin_encabezado_nada (lineas : list (list palabra)) :
  (forall linea, In linea lineas ->
                 snd (detectar_columnas (texto_de linea) linea []) = false) ->
  recorrer vars_iniciales lineas = Ok vars_iniciales.
Proof.
  induction lineas as [|x r IH]; intros H; simpl; [reflexivity|].
  destruct (paso_buscando vars_iniciales x eq_refl) as [E|[E _]].
  - rewrite E. simpl. apply IH. intros l Hl. apply H. now right.
  - simpl in E. rewrite (H x (or_introl eq_refl)) in E. discriminate.
Qed.

Lemma sin_encabezado_nada_witness :
  recorrer vars_iniciales [linea_tornillo; linea_gracias]
  = Ok vars_iniciales.
Proof.
  apply sin_encabezado_nada.
  intros l [<-|[<-|[]]]; vm_compute; reflexivity.
Defined.

(** ** The line loop as a whole *)

Lemma paso_detalles_efecto (v v' : Vars) (linea : list palabra) :
  paso_detalles v linea = Ok v' -> efecto v linea v'.
Proof.
  unfold paso_detalles.
  destruct (estado_eqb (estado v) extrayendo_detalles) eqn:Es; simpl;
    [|intros [= <-]; now apply ef_nada].
  apply estado_eqb_eq in Es.
  destruct (columnas v) as [|c0 r0] eqn:Ec; simpl;
    [intros [= <-]; now apply ef_nada|].
  destruct (algun_alias (texto_de linea)) eqn:Ea;
    [intros [= <-]; now apply ef_nada|].
  unfold extraer_detalle. rewrite Ec.
  destruct (asignar (c0 :: r0) linea) as [dl|e] eqn:Eas; simpl;
    [|discriminate].
  destruct (consolidar dl) as [[d|]|e] eqn:Eco.
  - intros [= <-]. apply (ef_detalle v linea _ dl d); try assumption.
    + rewrite Ec. discriminate.
    + now rewrite Ec.
    + now rewrite Ec.
  - intros [= <-]. now apply ef_nada.
  - destruct (atrapada e); [|discriminate].
    intros [= <-]. now apply ef_nada.
Qed.

Lemma paso_efecto (v v' : Vars) (linea : list palabra) :
  paso v linea = Ok v' -> efecto v linea v'.
Proof.
  intros H. destruct (estado v) eqn:Es.
  - destruct (paso_buscando v linea Es) as [E|[Ef E]]; rewrite E in H;
      injection H as <-.
    + now apply ef_nada.
    + now apply ef_encabezado.
  - rewrite paso_resto in H by congruence. unfold paso_total in H.
    rewrite Es in H. simpl in H. rewrite andb_true_r in H.
    destruct (Str.contains "total" (texto_de linea)) eqn:Et;
      [|now apply paso_detalles_efecto].
    destruct (ultimo (montos_en_linea linea)) as [m|] eqn:Em;
      [|now apply paso_detalles_efecto].
    injection H as <-.
    apply (ef_total v linea _ m); try assumption; try reflexivity.
    congruence.
  - rewrite (paso_buscando_total v linea Es) in H. injection H as <-.
    destruct (Str.contains "total" (texto_de linea)) eqn:Et;
      [|now apply ef_nada].
    destruct (ultimo (montos_en_linea linea)) as [m|] eqn:Em;
      [|now apply ef_nada].
    apply (ef_total v linea _ m); try assumption; try reflexivity.
    congruence.
Qed.

Lemma recorrer_ind_efecto (P : Vars -> Prop) :
  (forall v linea v', P v -> efecto v linea v' -> P v') ->
  forall lineas v v', P v -> recorrer v lineas = Ok v' -> P v'.
Proof.
  intros Hstep. induction lineas as [|x r IH]; intros v v' Hv; simpl.
  - now intros [= <-].
  - destruct (paso v x) as [v1|e] eqn:E; simpl; [|discriminate].
    intros H. apply (IH v1 v'); [|exact H].
    apply (Hstep v x v1 Hv). now apply paso_efecto.
Qed.

Lemma efecto_rango (v : Vars) (linea : list palabra) (v' : Vars) :
  efecto v linea v' -> rango (estado v) <= rango (estado v').
Proof.
  intros [->|Hs _ ->|m Hs _ _ ->|dl d Hs _ _ _ _ ->]; simpl; try lia.
  - rewrite Hs. simpl. lia.
  - destruct (estado v); simpl; lia.
Qed.

Lemma efecto_total_hallado (v : Vars) (linea : list palabra) (v' : Vars) :
  total_hallado v -> efecto v linea v' -> total_hallado v'.
Proof.
  unfold total_hallado.
  intros Hi [->|Hs _ ->|m Hs _ _ ->|dl d Hs _ _ _ _ ->]; simpl.
  - exact Hi.
  - split; [|discriminate]. intros H. apply Hi in H. congruence.
  - split; [reflexivity|discriminate].
  - exact Hi.
Qed.

(** X3: the state only moves forward, from seeking the columns to
    extracting details to total found, and at every moment a total has
    been recorded exactly when the state is the last one; a recorded
    total is never lost. *)
Theorem estado_avanza (pre post : list (list palabra)) (v1 v2 : Vars) :
  recorrer vars_iniciales pre = Ok v1 ->
  recorrer v1 post = Ok v2 ->
  rango (estado v1) <= rango (estado v2)
  /\ (total_factura v1 <> None <-> estado v1 = buscando_total)
  /\ (total_factura v2 <> None <-> estado v2 = buscando_total)
  /\ (total_factura v1 <> None -> total_factura v2 <> None).
Proof.
  intros H1 H2.
  assert (I1 : total_hallado v1).
  { apply (recorrer_ind_efecto total_hallado efecto_total_hallado
             pre vars_iniciales v1); [|exact H1].
    split; simpl; [congruence|discriminate]. }
  assert (I2 : total_hallado v2).
  { apply (recorrer_ind_efecto total_hallado efecto_total_hallado
             post v1 v2 I1 H2). }
  assert (R : rango (estado v1) <= rango (estado v2)).
  { apply (recorrer_ind_efecto
             (fun v => rango (estado v1) <= rango (estado v))
             (fun v l v' Hv He =>
                Z.le_trans _ _ _ Hv (efecto_rango v l v' He))
             post v1 v2); [lia|exact H2]. }
  repeat split; try apply I1; try apply I2; try exact R.
  intros Ht. apply I2. apply I1 in Ht. rewrite Ht in R.
  destruct (estado v2); simpl in R; (reflexivity || lia).
Qed.

Lemma estado_avanza_witness :
  rango (estado con_encabezado)
  <= rango (estado
              (mk_vars
                 [mk_detalle 2 "Tornillo" (Some (Dec.DFin false 1050 (-2)))
                    (Dec.DFin false 2100 (-2))]
                 (Some (Dec.DFin false 2100 (-2)))
                 (columnas con_encabezado) buscando_total)).
Proof.
  refine (proj1 (estado_avanza [encabezado_completo]
                   [fila_detalle (Some "2") "Tornillo" (Some "10,50")
                      "21,00"; linea_total_21]
                   con_encabezado _ _ _));
    vm_compute; reflexivity.
Defined.

Lemma efecto_detalles (v : Vars) (linea : list palabra) (v' : Vars) :
  efecto v linea v' ->
  detalles v' = detalles v
  \/ exists dl d,
       estado v = extrayendo_detalles /\ columnas v <> []
       /\ algun_alias (texto_de linea) = false
       /\ asignar (columnas v) linea = Ok dl
       /\ consolidar dl = Ok (Some d)
       /\ detalles v' = (detalles v ++ [d])%list.
Proof.
  intros [->|_ _ ->|m _ _ _ ->|dl d Hs Hc Ha Has Hco ->]; simpl; auto.
  right. exists dl, d. auto 10.
Qed.

(** X4: the list of line items only grows at its end, by at most one item
    per line read, so the items stay in the order of their lines. *)
Theorem detalles_crecen (lineas : list (list palabra)) (v v' : Vars) :
  recorrer v lineas = Ok v' ->
  exists nuevos,
    detalles v' = (detalles v ++ nuevos)%list
    /\ (List.length nuevos <= List.length lineas)%nat.
Proof.
  revert v. induction lineas as [|x r IH]; intros v; simpl.
  - intros [= <-]. exists []. split; [now rewrite app_nil_r|reflexivity].
  - destruct (paso v x) as [v1|e] eqn:E; simpl; [|discriminate].
    intros H. destruct (IH v1 H) as (n1 & E1 & L1).
    apply paso_efecto, efecto_detalles in E.
    destruct E as [E|(dl & d & _ & _ & _ & _ & _ & E)]; rewrite E in E1.
    + exists n1. split; [exact E1|lia].
    + exists (d :: n1). split; [now rewrite <- app_assoc in E1|simpl; lia].
Qed.

Lemma detalles_crecen_witness :
  exists nuevos,
    [mk_detalle 2 "Tornillo" (Some (Dec.DFin false 1050 (-2)))
       (Dec.DFin false 2100 (-2))]
    = (detalles con_encabezado ++ nuevos)%list
    /\ (List.length nuevos <= 2)%nat.
Proof.
  refine (detalles_crecen
            [fila_detalle (Some "2") "Tornillo" (Some "10,50") "21,00";
             linea_total_21]
            con_encabezado
            (mk_vars
               [mk_detalle 2 "Tornillo" (Some (Dec.DFin false 1050 (-2)))
                  (Dec.DFin false 2100 (-2))]
               (Some (Dec.DFin false 2100 (-2)))
               (columnas con_encabezado) buscando_total) _).
  vm_compute. reflexivity.
Defined.

(** X5: a line whose lower-cased text contains any alias of the column
    table ("cant", "total", "valor", "precio", "producto", ...) is read
    without an exception and never yields a line item, in any state. *)
Theorem linea_con_alias_sin_detalle (v : Vars) (linea : list palabra) :
  algun_alias (texto_de linea) = true ->
  exists v', paso v linea = Ok v' /\ detalles v' = detalles v.
Proof.
  intros Ha. destruct (estado v) eqn:Es.
  - destruct (paso_buscando v linea Es) as [E|[_ E]]; rewrite E; eauto.
  - rewrite paso_resto by congruence. unfold paso_total.
    assert (Hd : paso_detalles v linea = Ok v).
    { unfold paso_detalles. rewrite Ha.
      now destruct (estado_eqb (estado v) extrayendo_detalles
                    && no_vacio (columnas v)). }
    rewrite Hd.
    destruct (Str.contains "total" (texto_de linea)
              && negb (estado_eqb (estado v) buscando_columnas)); eauto.
    destruct (ultimo (montos_en_linea linea)); eauto.
  - rewrite (paso_buscando_total v linea Es).
    eexists. split; [reflexivity|].
    destruct (Str.contains "total" (texto_de linea)); [|reflexivity].
    now destruct (ultimo (montos_en_linea linea)).
Qed.

Lemma linea_con_alias_sin_detalle_witness :
  exists v',
    paso con_encabezado
      (fila_detalle (Some "2") "Cantimplora" (Some "10,50") "21,00")
    = Ok v'
    /\ detalles v' = detalles con_encabezado.
Proof.
  apply linea_con_alias_sin_detalle. vm_compute. reflexivity.
Defined.

Lemma textos_cercanos_In (cols : list (Columna * Z)) (c : Columna)
    (linea : list palabra) (t : string) :
  In t (textos_cercanos cols c linea) -> In t (map p_text linea).
Proof.
  unfold textos_cercanos. rewrite !in_map_iff.
  intros (p & <- & Hp). apply filter_In in Hp. exists p. now split.
Qed.

(** What an emitted item owes to its line. *)
Lemma consolidar_origen (cols : list (Columna * Z)) (linea : list palabra)
    (dl : list (Columna * list string)) (d : Detalle) :
  cols <> [] -> asignar cols linea = Ok dl -> consolidar dl = Ok (Some d) ->
  d_Descripcion d <> EmptyString
  /\ d_Descripcion d = Str.join " " (textos_cercanos cols Descripcion linea)
  /\ exists t, In t (map p_text linea)
               /\ normalizar_monto t = Some (d_Importe d).
Proof.
  intros Hne Ha Hc.
  destruct (asignar_spec cols linea Hne) as (dl' & Ha' & Hdl).
  assert (dl' = dl) as -> by congruence.
  apply consolidar_Some in Hc.
  destruct Hc as (cs & ps & it & _ & _ & H3 & _ & H5 & H6 & H7 & _).
  rewrite (primero_textos _ _ _ Importe Hdl) in H3.
  unfold descripcion_de in *. rewrite (Hdl Descripcion) in *.
  split; [|split].
  - rewrite H6. now apply nonempty_true.
  - rewrite H6.
    destruct (dict_get columna_eqb cols Descripcion); [reflexivity|].
    simpl in H5. discriminate.
  - exists it. split; [|exact H7].
    destruct (dict_get columna_eqb cols Importe); [|discriminate].
    destruct (textos_cercanos cols Importe linea) as [|t r] eqn:Et;
      [discriminate|].
    injection H3 as <-.
    apply (textos_cercanos_In cols Importe). rewrite Et. now left.
Qed.

Lemma textos_de_cons (x : list palabra) (r : list (list palabra)) :
  textos_de (x :: r) = (map p_text x ++ textos_de r)%list.
Proof. unfold textos_de. simpl. now rewrite map_app. Qed.

(** X6: every line item of the result has a description that is not
    empty, and its amount is what the normaliser makes of the text of a
    word of the document. *)
Theorem detalles_validos (lineas : list (list palabra)) (v : Vars) :
  recorrer vars_iniciales lineas = Ok v ->
  Forall (fun d =>
            d_Descripcion d <> EmptyString
            /\ exists t, In t (textos_de lineas)
                         /\ normalizar_monto t = Some (d_Importe d))
         (detalles v).
Proof.
  assert (G : forall ls v0 v1 T,
             Forall (fun d =>
                       d_Descripcion d <> EmptyString
                       /\ exists t, In t T
                                    /\ normalizar_monto t
                                       = Some (d_Importe d))
                    (detalles v0) ->
             recorrer v0 ls = Ok v1 ->
             Forall (fun d =>
                       d_Descripcion d <> EmptyString
                       /\ exists t, In t (T ++ textos_de ls)%list
                                    /\ normalizar_monto t
                                       = Some (d_Importe d))
                    (detalles v1)).
  { induction ls as [|x r IH]; intros v0 v1 T H0; simpl.
    - intros [= <-]. unfold textos_de. simpl. now rewrite app_nil_r.
    - destruct (paso v0 x) as [v0'|e] eqn:E; simpl; [|discriminate].
      intros H. rewrite textos_de_cons, app_assoc.
      apply (IH v0' v1 (T ++ map p_text x)%list); [|exact H].
      assert (H0' : Forall (fun d =>
                              d_Descripcion d <> EmptyString
                              /\ exists t, In t (T ++ map p_text x)%list
                                           /\ normalizar_monto t
                                              = Some (d_Importe d))
                           (detalles v0)).
      { eapply Forall_impl; [|exact H0].
        intros d (Hd & t & Ht & Hn). split; [exact Hd|].
        exists t. split; [apply in_or_app; now left|exact Hn]. }
      apply paso_efecto, efecto_detalles in E.
      destruct E as [->|(dl & d & _ & Hc & _ & Ha & Hco & ->)];
        [exact H0'|].
      apply Forall_app. split; [exact H0'|].
      constructor; [|constructor].
      destruct (consolidar_origen _ _ _ _ Hc Ha Hco) as (D1 & _ & t & Ht & Hn).
      split; [exact D1|]. exists t.
      split; [apply in_or_app; now right|exact Hn]. }
  intros H. apply (G lineas vars_iniciales v [] (Forall_nil _) H).
Qed.

Lemma detalles_validos_witness :
  Forall (fun d =>
            d_Descripcion d <> EmptyString
            /\ exists t,
                 In t (textos_de
                         [encabezado_completo;
                          fila_detalle (Some "2") "Tornillo" (Some "10,50")
                            "21,00"])
                 /\ normalizar_monto t = Some (d_Importe d))
         [mk_detalle 2 "Tornillo" (Some (Dec.DFin false 1050 (-2)))
            (Dec.DFin false 2100 (-2))].
Proof.
  refine (detalles_validos
            [encabezado_completo;
             fila_detalle (Some "2") "Tornillo" (Some "10,50") "21,00"]
            (mk_vars
               [mk_detalle 2 "Tornillo" (Some (Dec.DFin false 1050 (-2)))
                  (Dec.DFin false 2100 (-2))]
               None (columnas con_encabezado) extrayendo_detalles) _).
  vm_compute. reflexivity.
Defined.

(** ** Exceptions that can leave the functions *)

Lemma int_of_float_str_raise (s : string) (e : excepcion) :
  PyFloat.int_of_float_str s = Raise e -> e = ValueError \/ e = OverflowError.
Proof.
  unfold PyFloat.int_of_float_str.
  destruct (PyFloat.parse s) as [[neg m x| |]|]; try (intros [= <-]; auto).
  destruct (m =? 0)%N; [discriminate|].
  destruct (if 0 <=? x then (Z.of_N m * 10 ^ x, 1)
            else (Z.of_N m, 10 ^ (- x))) as [n d].
  destruct (PyFloat.round_b64 n d) as [[q k]|]; [discriminate|].
  intros [= <-]. auto.
Qed.

Lemma consolidar_raise (dl : list (Columna * list string)) (e : excepcion) :
  consolidar dl = Raise e -> atrapada e = true \/ e = OverflowError.
Proof.
  unfold consolidar.
  destruct (primero dl Cant) as [cs|e1] eqn:E1; simpl;
    [|intros [= <-]; left; now rewrite (primero_raise _ _ _ E1)].
  destruct (primero dl PUnit) as [ps|e2] eqn:E2; simpl;
    [|intros [= <-]; left; now rewrite (primero_raise _ _ _ E2)].
  destruct (primero dl Importe) as [imp|e3] eqn:E3; simpl;
    [|intros [= <-]; left; now rewrite (primero_raise _ _ _ E3)].
  destruct (verdadero imp && _); [|discriminate].
  destruct (normalizar_monto (texto_o_vacio imp)); [|discriminate].
  destruct (verdadero cs); simpl; [|discriminate].
  destruct (PyFloat.int_of_float_str
              (Str.replace_char "," "." (texto_o_vacio cs)))
    as [q|e4] eqn:E4; simpl; [discriminate|].
  intros [= <-]. apply int_of_float_str_raise in E4.
  destruct E4 as [->| ->]; auto.
Qed.

Lemma asignar_ok (cols : list (Columna * Z)) (linea : list palabra) :
  cols <> [] -> exists dl, asignar cols linea = Ok dl.
Proof.
  intros Hne. destruct (asignar_spec cols linea Hne) as (dl & H & _).
  now exists dl.
Qed.

Lemma paso_raise (v : Vars) (linea : list palabra) (e : excepcion) :
  paso v linea = Raise e -> e = OverflowError.
Proof.
  assert (Hd : paso_detalles v linea = Raise e -> e = OverflowError).
  { unfold paso_detalles.
    destruct (estado_eqb (estado v) extrayendo_detalles); simpl;
      [|discriminate].
    destruct (columnas v) as [|c0 r0] eqn:Ec; simpl; [discriminate|].
    destruct (algun_alias (texto_de linea)); [discriminate|].
    unfold extraer_detalle. rewrite Ec.
    destruct (asignar_ok (c0 :: r0) linea ltac:(discriminate)) as [dl Ha].
    rewrite Ha. simpl.
    destruct (consolidar dl) as [[d|]|e1] eqn:Eco; try discriminate.
    destruct (atrapada e1) eqn:Eat; [discriminate|].
    intros [= <-]. apply consolidar_raise in Eco.
    destruct Eco as [Eco|Eco]; congruence. }
  destruct (estado v) eqn:Es.
  - destruct (paso_buscando v linea Es) as [E|[_ E]]; rewrite E;
      discriminate.
  - rewrite paso_resto by congruence. unfold paso_total.
    destruct (Str.contains "total" (texto_de linea)
              && negb (estado_eqb (estado v) buscando_columnas));
      [|exact Hd].
    destruct (ultimo (montos_en_linea linea)); [discriminate|exact Hd].
  - rewrite (paso_buscando_total v linea Es). discriminate.
Qed.

Lemma recorrer_raise (lineas : list (list palabra)) :
  forall v e, recorrer v lineas = Raise e -> e = OverflowError.
Proof.
  induction lineas as [|x r IH]; intros v e; simpl; [discriminate|].
  destruct (paso v x) as [v1|e1] eqn:E; simpl.
  - apply IH.
  - intros [= <-]. now apply paso_raise in E.
Qed.

Lemma fix_fin_raise (s : bool) (c : N) (x : Z) (e : excepcion) :
  Dec.fix_fin s c x = Raise e -> e = DecimalOverflow.
Proof.
  unfold Dec.fix_fin.
  destruct (c =? 0)%N; [discriminate|].
  destruct (_ <? _); [now intros [= <-]|].
  destruct (_ <? _); [|discriminate].
  destruct (if Dec.prec <? _ then _ else _) as [q1 e1].
  destruct (_ <? e1); [now intros [= <-]|discriminate].
Qed.

Lemma add_raise (a b : Dec.Decimal) (e : excepcion) :
  Dec.add a b = Raise e -> e = InvalidOperation \/ e = DecimalOverflow.
Proof.
  unfold Dec.add.
  destruct a as [sa ca ea|sa|sa [|] da], b as [sb cb eb|sb|sb [|] db];
    try (intros [= <-]; auto); try discriminate.
  - repeat match goal with
           | |- (if ?c then _ else _) = _ -> _ => destruct c
           end;
      intros H; right; eapply fix_fin_raise; exact H.
  - destruct (Bool.eqb sa sb); [discriminate|]. intros [= <-]. auto.
Qed.

Lemma sum_from_raise (l : list Dec.Decimal) :
  forall acc e,
    Dec.sum_from acc l = Raise e ->
    e = InvalidOperation \/ e = DecimalOverflow.
Proof.
  induction l as [|d r IH]; intros acc e; simpl; [discriminate|].
  destruct (Dec.add acc d) as [a1|e1] eqn:E; simpl.
  - apply IH.
  - intros [= <-]. now apply add_raise in E.
Qed.

Lemma total_de_detalles_raise (ds : list Detalle) (e : excepcion) :
  total_de_detalles ds = Raise e ->
  e = InvalidOperation \/ e = DecimalOverflow.
Proof.
  destruct ds as [|d r]; simpl; [discriminate|].
  destruct (Dec.add (d_Importe d) Dec.zero) as [a1|e1] eqn:E; simpl.
  - apply sum_from_raise.
  - intros [= <-]. now apply add_raise in E.
Qed.

Lemma eq_raise (a b : Dec.Decimal) (e : excepcion) :
  Dec.eq a b = Raise e -> e = InvalidOperation.
Proof.
  destruct a as [sa ca ea|sa|sa [|] da], b as [sb cb eb|sb|sb [|] db];
    simpl; try discriminate; now intros [= <-].
Qed.

(** The body without what it prints is the body with a printer that
    never fails; a printer can only turn an entry into an exception. *)
Lemma cuerpo_documento_validar (mostrar : impresor) (data : list fila) :
  cuerpo_documento mostrar data
  = (r <- reconocer_factura data ;;
     reg <- validar r ;;
     let '(ds, total, calc) := r in
     match ds, total with
     | _ :: _, Some t => hecho <- mostrar ds calc t (Coherente reg) ;; Ok reg
     | _, _ => Ok reg
     end).
Proof.
  unfold cuerpo_documento.
  destruct (reconocer_factura data) as [[[ds total] calc]|e]; simpl;
    [|reflexivity].
  destruct ds as [|d r]; [reflexivity|].
  destruct total as [t|]; [|reflexivity].
  destruct (Dec.eq calc t) as [b|e]; reflexivity.
Qed.

Lemma cuerpo_documento_ok (mostrar : impresor) (data : list fila)
    (reg : Registro) :
  cuerpo_documento mostrar data = Ok reg -> procesar_factura data = Ok reg.
Proof.
  unfold cuerpo_documento, procesar_factura, validar.
  destruct (reconocer_factura data) as [[[ds total] calc]|e];
    cbn [bind]; [|discriminate].
  destruct ds as [|d r]; [easy|].
  destruct total as [t|]; [|easy].
  destruct (Dec.eq calc t) as [b|e]; cbn [bind]; [|discriminate].
  destruct (mostrar (d :: r) calc t b) as [[]|e]; cbn [bind];
    [easy|discriminate].
Qed.

Lemma procesar_factura_raise (mostrar : impresor) (data : list fila)
    (e : excepcion) :
  procesar_factura data = Raise e -> cuerpo_documento mostrar data = Raise e.
Proof.
  unfold cuerpo_documento, procesar_factura, validar.
  destruct (reconocer_factura data) as [[[ds total] calc]|e0];
    cbn [bind]; [|easy].
  destruct ds as [|d r]; [discriminate|].
  destruct total as [t|]; [|discriminate].
  destruct (Dec.eq calc t) as [b|e1]; cbn [bind]; [discriminate|easy].
Qed.

Lemma cuerpo_documento_sin_fallo (mostrar : impresor) (data : list fila) :
  (forall ds calc t b, mostrar ds calc t b = Ok tt) ->
  cuerpo_documento mostrar data = procesar_factura data.
Proof.
  intros H. unfold cuerpo_documento, procesar_factura, validar.
  destruct (reconocer_factura data) as [[[ds total] calc]|e];
    cbn [bind]; [|reflexivity].
  destruct ds as [|d r]; [reflexivity|].
  destruct total as [t|]; [|reflexivity].
  destruct (Dec.eq calc t) as [b|e]; cbn [bind]; [|reflexivity].
  now rewrite H.
Qed.

(** X7: an exception that leaves the processing of a document comes from
    one of four steps, taken in this order.  The line loop: the
    conversions made on a detail line have all their exceptions caught
    except [OverflowError], the only one that leaves the loop.  The sum of
    the amounts: a signal of the decimal context, [InvalidOperation] or
    [Overflow].  The comparison of the sum with the total, reached only
    with a detail and a total: [InvalidOperation].  The lines that show
    the result, reached only when the comparison gave a verdict: whatever
    they raise.  No [ValueError] and no [IndexError] comes from the first
    three. *)
Theorem excepciones_posibles (mostrar : impresor) (data : list fila)
    (e : excepcion) :
  cuerpo_documento mostrar data = Raise e ->
  (recorrer vars_iniciales (lineas_de data) = Raise e /\ e = OverflowError)
  \/ (exists v,
        recorrer vars_iniciales (lineas_de data) = Ok v
        /\ ((total_de_detalles (detalles v) = Raise e
             /\ (e = InvalidOperation \/ e = DecimalOverflow))
            \/ (exists calc t,
                  total_de_detalles (detalles v) = Ok calc
                  /\ detalles v <> [] /\ total_factura v = Some t
                  /\ ((Dec.eq calc t = Raise e /\ e = InvalidOperation)
                      \/ (exists b,
                            Dec.eq calc t = Ok b
                            /\ mostrar (detalles v) calc t b = Raise e))))).
Proof.
  unfold cuerpo_documento, reconocer_factura.
  destruct (recorrer vars_iniciales (lineas_de data)) as [v|e1] eqn:E; simpl.
  - intros H. right. exists v. split; [reflexivity|].
    destruct (total_de_detalles (detalles v)) as [calc|e2] eqn:Et; simpl in H.
    + right. exists calc.
      destruct (detalles v) as [|d r] eqn:Ed; [discriminate|].
      destruct (total_factura v) as [t|]; [|discriminate].
      exists t. repeat split; [discriminate|].
      destruct (Dec.eq calc t) as [b|e3] eqn:Eq; simpl in H.
      * right. exists b. split; [reflexivity|].
        destruct (mostrar (d :: r) calc t b) as [[]|e4]; simpl in H;
          [discriminate|]. now injection H as <-.
      * injection H as <-. left. split; [reflexivity|].
        now apply eq_raise in Eq.
    + injection H as <-. left. split; [reflexivity|].
      now apply total_de_detalles_raise in Et.
  - intros [= <-]. left. split; [reflexivity|].
    now apply recorrer_raise in E.
Qed.

Lemma excepciones_posibles_witness :
  let data := [ ocr "Descripción" 100 100; ocr "Importe" 400 100;
                ocr "Tornillo" 105 130; ocr "sNaN" 401 130 ] in
  let e := InvalidOperation in
  (recorrer vars_iniciales (lineas_de data) = Raise e /\ e = OverflowError)
  \/ (exists v,
        recorrer vars_iniciales (lineas_de data) = Ok v
        /\ ((total_de_detalles (detalles v) = Raise e
             /\ (e = InvalidOperation \/ e = DecimalOverflow))
            \/ (exists calc t,
                  total_de_detalles (detalles v) = Ok calc
                  /\ detalles v <> [] /\ total_factura v = Some t
                  /\ ((Dec.eq calc t = Raise e /\ e = InvalidOperation)
                      \/ (exists b,
                            Dec.eq calc t = Ok b
                            /\ mostrar_todo (detalles v) calc t b
                               = Raise e))))).
Proof.
  apply (excepciones_posibles mostrar_todo). vm_compute. reflexivity.
Defined.

(** The four steps on sample documents: an infinite quantity stops the
    line loop, a signalling NaN amount stops the sum, a signalling NaN
    total stops the comparison, and a printer that fails on a signalling
    NaN unit price stops a document that the comparison found coherent. *)
Example excepcion_en_cada_paso :
  cuerpo_documento mostrar_todo
    [ ocr "Cant" 10 100; ocr "Descripción" 100 100; ocr "Importe" 400 100;
      ocr "inf" 12 130; ocr "Tornillo" 105 130; ocr "21,00" 401 130 ]
  = Raise OverflowError
  /\ cuerpo_documento mostrar_todo
       [ ocr "Descripción" 100 100; ocr "Importe" 400 100;
         ocr "Tornillo" 105 130; ocr "sNaN" 401 130 ]
     = Raise InvalidOperation
  /\ cuerpo_documento mostrar_todo
       [ ocr "Descripción" 100 100; ocr "Importe" 400 100;
         ocr "Tornillo" 105 130; ocr "21,00" 401 130;
         ocr "Total" 100 160; ocr "sNaN" 401 160 ]
     = Raise InvalidOperation
  /\ procesar_factura factura_precio_snan
     = Ok (mk_registro (Some (Dec.DFin false 2100 (-2)))
             (Some (Dec.DFin false 2100 (-2))) true EmptyString)
  /\ cuerpo_documento mostrar_estricto factura_precio_snan
     = Raise InvalidOperation.
Proof. vm_compute. repeat split. Qed.

(** ** Columns that a detail line cannot do without *)

Lemma consolidar_sin_ancla (cols : list (Columna * Z))
    (linea : list palabra) (dl : list (Columna * list string)) :
  cols <> [] -> asignar cols linea = Ok dl ->
  dict_get columna_eqb cols Importe = None
  \/ dict_get columna_eqb cols Descripcion = None ->
  consolidar dl = Ok None \/ consolidar dl = Raise IndexError.
Proof.
  intros Hne Ha Hno.
  destruct (asignar_spec cols linea Hne) as (dl' & Ha' & Hdl).
  assert (dl' = dl) as -> by congruence.
  unfold consolidar.
  destruct (primero dl Cant) as [cs|e1] eqn:E1; simpl;
    [|right; now rewrite (primero_raise _ _ _ E1)].
  destruct (primero dl PUnit) as [ps|e2] eqn:E2; simpl;
    [|right; now rewrite (primero_raise _ _ _ E2)].
  destruct (primero dl Importe) as [imp|e3] eqn:E3; simpl;
    [|right; now rewrite (primero_raise _ _ _ E3)].
  left. destruct Hno as [Hno|Hno].
  - rewrite (primero_textos _ _ _ Importe Hdl), Hno in E3.
    injection E3 as <-. reflexivity.
  - rewrite (Hdl Descripcion), Hno. simpl. now rewrite andb_false_r.
Qed.

Lemma paso_sin_ancla (v : Vars) (linea : list palabra) :
  estado v <> buscando_columnas ->
  dict_get columna_eqb (columnas v) Importe = None
  \/ dict_get columna_eqb (columnas v) Descripcion = None ->
  exists v', paso v linea = Ok v'
             /\ detalles v' = detalles v /\ columnas v' = columnas v
             /\ estado v' <> buscando_columnas.
Proof.
  intros Hs Hno. rewrite paso_resto by exact Hs.
  assert (Hd : paso_detalles v linea = Ok v).
  { unfold paso_detalles.
    destruct (estado_eqb (estado v) extrayendo_detalles); simpl;
      [|reflexivity].
    destruct (columnas v) as [|c0 r0] eqn:Ec; simpl; [reflexivity|].
    destruct (algun_alias (texto_de linea)); [reflexivity|].
    unfold extraer_detalle. rewrite Ec.
    destruct (asignar_ok (c0 :: r0) linea ltac:(discriminate)) as [dl Ha].
    rewrite Ha. simpl.
    destruct (consolidar_sin_ancla (c0 :: r0) linea dl
                ltac:(discriminate) Ha Hno) as [-> | ->]; reflexivity. }
  unfold paso_total. rewrite Hd.
  destruct (Str.contains "total" (texto_de linea)
            && negb (estado_eqb (estado v) buscando_columnas)).
  - destruct (ultimo (montos_en_linea linea)).
    + eexists. split; [reflexivity|]. simpl. repeat split. discriminate.
    + exists v. auto.
  - exists v. auto.
Qed.

(** X8: when the header gave no anchor to Importe, or none to Descripción,
    the rest of the document is read without an exception and yields no
    line item. *)
Theorem sin_importe_o_descripcion (lineas : list (list palabra)) (v : Vars) :
  estado v <> buscando_columnas ->
  dict_get columna_eqb (columnas v) Importe = None
  \/ dict_get columna_eqb (columnas v) Descripcion = None ->
  exists v', recorrer v lineas = Ok v' /\ detalles v' = detalles v.
Proof.
  revert v. induction lineas as [|x r IH]; intros v Hs Hno; simpl.
  - now exists v.
  - destruct (paso_sin_ancla v x Hs Hno) as (v1 & E & Hd & Hc & Hs1).
    rewrite E. simpl.
    destruct (IH v1 Hs1) as (v' & E' & Hd'); [now rewrite Hc|].
    exists v'. split; [exact E'|congruence].
Qed.

Lemma sin_importe_o_descripcion_witness :
  exists v',
    recorrer
      (mk_vars [] None [(Cant, 10); (Descripcion, 100); (PUnit, 300)]
         extrayendo_detalles)
      [fila_detalle (Some "2") "Tornillo" (Some "10,50") "21,00"]
    = Ok v'
    /\ detalles v' = [].
Proof.
  apply (sin_importe_o_descripcion
           [fila_detalle (Some "2") "Tornillo" (Some "10,50") "21,00"]
           (mk_vars [] None [(Cant, 10); (Descripcion, 100); (PUnit, 300)]
              extrayendo_detalles)).
  - discriminate.
  - left. reflexivity.
Defined.

(** X9: a detail line on which an anchored Cant, P.Unit or Importe column
    is the nearest anchor of no word is dropped: the [IndexError] of the
    empty list is caught and nothing is emitted. *)
Theorem columna_sin_palabra (v : Vars) (linea : list palabra) (c : Columna)
    (pos : Z) :
  c <> Descripcion ->
  dict_get columna_eqb (columnas v) c = Some pos ->
  textos_cercanos (columnas v) c linea = [] ->
  extraer_detalle v linea = Ok v.
Proof.
  intros Hc Hp Ht.
  assert (Hne : columnas v <> []).
  { intros E. rewrite E in Hp. discriminate. }
  destruct (asignar_spec (columnas v) linea Hne) as (dl & Ha & Hdl).
  unfold extraer_detalle. rewrite Ha. simpl.
  assert (Hraise : primero dl c = Raise IndexError).
  { rewrite (primero_textos _ _ _ c Hdl), Hp, Ht. reflexivity. }
  assert (Hco : consolidar dl = Raise IndexError).
  { unfold consolidar.
    destruct (primero dl Cant) as [cs|e1] eqn:E1; simpl;
      [|now rewrite (primero_raise _ _ _ E1)].
    destruct (primero dl PUnit) as [ps|e2] eqn:E2; simpl;
      [|now rewrite (primero_raise _ _ _ E2)].
    destruct (primero dl Importe) as [imp|e3] eqn:E3; simpl;
      [|now rewrite (primero_raise _ _ _ E3)].
    destruct c; congruence. }
  now rewrite Hco.
Qed.

Lemma columna_sin_palabra_witness :
  extraer_detalle con_encabezado
    (fila_detalle (Some "2") "Tornillo" None "21,00")
  = Ok con_encabezado.
Proof.
  apply (columna_sin_palabra con_encabezado
           (fila_detalle (Some "2") "Tornillo" None "21,00") PUnit 300).
  - discriminate.
  - reflexivity.
  - vm_compute. reflexivity.
Defined.

(** X2: on a detail line that would otherwise be emitted, a
    first Cant text that [int(float())] refuses with [OverflowError]
    makes the line, and with it the whole function, raise. *)
Theorem cantidad_desbordada (v : Vars) (linea : list palabra)
    (posc posi posd : Z) (t it : string) (restc resti : list string)
    (importe : Dec.Decimal) :
  dict_get columna_eqb (columnas v) Cant = Some posc ->
  textos_cercanos (columnas v) Cant linea = t :: restc ->
  Str.nonempty t = true ->
  PyFloat.int_of_float_str (Str.replace_char "," "." t)
  = Raise OverflowError ->
  (dict_get columna_eqb (columnas v) PUnit = None
   \/ textos_cercanos (columnas v) PUnit linea <> []) ->
  dict_get columna_eqb (columnas v) Importe = Some posi ->
  textos_cercanos (columnas v) Importe linea = it :: resti ->
  normalizar_monto it = Some importe ->
  dict_get columna_eqb (columnas v) Descripcion = Some posd ->
  Str.nonempty (Str.join " " (textos_cercanos (columnas v) Descripcion linea))
  = true ->
  extraer_detalle v linea = Raise OverflowError
  /\ (estado v = extrayendo_detalles ->
      algun_alias (texto_de linea) = false ->
      Str.contains "total" (texto_de linea) = false ->
      forall resto, recorrer v (linea :: resto) = Raise OverflowError).
Proof.
  intros Hc1 Hc2 Hc3 Hc4 Hu Hi1 Hi2 Hi3 Hd1 Hd2.
  assert (Hne : columnas v <> []).
  { intros E. rewrite E in Hc1. discriminate. }
  destruct (asignar_spec (columnas v) linea Hne) as (dl & Ha & Hdl).
  assert (Hit : Str.nonempty it = true).
  { destruct it; [|reflexivity]. vm_compute in Hi3. discriminate. }
  assert (He : extraer_detalle v linea = Raise OverflowError).
  { unfold extraer_detalle. rewrite Ha. simpl. unfold consolidar.
    rewrite (primero_textos _ _ _ Cant Hdl),
            (primero_textos _ _ _ PUnit Hdl),
            (primero_textos _ _ _ Importe Hdl).
    rewrite Hc1, Hc2, Hi1, Hi2, (Hdl Descripcion), Hd1. simpl.
    rewrite Hd2.
    assert (Hps : exists ps,
               match dict_get columna_eqb (columnas v) PUnit with
               | Some _ =>
                   match textos_cercanos (columnas v) PUnit linea with
                   | [] => Raise IndexError
                   | t0 :: _ => Ok (Some t0)
                   end
               | None => Ok None
               end = Ok ps).
    { destruct (dict_get columna_eqb (columnas v) PUnit);
        [|now exists None].
      destruct (textos_cercanos (columnas v) PUnit linea) as [|t0 r0];
        [|now exists (Some t0)].
      destruct Hu as [Hu|Hu]; congruence. }
    destruct Hps as [ps ->]. simpl.
    rewrite Hit, Hi3. simpl. now rewrite Hc3, Hc4. }
  split; [exact He|].
  intros Hs Hal Hto resto. simpl.
  rewrite paso_resto by congruence.
  unfold paso_total. rewrite Hto. simpl.
  unfold paso_detalles. rewrite Hs, Hal. simpl.
  destruct (columnas v); [congruence|]. simpl. now rewrite He.
Qed.

Lemma cantidad_desbordada_witness :
  extraer_detalle con_encabezado
    (fila_detalle (Some "1e999") "Tornillo" (Some "10,50") "21,00")
  = Raise OverflowError
  /\ (estado con_encabezado = extrayendo_detalles ->
      algun_alias
        (texto_de
           (fila_detalle (Some "1e999") "Tornillo" (Some "10,50") "21,00"))
      = false ->
      Str.contains "total"
        (texto_de
           (fila_detalle (Some "1e999") "Tornillo" (Some "10,50") "21,00"))
      = false ->
      forall resto,
        recorrer con_encabezado
          (fila_detalle (Some "1e999") "Tornillo" (Some "10,50") "21,00"
           :: resto)
        = Raise OverflowError).
Proof.
  refine (cantidad_desbordada con_encabezado
            (fila_detalle (Some "1e999") "Tornillo" (Some "10,50") "21,00")
            10 400 100 "1e999" "21,00" [] [] (Dec.DFin false 2100 (-2))
            _ _ _ _ _ _ _ _ _ _);
    try (vm_compute; reflexivity).
  right. vm_compute. discriminate.
Defined.

(** ** The amount normaliser on well-formed tokens *)

Lemma remove_char_app (c : ascii) (x y : string) :
  Str.remove_char c (x ++ y) = Str.remove_char c x ++ Str.remove_char c y.
Proof.
  induction x as [|d x IH]; simpl; [reflexivity|].
  destruct (Ascii.eqb d c); simpl; now rewrite IH.
Qed.

Lemma replace_char_app (c d : ascii) (x y : string) :
  Str.replace_char c d (x ++ y)
  = Str.replace_char c d x ++ Str.replace_char c d y.
Proof. induction x as [|a x IH]; simpl; [reflexivity|]. now rewrite IH. Qed.

Lemma remove_char_sin (c : ascii) (s : string) :
  todos (distinto c) s = true -> Str.remove_char c s = s.
Proof.
  induction s as [|d s IH]; simpl; [reflexivity|].
  unfold distinto at 1. destruct (Ascii.eqb d c); simpl; [discriminate|].
  intros H. now rewrite IH.
Qed.

Lemma replace_char_sin (c d : ascii) (s : string) :
  todos (distinto c) s = true -> Str.replace_char c d s = s.
Proof.
  induction s as [|a s IH]; simpl; [reflexivity|].
  unfold distinto at 1. destruct (Ascii.eqb a c); simpl; [discriminate|].
  intros H. now rewrite IH.
Qed.

Lemma todos_remove_char (P : ascii -> bool) (c : ascii) (s : string) :
  todos P s = true -> todos P (Str.remove_char c s) = true.
Proof.
  induction s as [|d s IH]; simpl; [reflexivity|].
  intros H. apply andb_true_iff in H. destruct H as [H1 H2].
  destruct (Ascii.eqb d c); simpl; [now apply IH|].
  now rewrite H1, IH.
Qed.

Lemma remove_char_limpio (c : ascii) (s : string) :
  todos (distinto c) (Str.remove_char c s) = true.
Proof.
  induction s as [|d s IH]; simpl; [reflexivity|].
  destruct (Ascii.eqb d c) eqn:E; simpl; [exact IH|].
  unfold distinto at 1. now rewrite E, IH.
Qed.

Lemma split_no_vacio (c : ascii) (s : string) : Str.split c s <> [].
Proof.
  destruct s as [|d s]; simpl; [discriminate|].
  destruct (Ascii.eqb d c); [discriminate|].
  destruct (Str.split c s); discriminate.
Qed.

Lemma split_app (c : ascii) (x y : string) :
  Str.split c (x ++ String c y) = (Str.split c x ++ Str.split c y)%list.
Proof.
  induction x as [|d x IH]; simpl.
  - now rewrite Ascii.eqb_refl.
  - destruct (Ascii.eqb d c); [now rewrite IH|].
    rewrite IH. pose proof (split_no_vacio c x) as Hn.
    destruct (Str.split c x); [congruence|reflexivity].
Qed.

Lemma split_sin (c : ascii) (s : string) :
  todos (distinto c) s = true -> Str.split c s = [s].
Proof.
  induction s as [|d s IH]; simpl; [reflexivity|].
  unfold distinto at 1. destruct (Ascii.eqb d c); simpl; [discriminate|].
  intros H. now rewrite IH.
Qed.

Lemma join_cons_char (d : ascii) (p : string) (ps : list string) :
  Str.join EmptyString (String d p :: ps)
  = String d (Str.join EmptyString (p :: ps)).
Proof. destruct ps; reflexivity. Qed.

Lemma join_split (c : ascii) (s : string) :
  Str.join EmptyString (Str.split c s) = Str.remove_char c s.
Proof.
  induction s as [|d s IH]; simpl; [reflexivity|].
  pose proof (split_no_vacio c s) as Hn.
  destruct (Ascii.eqb d c).
  - destruct (Str.split c s) as [|p ps] eqn:E; [congruence|].
    rewrite <- IH. reflexivity.
  - destruct (Str.split c s) as [|p ps] eqn:E; [congruence|].
    now rewrite join_cons_char, IH.
Qed.

Lemma split_uno (c : ascii) (s : string) :
  (List.length (Str.split c s) <= 1)%nat -> Str.remove_char c s = s.
Proof.
  induction s as [|d s IH]; simpl; [reflexivity|].
  pose proof (split_no_vacio c s) as Hn.
  destruct (Ascii.eqb d c).
  - destruct (Str.split c s); [congruence|]. simpl. lia.
  - destruct (Str.split c s) as [|p ps] eqn:E; [congruence|].
    simpl in *. intros H. now rewrite IH.
Qed.

Lemma remove_punto_replace_coma (s : string) :
  Str.remove_char "." (Str.replace_char "," "." s)
  = Str.remove_char "," (Str.remove_char "." s).
Proof.
  induction s as [|x s IH]; simpl; [reflexivity|].
  destruct (Ascii.eqb x ",") eqn:E1.
  - apply Ascii.eqb_eq in E1. subst x. simpl. exact IH.
  - destruct (Ascii.eqb x ".") eqn:E2; simpl; rewrite ?E1, ?E2.
    + exact IH.
    + now rewrite IH.
Qed.

(** The shape of the normalised text of a token with a comma: the last
    comma becomes the point, the points and the other commas vanish. *)
Lemma normalizar_texto_coma (a b : string) :
  todos (distinto ",") b = true ->
  normalizar_texto (a ++ String "," b)
  = Str.remove_char "," (Str.remove_char "." a)
    ++ String "." (Str.remove_char "." b).
Proof.
  intros Hb. unfold normalizar_texto.
  rewrite remove_char_app, replace_char_app. simpl.
  rewrite (replace_char_sin "," "." (Str.remove_char "." b))
    by now apply todos_remove_char.
  set (A := Str.replace_char "," "." (Str.remove_char "." a)).
  set (B := Str.remove_char "." b).
  rewrite split_app, (split_sin "." B) by apply remove_char_limpio.
  rewrite length_app, removelast_last, last_last. simpl.
  assert (HA : Str.remove_char "." A
               = Str.remove_char "," (Str.remove_char "." a)).
  { unfold A. now rewrite remove_punto_replace_coma, remove_char_idem. }
  destruct (Nat.ltb_spec 2 (List.length (Str.split "." A) + 1)) as [H|H].
  - now rewrite join_split, HA.
  - rewrite <- HA. rewrite (split_uno "." A) by lia. reflexivity.
Qed.

Lemma normalizar_texto_sin_coma (s : string) :
  todos (distinto ",") s = true ->
  normalizar_texto s = Str.remove_char "." s.
Proof.
  intros Hs. unfold normalizar_texto.
  rewrite (replace_char_sin "," "." (Str.remove_char "." s))
    by now apply todos_remove_char.
  rewrite (split_sin "." (Str.remove_char "." s))
    by apply remove_char_limpio.
  reflexivity.
Qed.

(** X10: in a token the last comma is the decimal separator: the text
    handed to the decimal parser is the part before it without points and
    commas, a point, and the part after it without points.  A token with
    no comma is handed over without its points. *)
Theorem normalizar_texto_forma (a b s : string) :
  todos (distinto ",") b = true ->
  todos (distinto ",") s = true ->
  normalizar_texto (a ++ String "," b)
  = Str.remove_char "," (Str.remove_char "." a)
    ++ String "." (Str.remove_char "." b)
  /\ normalizar_texto s = Str.remove_char "." s.
Proof.
  intros Hb Hs. split.
  - now apply normalizar_texto_coma.
  - now apply normalizar_texto_sin_coma.
Qed.

Lemma normalizar_texto_forma_witness :
  normalizar_texto ("1,2.3,4" ++ String "," "5.6") = "1234.56"
  /\ normalizar_texto "1.234.567" = "1234567".
Proof.
  apply (normalizar_texto_forma "1,2.3,4" "5.6" "1.234.567");
    vm_compute; reflexivity.
Defined.

Lemma todos_app (P : ascii -> bool) (x y : string) :
  todos P (x ++ y) = todos P x && todos P y.
Proof.
  induction x as [|c x IH]; simpl; [reflexivity|].
  now rewrite IH, andb_assoc.
Qed.

Lemma todos_impl (P Q : ascii -> bool) (s : string) :
  (forall c, P c = true -> Q c = true) ->
  todos P s = true -> todos Q s = true.
Proof.
  intros H. induction s as [|c s IH]; simpl; [reflexivity|].
  intros Hs. apply andb_true_iff in Hs. destruct Hs as [H1 H2].
  now rewrite (H c H1), IH.
Qed.

(** What a digit, or a point, is not. *)
Lemma digito_o_punto_props (c : ascii) :
  digito_o_punto c = true ->
  sin_espacio c = true /\ distinto "_" c = true /\ distinto "," c = true
  /\ forall s, Dec.parse_sign (String c s) = (false, String c s).
Proof.
  destruct c as [b0 b1 b2 b3 b4 b5 b6 b7].
  destruct b0, b1, b2, b3, b4, b5, b6, b7; vm_compute;
    intros H; try discriminate; repeat split.
Qed.

Lemma digito_props (c : ascii) :
  Str.is_digit c = true ->
  digito_o_punto c = true /\ distinto "." c = true.
Proof.
  destruct c as [b0 b1 b2 b3 b4 b5 b6 b7].
  destruct b0, b1, b2, b3, b4, b5, b6, b7; vm_compute;
    intros H; try discriminate; repeat split.
Qed.

Lemma sin_espacio_inicio (a b c : ascii) :
  sin_espacio a = true ->
  Str.is_space a = false /\ Str.is_space2 a b = false
  /\ Str.is_space3 a b c = false.
Proof.
  unfold sin_espacio, Str.is_space2, Str.is_space3. intros H.
  apply andb_true_iff in H. destruct H as [H1 H2].
  apply negb_true_iff in H1. apply N.ltb_lt in H2.
  split; [exact H1|].
  assert (E1 : (Str.code a =? 194)%N = false) by (apply N.eqb_neq; lia).
  assert (E2 : (Str.code a =? 225)%N = false) by (apply N.eqb_neq; lia).
  assert (E3 : (Str.code a =? 226)%N = false) by (apply N.eqb_neq; lia).
  assert (E4 : (Str.code a =? 227)%N = false) by (apply N.eqb_neq; lia).
  rewrite E1, E2, E3, E4. split; reflexivity.
Qed.

Lemma lstrip_limpio (s : string) :
  todos sin_espacio s = true -> Str.lstrip s = s.
Proof.
  unfold Str.lstrip.
  destruct s as [|a s1]; [reflexivity|]. cbn [todos Str.lstrip_con].
  intros H. apply andb_true_iff in H. destruct H as [Ha _].
  destruct (sin_espacio_inicio a a a Ha) as (H1 & _ & _). rewrite H1.
  destruct s1 as [|b s2]; [reflexivity|].
  destruct (sin_espacio_inicio a b b Ha) as (_ & H2 & _). rewrite H2.
  destruct s2 as [|c s3]; [reflexivity|].
  destruct (sin_espacio_inicio a b c Ha) as (_ & _ & H3). now rewrite H3.
Qed.

Lemma rstrip_limpio (s : string) :
  todos sin_espacio s = true -> Str.rstrip s = s.
Proof.
  unfold Str.rstrip.
  induction s as [|a s IH]; [reflexivity|]. intros H.
  cbn [Str.rstrip_con].
  change (Str.lstrip_con Str.is_space (String a s))
    with (Str.lstrip (String a s)).
  rewrite (lstrip_limpio (String a s) H).
  cbn [todos] in H. apply andb_true_iff in H. destruct H as [_ H].
  now rewrite (IH H).
Qed.

Lemma span_digits_app (ds rest : string) :
  todos Str.is_digit ds = true ->
  match rest with
  | EmptyString => True
  | String c _ => Str.is_digit c = false
  end ->
  Str.span_digits (ds ++ rest) = (ds, rest).
Proof.
  intros Hd Hr. induction ds as [|c ds IH]; simpl in *.
  - destruct rest as [|c r]; [reflexivity|]. simpl. now rewrite Hr.
  - apply andb_true_iff in Hd. destruct Hd as [H1 H2].
    now rewrite H1, (IH H2).
Qed.

Lemma app_vacio (s : string) : s ++ EmptyString = s.
Proof. induction s as [|c s IH]; simpl; [reflexivity|]. now rewrite IH. Qed.

(** The decimal constructor on digits, a point and digits. *)
Lemma of_string_digitos (ds fs : string) :
  todos Str.is_digit ds = true -> todos Str.is_digit fs = true ->
  Str.nonempty ds || Str.nonempty fs = true ->
  Dec.of_string (ds ++ String "." fs)
  = Some (Dec.DFin false (Str.digits_value (ds ++ fs))
            (- Z.of_nat (String.length fs))).
Proof.
  intros Hd Hf Hne.
  assert (Hall : todos digito_o_punto (ds ++ String "." fs) = true).
  { rewrite todos_app. simpl.
    rewrite (todos_impl Str.is_digit digito_o_punto ds
               (fun c H => proj1 (digito_props c H)) Hd).
    now rewrite (todos_impl Str.is_digit digito_o_punto fs
                   (fun c H => proj1 (digito_props c H)) Hf). }
  unfold Dec.of_string, Str.strip.
  rewrite lstrip_limpio, rstrip_limpio, remove_char_sin;
    try (eapply todos_impl; [|exact Hall]; intros c Hc;
         destruct (digito_o_punto_props c Hc) as (H1 & H2 & H3 & H4);
         assumption).
  assert (Hsign : Dec.parse_sign (ds ++ String "." fs)
                  = (false, ds ++ String "." fs)).
  { destruct ds as [|c ds']; [reflexivity|].
    simpl in Hall. apply andb_true_iff in Hall.
    now apply (digito_o_punto_props c). }
  rewrite Hsign. unfold Dec.parse_number.
  rewrite (span_digits_app ds (String "." fs) Hd eq_refl).
  pose proof (span_digits_app fs EmptyString Hf I) as Hs.
  rewrite app_vacio in Hs. rewrite Hs, Hne. simpl. reflexivity.
Qed.

Lemma of_string_entero (ds : string) :
  todos Str.is_digit ds = true -> Str.nonempty ds = true ->
  Dec.of_string ds = Some (Dec.DFin false (Str.digits_value ds) 0).
Proof.
  intros Hd Hne.
  assert (Hall : todos digito_o_punto ds = true)
    by exact (todos_impl Str.is_digit digito_o_punto ds
                (fun c H => proj1 (digito_props c H)) Hd).
  unfold Dec.of_string, Str.strip.
  rewrite lstrip_limpio, rstrip_limpio, remove_char_sin;
    try (eapply todos_impl; [|exact Hall]; intros c Hc;
         destruct (digito_o_punto_props c Hc) as (H1 & H2 & H3 & H4);
         assumption).
  assert (Hsign : Dec.parse_sign ds = (false, ds)).
  { destruct ds as [|c ds']; [reflexivity|].
    simpl in Hall. apply andb_true_iff in Hall.
    now apply (digito_o_punto_props c). }
  rewrite Hsign. unfold Dec.parse_number.
  pose proof (span_digits_app ds EmptyString Hd I) as Hs.
  rewrite app_vacio in Hs. rewrite Hs, Hne. simpl.
  now rewrite app_vacio.
Qed.

Lemma todos_digitos_remove (s : string) :
  todos digito_o_punto s = true ->
  todos Str.is_digit (Str.remove_char "." s) = true.
Proof.
  induction s as [|c s IH]; simpl; [reflexivity|].
  intros H. apply andb_true_iff in H. destruct H as [H1 H2].
  unfold digito_o_punto in H1.
  destruct (Ascii.eqb c ".") eqn:E; [now apply IH|].
  rewrite orb_false_r in H1. simpl. now rewrite H1, IH.
Qed.

(** X11: a token made of digits and points, a comma and digits denotes
    the number whose digits are those of the token, in their order, with
    as many decimals as there are digits after the comma: the points are
    dropped wherever they stand.  Without the comma the token denotes the
    integer made of its digits, so that a point meant as a decimal point
    multiplies the value. *)
Theorem normalizar_monto_valor (entero dec : string) :
  todos digito_o_punto entero = true ->
  todos Str.is_digit dec = true ->
  Str.nonempty (Str.remove_char "." entero) || Str.nonempty dec = true ->
  normalizar_monto (entero ++ String "," dec)
  = Some (Dec.DFin false
            (Str.digits_value (Str.remove_char "." entero ++ dec))
            (- Z.of_nat (String.length dec)))
  /\ (Str.nonempty (Str.remove_char "." entero) = true ->
      normalizar_monto entero
      = Some (Dec.DFin false
                (Str.digits_value (Str.remove_char "." entero)) 0)).
Proof.
  intros He Hd Hne.
  pose proof (todos_digitos_remove entero He) as HE.
  assert (Hcoma : forall x, todos Str.is_digit x = true ->
                            todos (distinto ",") x = true).
  { intros x Hx. eapply todos_impl; [|exact Hx].
    intros c Hc. apply digito_props in Hc.
    now apply (digito_o_punto_props c). }
  assert (Hpunto : forall x, todos Str.is_digit x = true ->
                             todos (distinto ".") x = true).
  { intros x Hx. eapply todos_impl; [|exact Hx].
    intros c Hc. now apply digito_props in Hc. }
  split.
  - unfold normalizar_monto.
    rewrite normalizar_texto_coma by now apply Hcoma.
    rewrite (remove_char_sin "," (Str.remove_char "." entero))
      by now apply Hcoma.
    rewrite (remove_char_sin "." dec) by now apply Hpunto.
    now apply of_string_digitos.
  - intros Hn. unfold normalizar_monto.
    rewrite normalizar_texto_sin_coma.
    + now apply of_string_entero.
    + eapply todos_impl; [|exact He].
      intros c Hc. now apply (digito_o_punto_props c).
Qed.

Lemma normalizar_monto_valor_witness :
  normalizar_monto ("1.234.567" ++ String "," "89")
  = Some (Dec.DFin false 123456789 (-2))
  /\ (Str.nonempty (Str.remove_char "." "1.234.567") = true ->
      normalizar_monto "1.234.567" = Some (Dec.DFin false 1234567 0)).
Proof.
  apply (normalizar_monto_valor "1.234.567" "89"); vm_compute; reflexivity.
Defined.

(** ** The lines as a partition of the words *)

Lemma concat_map_perm {A : Type} (f : list A -> list A)
    (ls : list (list A)) :
  (forall l, Permutation (f l) l) ->
  Permutation (List.concat (map f ls)) (List.concat ls).
Proof.
  intros Hf. induction ls as [|l r IH]; simpl; [reflexivity|].
  now apply Permutation_app.
Qed.

Lemma cortar_desde_saltos (ws : list palabra) :
  forall abierta anterior,
    List.length (cortar_desde abierta anterior ws)
    = S (saltos (anterior :: ws)).
Proof.
  induction ws as [|x r IH]; intros abierta anterior; [reflexivity|].
  cbn [cortar_desde]. change (saltos (anterior :: x :: r))
    with (if Z.abs (p_top x - p_top anterior) <? 20 then saltos (x :: r)
          else S (saltos (x :: r))).
  destruct (Z.abs (p_top x - p_top anterior) <? 20).
  - now rewrite IH.
  - cbn [List.length]. now rewrite IH.
Qed.

(** X12: the lines partition the accepted words: every accepted word is
    in exactly one line and no line is empty; and there is one line more
    than there are places where two consecutive words of the sequence
    sorted by (top, left) are 20 pixels or more apart, so that a line may
    span any height as long as each word is within 20 pixels of the one
    before it. *)
Theorem lineas_particion (data : list fila) :
  Permutation (List.concat (lineas_de data)) (filtrar data)
  /\ Forall (fun linea => linea <> []) (lineas_de data)
  /\ List.length (lineas_de data)
     = match filtrar data with
       | [] => O
       | _ :: _ => S (saltos (ordenar leb_top_left (filtrar data)))
       end.
Proof.
  unfold lineas_de. rewrite agrupar_cortar.
  split; [|split].
  - rewrite (concat_map_perm (ordenar leb_left)) by apply ordenar_perm.
    rewrite concat_cortar. apply ordenar_perm.
  - rewrite Forall_map.
    destruct (cortar_props (ordenar leb_top_left (filtrar data)))
      as [Hc _].
    eapply Forall_impl; [|exact Hc].
    intros l [Hl _] E. apply Hl.
    apply Permutation_nil. rewrite <- E. apply ordenar_perm.
  - rewrite length_map.
    destruct (filtrar data) as [|p r] eqn:Ef; [reflexivity|].
    pose proof (ordenar_perm leb_top_left (p :: r)) as Hp.
    destruct (ordenar leb_top_left (p :: r)) as [|x ws] eqn:Eo.
    + apply Permutation_nil in Hp. discriminate.
    + unfold cortar. apply cortar_desde_saltos.
Qed.

(** ** Independence of the order of the input *)

Lemma sorted_unique {A : Type} (R : A -> A -> Prop) (l1 : list A) :
  forall l2,
    Permutation l1 l2 ->
    StronglySorted R l1 -> StronglySorted R l2 ->
    (forall x y, In x l1 -> In y l1 -> R x y -> R y x -> x = y) ->
    l1 = l2.
Proof.
  induction l1 as [|a r1 IH]; intros l2 Hp H1 H2 Hanti.
  - apply Permutation_nil in Hp. now subst.
  - destruct l2 as [|b r2];
      [symmetry in Hp; apply Permutation_nil in Hp; discriminate|].
    apply StronglySorted_inv in H1. destruct H1 as [H1 Ha].
    apply StronglySorted_inv in H2. destruct H2 as [H2 Hb].
    rewrite Forall_forall in Ha, Hb.
    assert (Hab : a = b).
    { assert (Hbin : In b (a :: r1))
        by (eapply Permutation_in; [symmetry; exact Hp|now left]).
      assert (Hain : In a (b :: r2))
        by (eapply Permutation_in; [exact Hp|now left]).
      destruct Hbin as [E|Hbin]; [exact E|].
      destruct Hain as [E|Hain]; [now symmetry|].
      apply Hanti; [now left|now right|now apply Ha|now apply Hb]. }
    subst b. f_equal. apply Permutation_cons_inv in Hp.
    apply IH; try assumption.
    intros x y Hx Hy. apply Hanti; now right.
Qed.

Lemma filtrar_perm (d1 d2 : list fila) :
  Permutation d1 d2 -> Permutation (filtrar d1) (filtrar d2).
Proof.
  induction 1 as [|f l1 l2 _ IH|f g l|l1 l2 l3 _ IH1 _ IH2]; simpl.
  - constructor.
  - destruct (aceptada f); [now constructor|exact IH].
  - destruct (aceptada f), (aceptada g); try reflexivity. apply perm_swap.
  - now transitivity (filtrar l2).
Qed.

(** X13: the result does not depend on the order in which the OCR engine
    lists the words, as long as no two different accepted words have the
    same top and the same left. *)
Theorem orden_de_entrada (data1 data2 : list fila) :
  Permutation data1 data2 ->
  (forall p q, In p (filtrar data1) -> In q (filtrar data1) ->
               p_top p = p_top q -> p_left p = p_left q -> p = q) ->
  lineas_de data1 = lineas_de data2
  /\ procesar_factura data1 = procesar_factura data2
  /\ (forall mostrar,
        cuerpo_documento mostrar data1 = cuerpo_documento mostrar data2).
Proof.
  intros Hp Hd.
  assert (E : ordenar leb_top_left (filtrar data1)
              = ordenar leb_top_left (filtrar data2)).
  { apply (sorted_unique (fun a b => leb_top_left a b = true)).
    - rewrite !ordenar_perm. now apply filtrar_perm.
    - apply ordenar_sorted;
        [apply leb_top_left_total|apply leb_top_left_trans].
    - apply ordenar_sorted;
        [apply leb_top_left_total|apply leb_top_left_trans].
    - intros x y Hx Hy Hxy Hyx.
      rewrite (ordenar_In leb_top_left) in Hx, Hy.
      unfold leb_top_left in Hxy, Hyx. apply Hd; try assumption; lia. }
  assert (L : lineas_de data1 = lineas_de data2)
    by (unfold lineas_de; now rewrite E).
  split; [exact L|]. split.
  - unfold procesar_factura, reconocer_factura. now rewrite L.
  - intros mostrar. unfold cuerpo_documento, reconocer_factura.
    now rewrite L.
Qed.

Lemma orden_de_entrada_witness :
  lineas_de [ocr "Importe" 400 100; ocr "Descripción" 100 100]
  = lineas_de [ocr "Descripción" 100 100; ocr "Importe" 400 100]
  /\ procesar_factura [ocr "Importe" 400 100; ocr "Descripción" 100 100]
     = procesar_factura [ocr "Descripción" 100 100; ocr "Importe" 400 100]
  /\ (forall mostrar,
        cuerpo_documento mostrar
          [ocr "Importe" 400 100; ocr "Descripción" 100 100]
        = cuerpo_documento mostrar
            [ocr "Descripción" 100 100; ocr "Importe" 400 100]).
Proof.
  apply orden_de_entrada.
  - apply perm_swap.
  - intros p q [<-|[<-|[]]] [<-|[<-|[]]] Ht Hl;
      try reflexivity; vm_compute in Hl; discriminate.
Defined.

(** ** The computed sum and the order of the items *)

Lemma minimo_min (a e : Z) (l : list Dec.Decimal) :
  minimo (Z.min a e) l = Z.min a (minimo e l).
Proof.
  induction l as [|d r IH]; simpl; [reflexivity|]. rewrite IH. lia.
Qed.

Lemma minimo_le (e : Z) (l : list Dec.Decimal) : minimo e l <= e.
Proof. induction l as [|d r IH]; simpl; lia. Qed.

Lemma exacta_desde_snd (l : list Dec.Decimal) :
  forall V e, snd (exacta_desde V e l) = minimo e l.
Proof.
  induction l as [|d r IH]; intros V e; simpl; [reflexivity|].
  rewrite IH, (Z.min_comm e), minimo_min. reflexivity.
Qed.

Lemma scaled_baja (d : Dec.Decimal) (e1 m : Z) :
  m <= e1 -> e1 <= Dec.exponent d ->
  Dec.scaled e1 d * 10 ^ (e1 - m) = Dec.scaled m d.
Proof.
  intros H1 H2. destruct d as [s c x| |]; simpl in *; try reflexivity.
  rewrite <- Z.mul_assoc, <- Z.pow_add_r by lia.
  do 2 f_equal. lia.
Qed.

Lemma exacta_desde_fst (l : list Dec.Decimal) :
  forall V e,
    fst (exacta_desde V e l)
    = V * 10 ^ (e - minimo e l) + suma_escalada (minimo e l) l.
Proof.
  induction l as [|d r IH]; intros V e; simpl.
  - rewrite Z.sub_diag. change (10 ^ 0) with 1. lia.
  - rewrite IH.
    remember (Z.min e (Dec.exponent d)) as e1 eqn:He1.
    assert (Hm : minimo e1 r = Z.min (Dec.exponent d) (minimo e r)).
    { rewrite He1, (Z.min_comm e), minimo_min. reflexivity. }
    rewrite <- Hm. pose proof (minimo_le e1 r) as Hle.
    rewrite Z.mul_add_distr_r.
    rewrite (scaled_baja d e1 (minimo e1 r)) by lia.
    rewrite <- Z.mul_assoc, <- Z.pow_add_r by lia.
    replace (e - e1 + (e1 - minimo e1 r)) with (e - minimo e1 r) by lia.
    lia.
Qed.

Lemma minimo_perm (e : Z) (l1 l2 : list Dec.Decimal) :
  Permutation l1 l2 -> minimo e l1 = minimo e l2.
Proof.
  induction 1; simpl; lia.
Qed.

Lemma suma_escalada_perm (m : Z) (l1 l2 : list Dec.Decimal) :
  Permutation l1 l2 -> suma_escalada m l1 = suma_escalada m l2.
Proof.
  induction 1; simpl; lia.
Qed.

(** X14: when every partial sum fits the decimal context in both orders,
    the computed sum of the same items in another order is the same
    number: the same exponent and the same signed coefficient. *)
Theorem suma_sin_orden (ds1 ds2 : list Detalle) :
  Permutation ds1 ds2 -> ds1 <> [] ->
  cabe (map d_Importe ds1) -> cabe (map d_Importe ds2) ->
  exists s1 c1 s2 c2 e,
    total_de_detalles ds1 = Ok (Dec.DFin s1 c1 e)
    /\ total_de_detalles ds2 = Ok (Dec.DFin s2 c2 e)
    /\ Dec.signed s1 c1 = Dec.signed s2 c2
    /\ Dec.eq (Dec.DFin s1 c1 e) (Dec.DFin s2 c2 e) = Ok true.
Proof.
  intros Hp Hne H1 H2.
  assert (Hne2 : ds2 <> []).
  { intros E. subst ds2. apply Permutation_sym, Permutation_nil in Hp.
    contradiction. }
  assert (Hpm : Permutation (map d_Importe ds1) (map d_Importe ds2))
    by now apply Permutation_map.
  destruct (sum_exact (map d_Importe ds1)) as (s1 & c1 & E1 & V1);
    [now destruct ds1|exact H1|].
  destruct (sum_exact (map d_Importe ds2)) as (s2 & c2 & E2 & V2);
    [now destruct ds2|exact H2|].
  unfold suma_exacta in *.
  rewrite exacta_desde_snd in E1, E2.
  rewrite exacta_desde_fst in V1, V2.
  rewrite <- (minimo_perm 0 _ _ Hpm) in E2, V2.
  rewrite <- (suma_escalada_perm _ _ _ Hpm) in V2.
  exists s1, c1, s2, c2, (minimo 0 (map d_Importe ds1)).
  assert (Hs : Dec.signed s1 c1 = Dec.signed s2 c2) by congruence.
  repeat split.
  - destruct ds1; [congruence|exact E1].
  - destruct ds2; [congruence|exact E2].
  - exact Hs.
  - unfold Dec.eq. rewrite Z.min_id, Z.sub_diag, Hs.
    now rewrite Z.eqb_refl.
Qed.

Lemma suma_sin_orden_witness :
  exists s1 c1 s2 c2 e,
    total_de_detalles
      [mk_detalle 2 "Tornillo" None (Dec.DFin false 2100 (-2));
       mk_detalle 1 "Tuerca" None (Dec.DFin false 5 (-1))]
    = Ok (Dec.DFin s1 c1 e)
    /\ total_de_detalles
         [mk_detalle 1 "Tuerca" None (Dec.DFin false 5 (-1));
          mk_detalle 2 "Tornillo" None (Dec.DFin false 2100 (-2))]
       = Ok (Dec.DFin s2 c2 e)
    /\ Dec.signed s1 c1 = Dec.signed s2 c2
    /\ Dec.eq (Dec.DFin s1 c1 e) (Dec.DFin s2 c2 e) = Ok true.
Proof.
  apply suma_sin_orden.
  - apply perm_swap.
  - discriminate.
  - vm_compute. repeat split; discriminate.
  - vm_compute. repeat split; discriminate.
Defined.

(** ** The batch *)

Lemma procesar_archivos_ok (leer : string -> option (list fila))
    (mostrar : impresor) (l : list string) :
  forall acc rs,
    procesar_archivos leer mostrar l acc = Ok rs <->
    exists nuevos, rs = (acc ++ nuevos)%list
                   /\ Forall2 (entrada_de leer mostrar) l nuevos.
Proof.
  induction l as [|n r IH]; intros acc rs; simpl.
  - split.
    + intros [= <-]. exists []. split; [now rewrite app_nil_r|constructor].
    + intros (nuevos & -> & H). inversion H. now rewrite app_nil_r.
  - split.
    + destruct (leer n) as [data|] eqn:El.
      * destruct (cuerpo_documento mostrar data) as [reg|e] eqn:Ep; simpl;
          [|discriminate].
        intros H. apply IH in H. destruct H as (nuevos & -> & HF).
        exists ((n, reg) :: nuevos). split; [now rewrite <- app_assoc|].
        constructor; [|exact HF]. split; [reflexivity|]. now rewrite El.
      * intros H. apply IH in H. destruct H as (nuevos & -> & HF).
        exists ((n, no_leida) :: nuevos).
        split; [now rewrite <- app_assoc|].
        constructor; [|exact HF]. split; [reflexivity|]. now rewrite El.
    + intros (nuevos & -> & HF). inversion HF as [|? fr ? rest [Hn Hr] HF']; subst.
      destruct fr as [n0 reg]. simpl in *.
      destruct (leer n0) as [data|] eqn:El.
      * rewrite Hr. simpl. apply IH. exists rest.
        split; [now rewrite <- app_assoc|exact HF'].
      * subst reg. apply IH. exists rest.
        split; [now rewrite <- app_assoc|exact HF'].
Qed.

Lemma entrada_de_unica (leer : string -> option (list fila))
    (mostrar : impresor) (n : string) (fr1 fr2 : string * Registro) :
  entrada_de leer mostrar n fr1 -> entrada_de leer mostrar n fr2 ->
  fr1 = fr2.
Proof.
  destruct fr1 as [a1 b1], fr2 as [a2 b2]. unfold entrada_de. simpl.
  intros [-> H1] [-> H2]. f_equal.
  destruct (leer n); congruence.
Qed.

Lemma entradas_unicas (leer : string -> option (list fila))
    (mostrar : impresor) (l : list string) :
  forall rs1 rs2,
    Forall2 (entrada_de leer mostrar) l rs1 ->
    Forall2 (entrada_de leer mostrar) l rs2 ->
    rs1 = rs2.
Proof.
  induction l as [|n r IH]; intros rs1 rs2 H1 H2;
    inversion H1; inversion H2; subst; [reflexivity|].
  f_equal; [eapply entrada_de_unica; eassumption|now apply IH].
Qed.

(** X15: a report is written exactly when the folder exists, it holds at
    least one file whose lower-cased name ends in .png, .jpg, .jpeg or
    .tiff, and every document that is read goes through the recognition,
    the comparison and the lines that show its result without an
    exception; it then has one entry for each such file, in the order of
    the listing, and none for the other files: the error entry for an
    image that cannot be read, the entry of the document otherwise. *)
Theorem lote_completo (leer : string -> option (list fila))
    (mostrar : impresor) (existe : bool) (listado : list string)
    (rs : list (string * Registro)) :
  procesar_lote_facturas leer mostrar existe listado = Ok (Some rs) <->
  existe = true /\ rs <> []
  /\ Forall2 (entrada_de leer mostrar) (filter es_imagen listado) rs.
Proof.
  unfold procesar_lote_facturas. destruct existe; simpl.
  - destruct (procesar_archivos leer mostrar (filter es_imagen listado) [])
      as [rs0|e] eqn:E; simpl.
    + apply procesar_archivos_ok in E. destruct E as (nuevos & -> & HF).
      simpl. split.
      * destruct nuevos as [|x r]; simpl; [discriminate|].
        intros [= <-]. repeat split; [discriminate|exact HF].
      * intros (_ & Hne & HF2).
        rewrite (entradas_unicas leer mostrar _ _ _ HF HF2).
        destruct rs; [congruence|reflexivity].
    + split; [discriminate|].
      intros (_ & _ & HF).
      assert (H : procesar_archivos leer mostrar
                    (filter es_imagen listado) [] = Ok rs)
        by (apply procesar_archivos_ok; now exists rs).
      congruence.
  - split; [discriminate|]. now intros [H _].
Qed.

Lemma procesar_archivos_raise (leer : string -> option (list fila))
    (mostrar : impresor) (l : list string) (nombre : string)
    (data : list fila) (e : excepcion) :
  In nombre l -> leer nombre = Some data ->
  cuerpo_documento mostrar data = Raise e ->
  forall acc, exists e', procesar_archivos leer mostrar l acc = Raise e'.
Proof.
  intros Hin Hl Hp. induction l as [|n r IH]; [contradiction|].
  intros acc. simpl. destruct Hin as [->|Hin].
  - rewrite Hl, Hp. simpl. now exists e.
  - destruct (leer n) as [d|]; [|now apply IH].
    destruct (cuerpo_documento mostrar d) as [reg|e1]; simpl;
      [now apply IH|now exists e1].
Qed.

(** X16: nothing in the batch catches an exception: when the recognition
    or the validation of one image file raises, or the lines that show its
    result do, the whole batch raises and no report is written, whatever
    the other files are and whatever is shown for them. *)
Theorem lote_abortado (leer : string -> option (list fila))
    (mostrar : impresor) (listado : list string) (nombre : string)
    (data : list fila) (e : excepcion) :
  In nombre listado -> es_imagen nombre = true ->
  leer nombre = Some data ->
  procesar_factura data = Raise e \/ cuerpo_documento mostrar data = Raise e ->
  exists e', procesar_lote_facturas leer mostrar true listado = Raise e'.
Proof.
  intros Hin Him Hl Hp. unfold procesar_lote_facturas. simpl.
  assert (Hc : cuerpo_documento mostrar data = Raise e)
    by (destruct Hp as [Hp|Hp];
        [now apply procesar_factura_raise|exact Hp]).
  destruct (procesar_archivos_raise leer mostrar (filter es_imagen listado)
              nombre data e) with (acc := @nil (string * Registro))
    as [e' E]; try assumption.
  - apply filter_In. now split.
  - rewrite E. now exists e'.
Qed.

Lemma lote_abortado_witness :
  exists e',
    procesar_lote_facturas leer_ejemplo mostrar_todo true
      ["a.PNG"; "notas.txt"; "b.jpg"; "c.jpeg"]
    = Raise e'.
Proof.
  refine (lote_abortado leer_ejemplo mostrar_todo
            ["a.PNG"; "notas.txt"; "b.jpg"; "c.jpeg"] "b.jpg"
            [ ocr "Cant" 10 100; ocr "Descripción" 100 100;
              ocr "Importe" 400 100;
              ocr "inf" 12 130; ocr "Tornillo" 105 130;
              ocr "21,00" 401 130 ]
            OverflowError _ _ _ _).
  - simpl. auto.
  - vm_compute. reflexivity.
  - vm_compute. reflexivity.
  - left. vm_compute. reflexivity.
Defined.

Example lote_ejemplo :
  procesar_lote_facturas leer_ejemplo mostrar_todo true
    ["a.PNG"; "notas.txt"; "c.jpeg"]
  = Ok (Some [("a.PNG",
               mk_registro (Some (Dec.DFin false 2100 (-2)))
                 (Some (Dec.DFin false 2100 (-2))) true EmptyString);
              ("c.jpeg", no_leida)]).
Proof. vm_compute. reflexivity. Qed.

(** A document that the comparison finds coherent and whose result cannot
    be shown stops the batch: the entries gathered so far are lost and no
    report is written. *)
Example lote_sin_reporte :
  procesar_lote_facturas
    (fun nombre =>
       if String.eqb nombre "z.png" then Some factura_precio_snan
       else leer_ejemplo nombre)
    mostrar_estricto true ["a.PNG"; "z.png"; "c.jpeg"]
  = Raise InvalidOperation.
Proof. vm_compute. reflexivity. Qed.

(** ** A total line met before the header *)

Lemma detectar_columna_snd texto linea (c : Columna) (al : list string) :
  forall st,
    snd (detectar_columna texto linea st (c, al))
    = snd st || hallada (ultima_ancla texto linea al).
Proof.
  unfold detectar_columna. simpl.
  induction al as [|a r IH]; intros st; simpl.
  - now rewrite orb_false_r.
  - rewrite IH. unfold detectar_alias, alias_hallado.
    destruct (ultima_ancla texto linea r); simpl.
    + now rewrite !orb_true_r.
    + rewrite orb_false_r.
      destruct (Str.contains a texto); simpl; [|now rewrite orb_false_r].
      destruct (palabra_con a linea); simpl;
        [now rewrite orb_true_r|now rewrite orb_false_r].
Qed.

Lemma ultima_ancla_hallada texto linea (al : list string) (a : string) :
  In a al -> hallada (alias_hallado texto linea a) = true ->
  hallada (ultima_ancla texto linea al) = true.
Proof.
  induction al as [|b r IH]; [contradiction|].
  intros [->|Hin] Ha; simpl.
  - destruct (ultima_ancla texto linea r); [reflexivity|exact Ha].
  - specialize (IH Hin Ha).
    destruct (ultima_ancla texto linea r); [reflexivity|discriminate].
Qed.

(** X17: while the header is sought, a line with a word that contains
    "total" is not read as the total line: "total" being an alias of
    Importe, the line is consumed as the header, Importe gets an anchor
    and no total is recorded. *)
Theorem total_antes_del_encabezado (linea : list palabra) (p : palabra) :
  Str.contains "total" (texto_de linea) = true ->
  palabra_con "total" linea = Some p ->
  exists cols pos,
    paso vars_iniciales linea
    = Ok (mk_vars [] None cols extrayendo_detalles)
    /\ dict_get columna_eqb cols Importe = Some pos.
Proof.
  intros Ht Hp.
  assert (Hh : hallada (alias_hallado (texto_de linea) linea "total")
               = true).
  { unfold alias_hallado. now rewrite Ht, Hp. }
  assert (Hu : hallada (ultima_ancla (texto_de linea) linea
                          (aliases_de Importe)) = true).
  { apply (ultima_ancla_hallada _ _ _ "total"); [|exact Hh].
    simpl. auto. }
  assert (Hf : snd (detectar_columnas (texto_de linea) linea []) = true).
  { unfold detectar_columnas, MAPEO_COLUMNAS. cbn [fold_left].
    rewrite detectar_columna_snd.
    change (ultima_ancla (texto_de linea) linea
              ["importe"; "total"; "subtotal"; "valor"])
      with (ultima_ancla (texto_de linea) linea (aliases_de Importe)).
    rewrite Hu. apply orb_true_r. }
  pose proof (detectar_columnas_get (texto_de linea) linea Importe) as Hg.
  unfold paso. simpl.
  destruct (detectar_columnas (texto_de linea) linea []) as [cols found].
  cbn [fst snd] in Hf, Hg. subst found.
  destruct (ultima_ancla (texto_de linea) linea (aliases_de Importe))
    as [pos|]; [|discriminate].
  now exists cols, pos.
Qed.

Lemma total_antes_del_encabezado_witness :
  exists cols pos,
    paso vars_iniciales linea_total_21
    = Ok (mk_vars [] None cols extrayendo_detalles)
    /\ dict_get columna_eqb cols Importe = Some pos.
Proof.
  apply (total_antes_del_encabezado linea_total_21
           (mk_palabra "Total" 300 200 40 12));
    vm_compute; reflexivity.
Defined.

(** ** Documents without words *)

(** X18: when no row passes the filter (no OCR output, or only blank or
    low-confidence words) there is no line, nothing is extracted, and the
    document is reported as unresolved without an exception. *)
Theorem sin_palabras (data : list fila) :
  filtrar data = [] ->
  lineas_de data = []
  /\ reconocer_factura data = Ok ([], None, Dec.zero)
  /\ procesar_factura data = Ok no_resuelto
  /\ (forall mostrar, cuerpo_documento mostrar data = Ok no_resuelto).
Proof.
  intros H.
  unfold cuerpo_documento, procesar_factura, reconocer_factura, lineas_de.
  rewrite H. repeat split.
Qed.

Lemma sin_palabras_witness :
  let data := [ mk_fila "  " 95 10 10 5 5; mk_fila "Total" 60 10 40 30 12;
                mk_fila nbsp 90 10 70 5 5 ] in
  lineas_de data = []
  /\ reconocer_factura data = Ok ([], None, Dec.zero)
  /\ procesar_factura data = Ok no_resuelto
  /\ (forall mostrar, cuerpo_documento mostrar data = Ok no_resuelto).
Proof. apply sin_palabras. vm_compute. reflexivity. Defined.

(** ** What an emitted item holds *)

(** X19: the description of an emitted item is the texts of the words
    whose nearest anchor is Descripción, from left to right as they stand
    in the line, joined by single spaces; its amount is what the
    normaliser makes of the first text whose nearest anchor is Importe. *)
Theorem detalle_emitido (v : Vars) (linea : list palabra) (d : Detalle) :
  columnas v <> [] ->
  extraer_detalle v linea
  = Ok (mk_vars (detalles v ++ [d])%list (total_factura v) (columnas v)
          (estado v)) ->
  d_Descripcion d
  = Str.join " " (textos_cercanos (columnas v) Descripcion linea)
  /\ exists it resto,
       textos_cercanos (columnas v) Importe linea = it :: resto
       /\ normalizar_monto it = Some (d_Importe d).
Proof.
  intros Hne He.
  destruct (asignar_spec (columnas v) linea Hne) as (dl & Ha & Hdl).
  apply (extraer_detalle_emite v linea dl d Ha) in He.
  destruct (consolidar_origen _ _ _ _ Hne Ha He) as (_ & D2 & _).
  split; [exact D2|].
  apply consolidar_Some in He.
  destruct He as (cs & ps & it & _ & _ & H3 & _ & _ & _ & H7 & _).
  rewrite (primero_textos _ _ _ Importe Hdl) in H3.
  destruct (dict_get columna_eqb (columnas v) Importe); [|discriminate].
  destruct (textos_cercanos (columnas v) Importe linea) as [|t r];
    [discriminate|].
  injection H3 as <-. now exists t, r.
Qed.

Lemma detalle_emitido_witness :
  "Tornillo largo"
  = Str.join " "
      (textos_cercanos (columnas con_encabezado) Descripcion
         [ mk_palabra "2" 12 130 10 12; mk_palabra "Tornillo" 105 130 60 12;
           mk_palabra "largo" 170 130 40 12;
           mk_palabra "10,50" 298 130 40 12;
           mk_palabra "21,00" 401 130 40 12 ])
  /\ exists it resto,
       textos_cercanos (columnas con_encabezado) Importe
         [ mk_palabra "2" 12 130 10 12; mk_palabra "Tornillo" 105 130 60 12;
           mk_palabra "largo" 170 130 40 12;
           mk_palabra "10,50" 298 130 40 12;
           mk_palabra "21,00" 401 130 40 12 ]
       = it :: resto
       /\ normalizar_monto it = Some (Dec.DFin false 2100 (-2)).
Proof.
  refine (detalle_emitido con_encabezado
            [ mk_palabra "2" 12 130 10 12;
              mk_palabra "Tornillo" 105 130 60 12;
              mk_palabra "largo" 170 130 40 12;
              mk_palabra "10,50" 298 130 40 12;
              mk_palabra "21,00" 401 130 40 12 ]
            (mk_detalle 2 "Tornillo largo"
               (Some (Dec.DFin false 1050 (-2)))
               (Dec.DFin false 2100 (-2))) _ _).
  - discriminate.
  - vm_compute. reflexivity.
Defined.
